(** * ARONIA: frame codec, introduction validation and peer session

    A shallow embedding of [src/types.js], [src/protocol.js] and
    [src/peer.js], and the properties of the specification stated over it.

    Conventions of the embedding.
    - A [Buffer] is a list of bytes.  Integer fields are [Z]; writing one
      into a buffer keeps its low bits (the [DataView] setters that
      bare-buffer uses wrap around), reading one yields a value in range.
    - [Date.now()] is an explicit argument or a clock field of the state.
    - A number is a double.  [JNum n] and [Finite n] stand for the double
      nearest to the integer [n]; arithmetic and printing round as doubles
      do.
    - [hypercore-crypto] is outside the repository: [crypto.sign] and
      [crypto.verify] are parameters of the development.  So are the
      reading of a string as a number and the form in which bare-buffer
      presents a [Buffer] to [JSON.stringify].
    - A thrown exception is a value of a sum type. *)

From Stdlib Require Import ZArith Lia.
From Stdlib Require Import Strings.Byte Strings.Ascii Strings.String DecimalString.
From stdpp Require Import gmap strings list fin_maps.

Set Warnings "-register-all".
Local Open Scope Z_scope.

(** ** src/types.js *)

Module MessageType.
Definition CONTROL : Z := 0x01.
Definition REQUEST : Z := 0x02.
Definition RESPONSE : Z := 0x03.
Definition EVENT : Z := 0x04.
Definition STREAM_DATA : Z := 0x05.
Definition STREAM_END : Z := 0x06.
Definition INTRODUCE : Z := 0x07.
End MessageType.

Definition PROTOCOL_VERSION : Z := 1.
Definition HEADER_SIZE : Z := 52.
Definition SIGNATURE_SIZE : Z := 64.
Definition PUBLIC_KEY_SIZE : Z := 32.

(** ** Buffers *)

(** A buffer is the list of its bytes. *)
Abbreviation Buffer := (list byte).

Definition byte_to_Z (b : byte) : Z := Z.of_N (Byte.to_N b).

Definition byte_of_Z (z : Z) : byte :=
  default x00 (Byte.of_N (Z.to_N (z mod 256))).

(** [Buffer.alloc n]: [n] zero bytes. *)
Definition Buffer_alloc (n : Z) : Buffer := replicate (Z.to_nat n) x00.

(** [buf.length] as a number. *)
Definition blen (b : Buffer) : Z := Z.of_nat (length b).

(** [src.copy(target, offset)]: the bytes of [src] overwrite [target] from
    [offset] on, as many as fit; the target keeps its size. *)
Definition Buffer_copy (src target : Buffer) (offset : Z) : Buffer :=
  let o := Z.to_nat offset in
  take o target ++ take (length target - o)%nat src
    ++ drop (o + length src)%nat target.

(** [buf.subarray(start, end)], clipped to the buffer. *)
Definition subarray (b : Buffer) (start end_ : Z) : Buffer :=
  take (Z.to_nat (end_ - start)) (drop (Z.to_nat start) b).

(** Big-endian encoding of the low [8 * n] bits of [v]. *)
Fixpoint encodeBE (n : nat) (v : Z) : Buffer :=
  match n with
  | O => []
  | S k => byte_of_Z (v / 256 ^ Z.of_nat k) :: encodeBE k v
  end.

(** Big-endian value of a run of bytes. *)
Definition decodeBE (bs : Buffer) : Z :=
  fold_left (fun acc b => acc * 256 + byte_to_Z b) bs 0.

Definition writeUInt8 (buf : Buffer) (v offset : Z) : Buffer :=
  Buffer_copy (encodeBE 1 v) buf offset.
Definition writeUInt16BE (buf : Buffer) (v offset : Z) : Buffer :=
  Buffer_copy (encodeBE 2 v) buf offset.
Definition writeUInt32BE (buf : Buffer) (v offset : Z) : Buffer :=
  Buffer_copy (encodeBE 4 v) buf offset.
Definition writeBigUInt64BE (buf : Buffer) (v offset : Z) : Buffer :=
  Buffer_copy (encodeBE 8 v) buf offset.

Definition readUInt8 (buf : Buffer) (offset : Z) : Z :=
  decodeBE (subarray buf offset (offset + 1)).
Definition readUInt16BE (buf : Buffer) (offset : Z) : Z :=
  decodeBE (subarray buf offset (offset + 2)).
Definition readUInt32BE (buf : Buffer) (offset : Z) : Z :=
  decodeBE (subarray buf offset (offset + 4)).
Definition readBigUInt64BE (buf : Buffer) (offset : Z) : Z :=
  decodeBE (subarray buf offset (offset + 8)).

(** [Number(x)] for a BigInt [0 <= x]: the nearest double, ties to even.
    Doubles that hold integers are represented by that integer. *)
Definition Number_of_BigInt (x : Z) : Z :=
  if x <? 2 ^ 53 then x
  else
    let e := Z.log2 x - 52 in
    let q := x / 2 ^ e in
    let r := x mod 2 ^ e in
    let half := 2 ^ (e - 1) in
    if r <? half then q * 2 ^ e
    else if half <? r then (q + 1) * 2 ^ e
    else if Z.even q then q * 2 ^ e
    else (q + 1) * 2 ^ e.

(** ** src/protocol.js: frames *)

Record Frame := mkFrame {
  frame_length : Z;
  frame_version : Z;
  frame_type : Z;
  frame_flags : Z;
  frame_timestamp : Z;
  frame_senderPubkey : Buffer;
  frame_payload : Buffer;
  frame_signature : Buffer;
}.

(** The messages with which the sources construct a [ProtocolError]. *)
Inductive ProtocolError :=
  | BufferTooSmall (got need : Z)
  | LengthMismatch (expected got : Z)
  | UnsupportedVersion (version : Z)
  | NegativePayloadLength
  | InvalidFrameSignature
  | SenderMismatch (expected got : string)
  | UnknownMessageType (type : Z).

Definition serializeFrame (frame : Frame) : Buffer :=
  let totalSize :=
    4 + 1 + 1 + 2 + 8 + PUBLIC_KEY_SIZE
      + blen (frame_payload frame) + SIGNATURE_SIZE in
  let buffer := Buffer_alloc totalSize in
  let offset := 0 in
  let buffer := writeUInt32BE buffer totalSize offset in
  let offset := offset + 4 in
  let buffer := writeUInt8 buffer (frame_version frame) offset in
  let offset := offset + 1 in
  let buffer := writeUInt8 buffer (frame_type frame) offset in
  let offset := offset + 1 in
  let buffer := writeUInt16BE buffer (frame_flags frame) offset in
  let offset := offset + 2 in
  let buffer := writeBigUInt64BE buffer (frame_timestamp frame) offset in
  let offset := offset + 8 in
  let buffer := Buffer_copy (frame_senderPubkey frame) buffer offset in
  let offset := offset + PUBLIC_KEY_SIZE in
  let buffer := Buffer_copy (frame_payload frame) buffer offset in
  let offset := offset + blen (frame_payload frame) in
  let buffer := Buffer_copy (frame_signature frame) buffer offset in
  buffer.

Definition deserializeFrame (buffer : Buffer) : ProtocolError + Frame :=
  if blen buffer <? HEADER_SIZE + SIGNATURE_SIZE then
    inl (BufferTooSmall (blen buffer) (HEADER_SIZE + SIGNATURE_SIZE))
  else
    let offset := 0 in
    let length := readUInt32BE buffer offset in
    let offset := offset + 4 in
    if negb (blen buffer =? length) then
      inl (LengthMismatch length (blen buffer))
    else
      let version := readUInt8 buffer offset in
      let offset := offset + 1 in
      if negb (version =? PROTOCOL_VERSION) then
        inl (UnsupportedVersion version)
      else
        let type := readUInt8 buffer offset in
        let offset := offset + 1 in
        let flags := readUInt16BE buffer offset in
        let offset := offset + 2 in
        let timestamp := Number_of_BigInt (readBigUInt64BE buffer offset) in
        let offset := offset + 8 in
        let senderPubkey := subarray buffer offset (offset + PUBLIC_KEY_SIZE) in
        let offset := offset + PUBLIC_KEY_SIZE in
        let payloadLength := length - offset - SIGNATURE_SIZE in
        if payloadLength <? 0 then inl NegativePayloadLength
        else
          let payload := subarray buffer offset (offset + payloadLength) in
          let offset := offset + payloadLength in
          let signature := subarray buffer offset (offset + SIGNATURE_SIZE) in
          inr (mkFrame length version type flags timestamp
                 senderPubkey payload signature).

(** ** src/protocol.js: cycle detection on a trust path *)

(** The loop over [trustPath] with its [seen] set; [true] is the early
    [return true]. *)
Fixpoint seenLoop (seen : gset string) (trustPath : list string) : bool :=
  match trustPath with
  | [] => false
  | pubkey :: rest =>
      if decide (pubkey ∈ seen) then true
      else seenLoop ({[pubkey]} ∪ seen) rest
  end.

Definition detectCircularTrust (trustPath : list string) (ownPubkey : string)
  : bool :=
  if decide (ownPubkey ∈ trustPath) then true
  else seenLoop ∅ trustPath.

(** ** JavaScript values and [JSON.stringify] *)

(** The values that travel as payloads.  Numbers are the integers (all the
    numbers the sources put into a payload are), and [JNum n] is the double
    nearest to [n]; an object is the list of its own properties in
    insertion order. *)
Inductive jsval :=
  | JUndefined
  | JNull
  | JBool (b : bool)
  | JNum (n : Z)
  | JStr (s : string)
  | JArr (items : list jsval)
  | JObj (props : list (string * jsval)).

Definition string_of_Z (n : Z) : string := NilZero.string_of_int (Z.to_int n).

(** *** [Number::toString] on integers *)

(** Whether the decimal [s * 10 ^ e] is read as the double [x]. *)
Definition readsAs (x s e : Z) : bool := Number_of_BigInt (s * 10 ^ e) =? x.

(** The shortest digits that are read as the double [x], which has [nd]
    decimal digits: the result [(s, e)] stands for [s * 10 ^ e].  With [k]
    digits the candidates are the two neighbours of [x]; of two that are
    read as [x] the closer one is taken, the even one at a tie. *)
Fixpoint shortestFrom (fuel : nat) (k x nd : Z) : Z * Z :=
  match fuel with
  | O => (x, 0)
  | S fuel =>
      let e := nd - k in
      if e <=? 0 then (x, 0)
      else
        let lo := x / 10 ^ e in
        let hi := lo + 1 in
        match readsAs x lo e, readsAs x hi e with
        | true, true =>
            let below := x - lo * 10 ^ e in
            let above := hi * 10 ^ e - x in
            if below <? above then (lo, e)
            else if above <? below then (hi, e)
            else if Z.even lo then (lo, e)
            else (hi, e)
        | true, false => (lo, e)
        | false, true => (hi, e)
        | false, false => shortestFrom fuel (k + 1) x nd
        end
  end.

Definition zeros (e : Z) : string :=
  string_of_list_ascii (replicate (Z.to_nat e) "0"%char).

(** [Number::toString(x)] for the double [x >= 0] nearest to an integer:
    the integer in full below 2^53, where every integer is a double; from
    there on the shortest digits that are read as [x], filled up with
    zeros below 10^21 and in exponent form from 10^21 on. *)
Definition digitsOfDouble (x : Z) : string :=
  if x <? 2 ^ 53 then string_of_Z x
  else
    let nd := Z.of_nat (String.length (string_of_Z x)) in
    let '(s, e) :=
      if readsAs x 1 nd then (1, nd) else shortestFrom 17 1 x nd in
    let digits := string_of_Z s in
    let n := Z.of_nat (String.length digits) + e in
    if n <=? 21 then digits +:+ zeros e
    else
      match digits with
      | EmptyString => digits
      | String first EmptyString =>
          String first "e+" +:+ string_of_Z (n - 1)
      | String first rest =>
          String first ("." +:+ rest) +:+ "e+" +:+ string_of_Z (n - 1)
      end.

(** The magnitudes from here on are no finite double. *)
Definition isInfinite (n : Z) : bool :=
  2 ^ 1024 <=? Number_of_BigInt (Z.abs n).

Definition NumberToString (n : Z) : string :=
  (if n <? 0 then "-" else "")
  +:+ (if isInfinite n then "Infinity"
       else digitsOfDouble (Number_of_BigInt (Z.abs n))).

(** *** [JSON.stringify] *)

Definition hexDigit (n : Z) : ascii :=
  default "0"%char
    (String.get (Z.to_nat n) "0123456789abcdef"%string ≫= λ c, Some c).

(** A backslash followed by [s]. *)
Definition esc (s : string) : string := String (ascii_of_nat 92) s.

(** [QuoteJSONString] on one character. *)
Definition quoteChar (c : ascii) : string :=
  let n := Z.of_nat (nat_of_ascii c) in
  if n =? 34 then String (ascii_of_nat 92) (String (ascii_of_nat 34) EmptyString)
  else if n =? 92 then String (ascii_of_nat 92) (String (ascii_of_nat 92) EmptyString)
  else if n =? 8 then esc "b"
  else if n =? 12 then esc "f"
  else if n =? 10 then esc "n"
  else if n =? 13 then esc "r"
  else if n =? 9 then esc "t"
  else if n <? 32 then
    esc "u00" +:+ String (hexDigit (n / 16)) (String (hexDigit (n mod 16)) "")
  else String c "".

Fixpoint quoteBody (s : string) : string :=
  match s with
  | EmptyString => ""
  | String c rest => quoteChar c +:+ quoteBody rest
  end.

Definition quote (s : string) : string :=
  String (ascii_of_nat 34) (quoteBody s +:+ String (ascii_of_nat 34) "").

Fixpoint joinComma (parts : list string) : string :=
  match parts with
  | [] => ""
  | [x] => x
  | x :: rest => x +:+ "," +:+ joinComma rest
  end.

(** The value of a run of decimal digits; [None] for any other string. *)
Fixpoint digitsValue (acc : Z) (s : string) : option Z :=
  match s with
  | EmptyString => Some acc
  | String c rest =>
      let d := Z.of_nat (nat_of_ascii c) - 48 in
      if (0 <=? d) && (d <=? 9) then digitsValue (acc * 10 + d) rest
      else None
  end.

(** A property key that is an array index: the canonical decimal form of
    an integer from [0] to [2^32 - 2]. *)
Definition arrayIndex (key : string) : option Z :=
  match key with
  | EmptyString => None
  | _ =>
      match digitsValue 0 key with
      | Some n =>
          if String.eqb (string_of_Z n) key && (n <=? 2 ^ 32 - 2) then Some n
          else None
      | None => None
      end
  end.

(** Insertion of an indexed member behind the members with an index that
    is not larger. *)
Fixpoint insertIndexed {A} (n : Z) (x : A) (sorted : list (Z * A))
  : list (Z * A) :=
  match sorted with
  | [] => [(n, x)]
  | (m, y) :: rest =>
      if m <=? n then (m, y) :: insertIndexed n x rest
      else (n, x) :: (m, y) :: rest
  end.

(** The order in which the own properties of an object are visited: the
    array indices in ascending order, then the other keys as they were
    inserted. *)
Definition ownPropertyOrder {A} (members : list (string * A))
  : list (string * A) :=
  let indexed :=
    foldl (λ acc m, match arrayIndex m.1 with
                    | Some n => insertIndexed n m acc
                    | None => acc
                    end) [] members in
  map snd indexed
  ++ List.filter (λ m, match arrayIndex m.1 with
                       | Some _ => false
                       | None => true
                       end) members.

(** [JSON.stringify(v)]; [None] is the result [undefined]. *)
Fixpoint JSON_stringify (v : jsval) : option string :=
  match v with
  | JUndefined => None
  | JNull => Some "null"%string
  | JBool true => Some "true"%string
  | JBool false => Some "false"%string
  | JNum n => Some (if isInfinite n then "null"%string else NumberToString n)
  | JStr s => Some (quote s)
  | JArr items =>
      Some ("[" +:+ joinComma
              (map (λ x, default "null"%string (JSON_stringify x)) items)
            +:+ "]")
  | JObj props =>
      let members :=
        (fix members (ps : list (string * jsval)) : list (string * string) :=
           match ps with
           | [] => []
           | (k, x) :: rest =>
               match JSON_stringify x with
               | Some s => (k, s) :: members rest
               | None => members rest
               end
           end) props in
      Some ("{" +:+ joinComma
              (map (λ m, quote m.1 +:+ ":" +:+ m.2) (ownPropertyOrder members))
            +:+ "}")
  end.

(** [String(v)], as the conversion of an array to a number and a template
    literal use it. *)
Fixpoint ToString (v : jsval) : string :=
  match v with
  | JUndefined => "undefined"
  | JNull => "null"
  | JBool true => "true"
  | JBool false => "false"
  | JNum n => NumberToString n
  | JStr s => s
  | JArr items =>
      joinComma
        (map (λ x, match x with
                   | JUndefined | JNull => ""%string
                   | _ => ToString x
                   end) items)
  | JObj _ => "[object Object]"
  end.

(** [Buffer.from(str)]: the bytes of the string. *)
Definition Buffer_from (s : string) : Buffer := list_byte_of_string s.

(** [buf.toString('hex')]. *)
Fixpoint toHex (b : Buffer) : string :=
  match b with
  | [] => ""
  | x :: rest =>
      String (hexDigit (byte_to_Z x / 16))
        (String (hexDigit (byte_to_Z x mod 16)) (toHex rest))
  end.

(** Truthiness, and property access [v.name] ([None]: a [TypeError]). *)
Definition truthy (v : jsval) : bool :=
  match v with
  | JUndefined | JNull => false
  | JBool b => b
  | JNum n => negb (n =? 0)
  | JStr s => negb (String.eqb s "")
  | JArr _ | JObj _ => true
  end.

Fixpoint lookupProp (name : string) (props : list (string * jsval)) : jsval :=
  match props with
  | [] => JUndefined
  | (k, x) :: rest => if String.eqb k name then x else lookupProp name rest
  end.

Definition getProp (v : jsval) (name : string) : option jsval :=
  match v with
  | JUndefined | JNull => None
  | JObj props => Some (lookupProp name props)
  | _ => Some JUndefined
  end.

(** ** Errors *)

Inductive JsError :=
  | PeerOfflineError (pubkey : string)
  | RequestTimeoutError (requestId : string) (timeout : Z)
  | Protocol (e : ProtocolError)
  | Error_ (message : jsval)
  | TypeError
  | SyntaxError
  | ReferenceError (name : string).

(** ** hypercore-crypto *)

Record KeyPair := mkKeyPair { publicKey : Buffer; secretKey : Buffer }.

(** [crypto_verify] is [true] exactly when the library call returns [true]
    (a call that throws counts as [false]: every caller either tests the
    result or catches). *)
Class Crypto := {
  crypto_sign : Buffer → Buffer → Buffer;
  crypto_verify : Buffer → Buffer → Buffer → bool;
}.

(** ** The runtime

    What a string is as a number, and how bare-buffer presents a [Buffer]
    to [JSON.stringify], are decided outside the repository: both are
    parameters of the development. *)

(** A number that the sources compute with: [Finite n] is the double
    nearest to the integer [n], an infinity when [n] is out of range. *)
Inductive JsNumber :=
  | Finite (n : Z)
  | NaN.

Class Runtime := {
  StringToNumber : string → JsNumber;
  Buffer_toJSON : Buffer → jsval;
}.

(** [Number(v)]: an array or an object goes through its string. *)
Definition ToNumber `{Runtime} (v : jsval) : JsNumber :=
  match v with
  | JUndefined => NaN
  | JNull => Finite 0
  | JBool b => Finite (if b then 1 else 0)
  | JNum n => Finite n
  | JStr s => StringToNumber s
  | JArr _ | JObj _ => StringToNumber (ToString v)
  end.

(** The double nearest to [n] as an integer; [2 ^ 1024] and its opposite
    stand for the infinities. *)
Definition toDouble (n : Z) : Z :=
  Z.sgn n * Z.min (Number_of_BigInt (Z.abs n)) (2 ^ 1024).

(** [a - b], [a > b] and [a < b] on doubles.  The difference is rounded;
    it is [NaN] when an operand is, and for two equal infinities.  A
    comparison with [NaN] is [false]. *)
Definition minus (a b : JsNumber) : JsNumber :=
  match a, b with
  | Finite x, Finite y =>
      let x := toDouble x in
      let y := toDouble y in
      if Z.abs x =? 2 ^ 1024 then
        if x =? y then NaN else Finite x
      else if Z.abs y =? 2 ^ 1024 then Finite (- y)
      else Finite (toDouble (x - y))
  | _, _ => NaN
  end.

Definition greater (a b : JsNumber) : bool :=
  match a, b with
  | Finite x, Finite y => toDouble y <? toDouble x
  | _, _ => false
  end.

Definition less (a b : JsNumber) : bool :=
  match a, b with
  | Finite x, Finite y => toDouble x <? toDouble y
  | _, _ => false
  end.

(** ** src/protocol.js: signing and verifying *)

Section Protocol.
Context `{Crypto} `{Runtime}.

(** [Buffer.from(JSON.stringify(payload))]: bare-buffer makes the empty
    buffer of [undefined], the result of [JSON.stringify(undefined)]. *)
Definition Buffer_from_text (text : option string) : Buffer :=
  match text with
  | Some text => Buffer_from text
  | None => []
  end.

(** [createFrame(type, payload, keyPair, flags)] at time [now].  The result
    is a sum because its callers are written for a call that throws; with
    the payloads modelled here it returns a frame. *)
Definition createFrame (type : Z) (payload : jsval) (keyPair : KeyPair)
    (flags : Z) (now : Z) : JsError + Frame :=
  let payloadBuffer := Buffer_from_text (JSON_stringify payload) in
  let timestamp := now in
  let frameWithoutSig :=
    mkFrame
      (4 + 1 + 1 + 2 + 8 + PUBLIC_KEY_SIZE + blen payloadBuffer
         + SIGNATURE_SIZE)
      PROTOCOL_VERSION type flags timestamp (publicKey keyPair)
      payloadBuffer (Buffer_alloc SIGNATURE_SIZE) in
  let buffer := serializeFrame frameWithoutSig in
  let dataToSign := subarray buffer 0 (blen buffer - SIGNATURE_SIZE) in
  let signature := crypto_sign dataToSign (secretKey keyPair) in
  inr (mkFrame (frame_length frameWithoutSig) PROTOCOL_VERSION type
         flags timestamp (publicKey keyPair) payloadBuffer signature).

Definition verifyFrame (frame : Frame) : bool :=
  let frameCopy :=
    mkFrame (frame_length frame) (frame_version frame) (frame_type frame)
      (frame_flags frame) (frame_timestamp frame)
      (frame_senderPubkey frame) (frame_payload frame)
      (Buffer_alloc SIGNATURE_SIZE) in
  let buffer := serializeFrame frameCopy in
  let dataToVerify := subarray buffer 0 (blen buffer - SIGNATURE_SIZE) in
  crypto_verify dataToVerify (frame_signature frame)
    (frame_senderPubkey frame).

Definition createHeartbeat (keyPair : KeyPair) (now : Z) : JsError + Frame :=
  createFrame MessageType.CONTROL
    (JObj [("type", JStr "heartbeat"); ("timestamp", JNum now)]%string)
    keyPair 0 now.

Definition createCapabilities (capabilities : jsval) (keyPair : KeyPair)
    (now : Z) : JsError + Frame :=
  createFrame MessageType.CONTROL
    (JObj [("type", JStr "capabilities"); ("data", capabilities)]%string)
    keyPair 0 now.

Definition createRequest (request : jsval) (keyPair : KeyPair) (now : Z)
  : JsError + Frame :=
  createFrame MessageType.REQUEST request keyPair 0 now.

Definition createResponse (response : jsval) (keyPair : KeyPair) (now : Z)
  : JsError + Frame :=
  createFrame MessageType.RESPONSE response keyPair 0 now.

Definition createEvent (event : jsval) (keyPair : KeyPair) (now : Z)
  : JsError + Frame :=
  createFrame MessageType.EVENT event keyPair 0 now.

(** *** Introductions *)

(** An introduction record.  Its [timestamp] is whatever value the record
    holds there ([JUndefined]: none); the age is computed from it. *)
Record Introduction := mkIntroduction {
  intro_pubkey : string;
  intro_alias : string;
  intro_capabilities : jsval;
  intro_message : jsval;
  intro_introducerPubkey : string;
  intro_timestamp : jsval;
  intro_trustPath : list string;
  intro_signature : Buffer;
}.

(** The object that is signed: every field but the signature, in the order
    in which [validateIntroduction] rebuilds it. *)
Definition introPayload (intro : Introduction) : jsval :=
  JObj [("pubkey", JStr (intro_pubkey intro));
        ("alias", JStr (intro_alias intro));
        ("capabilities", intro_capabilities intro);
        ("message", intro_message intro);
        ("introducerPubkey", JStr (intro_introducerPubkey intro));
        ("timestamp", intro_timestamp intro);
        ("trustPath", JArr (map JStr (intro_trustPath intro)))]%string.

Definition introPayloadBuffer (intro : Introduction) : Buffer :=
  Buffer_from_text (JSON_stringify (introPayload intro)).


Inductive IntroductionProblem :=
  | Expired (age : JsNumber)
  | FromTheFuture
  | InvalidSignature
  | IntroducerMismatch.

(** The result object [{ valid, error }]. *)
Inductive Validation :=
  | Valid
  | Invalid (error : IntroductionProblem).


Definition validateIntroduction (intro : Introduction)
    (introducerPubkey : Buffer) (maxAge : Z) (now : Z) : Validation :=
  let age := minus (Finite now) (ToNumber (intro_timestamp intro)) in
  if greater age (Finite maxAge) then Invalid (Expired age)
  else if less age (Finite 0) then Invalid FromTheFuture
  else
    let payloadBuffer := introPayloadBuffer intro in
    if negb (crypto_verify payloadBuffer (intro_signature intro)
               introducerPubkey)
    then Invalid InvalidSignature
    else if negb (String.eqb (intro_introducerPubkey intro)
                    (toHex introducerPubkey))
    then Invalid IntroducerMismatch
    else Valid.
End Protocol.

(** ** src/peer.js: a peer session in its runtime

    One [Session] holds the fields of a [PeerConnection] object together
    with the part of the runtime its methods act on: the clock, the armed
    timers, the queues of [setImmediate] callbacks and of promise reactions,
    the promises handed out, and what the stream will answer to [write].
    Every function below is one run-to-completion piece of the source.  The
    listeners of emitted events belong to the application; an emission is
    recorded in [trace], as is every other effect, in order. *)

Inductive Outcome :=
  | Resolved (value : jsval)
  | Rejected (reason : JsError).

(** An entry of [pendingRequests]: [{ resolve, reject, timer }], where
    [resolve] and [reject] settle the promise [pending_promise]. *)
Record Pending := mkPending { pending_promise : nat; pending_timer : nat }.

(** The callbacks the sources hand to [setInterval] and [setTimeout]. *)
Inductive TimerCallback :=
  | HeartbeatTick
  | LivenessExpired
  | BackpressureTimeout (promise : nat)
  | RequestDeadline (id : string) (promise : nat) (timeout : Z).

Record Timer := mkTimer {
  fireAt : Z;
  callback : TimerCallback;
  every : option Z;
}.

(** Deferred work: the [checkDrain] closure of a parked write, and the
    [.catch] reaction that [request] attaches to its write. *)
Inductive Task :=
  | CheckDrain (promise : nat) (timeout : nat)
  | SendFailed (id : string) (timer : nat) (promise : nat) (err : JsError).

(** What is attached to the promise of a parked write. *)
Inductive Catcher :=
  | CatchRequest (id : string) (timer : nat) (promise : nat)
  | CatchIgnore.

Inductive Event :=
  | EvError (err : JsError)
  | EvCapabilities (capabilities : jsval)
  | EvRequest (request : jsval)
  | EvMessage (type : Z) (payload : jsval)
  | EvIntroduction (payload : jsval)
  | EvDisconnect
  | EvTimeout.

Inductive Effect :=
  | FxLastSeen (now : Z)
  | FxSetTimer (handle : nat) (fires : Z) (cb : TimerCallback)
  | FxClearTimer (handle : nat)
  | FxPendingSet (id : string)
  | FxPendingDelete (id : string)
  | FxPendingClear
  | FxStreamWrite (buffer : Buffer) (canContinue : bool)
  | FxStreamDestroy
  | FxEmit (ev : Event)
  | FxSettle (promise : nat) (outcome : Outcome).

(** [JSON.parse]; [None] is a [SyntaxError]. *)
Class Json := { JSON_parse : string → option jsval }.

Record Session := mkSession {
  pubkey : string;
  capabilities : jsval;
  ourKeyPair : KeyPair;
  heartbeatInterval : Z;
  heartbeatTimeout : Z;
  connectedAt : Z;
  lastSeen : Z;
  online : bool;
  pendingRequests : gmap string Pending;
  requestCounter : Z;
  destroyed : bool;
  writeQueue : list Buffer;
  writeDraining : bool;
  heartbeatTimer : option nat;
  heartbeatTimeoutTimer : option nat;
  (* the runtime around the object *)
  clock : Z;
  timers : gmap nat Timer;
  nextTimer : nat;
  immediates : list Task;
  microtasks : list Task;
  promises : gmap nat Outcome;
  nextPromise : nat;
  catchers : gmap nat Catcher;
  streamReady : list bool;
  trace : list Effect;
}.

Definition set_capabilities (v : jsval) (w : Session) : Session :=
  mkSession (pubkey w) v (ourKeyPair w) (heartbeatInterval w)
    (heartbeatTimeout w) (connectedAt w) (lastSeen w) (online w)
    (pendingRequests w) (requestCounter w) (destroyed w) (writeQueue w)
    (writeDraining w) (heartbeatTimer w) (heartbeatTimeoutTimer w) (clock w)
    (timers w) (nextTimer w) (immediates w) (microtasks w) (promises w)
    (nextPromise w) (catchers w) (streamReady w) (trace w).
Definition set_lastSeen (v : Z) (w : Session) : Session :=
  mkSession (pubkey w) (capabilities w) (ourKeyPair w) (heartbeatInterval w)
    (heartbeatTimeout w) (connectedAt w) v (online w) (pendingRequests w)
    (requestCounter w) (destroyed w) (writeQueue w) (writeDraining w)
    (heartbeatTimer w) (heartbeatTimeoutTimer w) (clock w) (timers w)
    (nextTimer w) (immediates w) (microtasks w) (promises w) (nextPromise w)
    (catchers w) (streamReady w) (trace w).
Definition set_online (v : bool) (w : Session) : Session :=
  mkSession (pubkey w) (capabilities w) (ourKeyPair w) (heartbeatInterval w)
    (heartbeatTimeout w) (connectedAt w) (lastSeen w) v (pendingRequests w)
    (requestCounter w) (destroyed w) (writeQueue w) (writeDraining w)
    (heartbeatTimer w) (heartbeatTimeoutTimer w) (clock w) (timers w)
    (nextTimer w) (immediates w) (microtasks w) (promises w) (nextPromise w)
    (catchers w) (streamReady w) (trace w).
Definition set_pendingRequests (v : gmap string Pending) (w : Session) : Session :=
  mkSession (pubkey w) (capabilities w) (ourKeyPair w) (heartbeatInterval w)
    (heartbeatTimeout w) (connectedAt w) (lastSeen w) (online w) v
    (requestCounter w) (destroyed w) (writeQueue w) (writeDraining w)
    (heartbeatTimer w) (heartbeatTimeoutTimer w) (clock w) (timers w)
    (nextTimer w) (immediates w) (microtasks w) (promises w) (nextPromise w)
    (catchers w) (streamReady w) (trace w).
Definition set_requestCounter (v : Z) (w : Session) : Session :=
  mkSession (pubkey w) (capabilities w) (ourKeyPair w) (heartbeatInterval w)
    (heartbeatTimeout w) (connectedAt w) (lastSeen w) (online w)
    (pendingRequests w) v (destroyed w) (writeQueue w) (writeDraining w)
    (heartbeatTimer w) (heartbeatTimeoutTimer w) (clock w) (timers w)
    (nextTimer w) (immediates w) (microtasks w) (promises w) (nextPromise w)
    (catchers w) (streamReady w) (trace w).
Definition set_destroyed (v : bool) (w : Session) : Session :=
  mkSession (pubkey w) (capabilities w) (ourKeyPair w) (heartbeatInterval w)
    (heartbeatTimeout w) (connectedAt w) (lastSeen w) (online w)
    (pendingRequests w) (requestCounter w) v (writeQueue w) (writeDraining
    w) (heartbeatTimer w) (heartbeatTimeoutTimer w) (clock w) (timers w)
    (nextTimer w) (immediates w) (microtasks w) (promises w) (nextPromise w)
    (catchers w) (streamReady w) (trace w).
Definition set_writeQueue (v : list Buffer) (w : Session) : Session :=
  mkSession (pubkey w) (capabilities w) (ourKeyPair w) (heartbeatInterval w)
    (heartbeatTimeout w) (connectedAt w) (lastSeen w) (online w)
    (pendingRequests w) (requestCounter w) (destroyed w) v (writeDraining w)
    (heartbeatTimer w) (heartbeatTimeoutTimer w) (clock w) (timers w)
    (nextTimer w) (immediates w) (microtasks w) (promises w) (nextPromise w)
    (catchers w) (streamReady w) (trace w).
Definition set_writeDraining (v : bool) (w : Session) : Session :=
  mkSession (pubkey w) (capabilities w) (ourKeyPair w) (heartbeatInterval w)
    (heartbeatTimeout w) (connectedAt w) (lastSeen w) (online w)
    (pendingRequests w) (requestCounter w) (destroyed w) (writeQueue w) v
    (heartbeatTimer w) (heartbeatTimeoutTimer w) (clock w) (timers w)
    (nextTimer w) (immediates w) (microtasks w) (promises w) (nextPromise w)
    (catchers w) (streamReady w) (trace w).
Definition set_heartbeatTimer (v : option nat) (w : Session) : Session :=
  mkSession (pubkey w) (capabilities w) (ourKeyPair w) (heartbeatInterval w)
    (heartbeatTimeout w) (connectedAt w) (lastSeen w) (online w)
    (pendingRequests w) (requestCounter w) (destroyed w) (writeQueue w)
    (writeDraining w) v (heartbeatTimeoutTimer w) (clock w) (timers w)
    (nextTimer w) (immediates w) (microtasks w) (promises w) (nextPromise w)
    (catchers w) (streamReady w) (trace w).
Definition set_heartbeatTimeoutTimer (v : option nat) (w : Session) : Session :=
  mkSession (pubkey w) (capabilities w) (ourKeyPair w) (heartbeatInterval w)
    (heartbeatTimeout w) (connectedAt w) (lastSeen w) (online w)
    (pendingRequests w) (requestCounter w) (destroyed w) (writeQueue w)
    (writeDraining w) (heartbeatTimer w) v (clock w) (timers w) (nextTimer
    w) (immediates w) (microtasks w) (promises w) (nextPromise w) (catchers
    w) (streamReady w) (trace w).
Definition set_clock (v : Z) (w : Session) : Session :=
  mkSession (pubkey w) (capabilities w) (ourKeyPair w) (heartbeatInterval w)
    (heartbeatTimeout w) (connectedAt w) (lastSeen w) (online w)
    (pendingRequests w) (requestCounter w) (destroyed w) (writeQueue w)
    (writeDraining w) (heartbeatTimer w) (heartbeatTimeoutTimer w) v (timers
    w) (nextTimer w) (immediates w) (microtasks w) (promises w) (nextPromise
    w) (catchers w) (streamReady w) (trace w).
Definition set_timers (v : gmap nat Timer) (w : Session) : Session :=
  mkSession (pubkey w) (capabilities w) (ourKeyPair w) (heartbeatInterval w)
    (heartbeatTimeout w) (connectedAt w) (lastSeen w) (online w)
    (pendingRequests w) (requestCounter w) (destroyed w) (writeQueue w)
    (writeDraining w) (heartbeatTimer w) (heartbeatTimeoutTimer w) (clock w)
    v (nextTimer w) (immediates w) (microtasks w) (promises w) (nextPromise
    w) (catchers w) (streamReady w) (trace w).
Definition set_nextTimer (v : nat) (w : Session) : Session :=
  mkSession (pubkey w) (capabilities w) (ourKeyPair w) (heartbeatInterval w)
    (heartbeatTimeout w) (connectedAt w) (lastSeen w) (online w)
    (pendingRequests w) (requestCounter w) (destroyed w) (writeQueue w)
    (writeDraining w) (heartbeatTimer w) (heartbeatTimeoutTimer w) (clock w)
    (timers w) v (immediates w) (microtasks w) (promises w) (nextPromise w)
    (catchers w) (streamReady w) (trace w).
Definition set_immediates (v : list Task) (w : Session) : Session :=
  mkSession (pubkey w) (capabilities w) (ourKeyPair w) (heartbeatInterval w)
    (heartbeatTimeout w) (connectedAt w) (lastSeen w) (online w)
    (pendingRequests w) (requestCounter w) (destroyed w) (writeQueue w)
    (writeDraining w) (heartbeatTimer w) (heartbeatTimeoutTimer w) (clock w)
    (timers w) (nextTimer w) v (microtasks w) (promises w) (nextPromise w)
    (catchers w) (streamReady w) (trace w).
Definition set_microtasks (v : list Task) (w : Session) : Session :=
  mkSession (pubkey w) (capabilities w) (ourKeyPair w) (heartbeatInterval w)
    (heartbeatTimeout w) (connectedAt w) (lastSeen w) (online w)
    (pendingRequests w) (requestCounter w) (destroyed w) (writeQueue w)
    (writeDraining w) (heartbeatTimer w) (heartbeatTimeoutTimer w) (clock w)
    (timers w) (nextTimer w) (immediates w) v (promises w) (nextPromise w)
    (catchers w) (streamReady w) (trace w).
Definition set_promises (v : gmap nat Outcome) (w : Session) : Session :=
  mkSession (pubkey w) (capabilities w) (ourKeyPair w) (heartbeatInterval w)
    (heartbeatTimeout w) (connectedAt w) (lastSeen w) (online w)
    (pendingRequests w) (requestCounter w) (destroyed w) (writeQueue w)
    (writeDraining w) (heartbeatTimer w) (heartbeatTimeoutTimer w) (clock w)
    (timers w) (nextTimer w) (immediates w) (microtasks w) v (nextPromise w)
    (catchers w) (streamReady w) (trace w).
Definition set_nextPromise (v : nat) (w : Session) : Session :=
  mkSession (pubkey w) (capabilities w) (ourKeyPair w) (heartbeatInterval w)
    (heartbeatTimeout w) (connectedAt w) (lastSeen w) (online w)
    (pendingRequests w) (requestCounter w) (destroyed w) (writeQueue w)
    (writeDraining w) (heartbeatTimer w) (heartbeatTimeoutTimer w) (clock w)
    (timers w) (nextTimer w) (immediates w) (microtasks w) (promises w) v
    (catchers w) (streamReady w) (trace w).
Definition set_catchers (v : gmap nat Catcher) (w : Session) : Session :=
  mkSession (pubkey w) (capabilities w) (ourKeyPair w) (heartbeatInterval w)
    (heartbeatTimeout w) (connectedAt w) (lastSeen w) (online w)
    (pendingRequests w) (requestCounter w) (destroyed w) (writeQueue w)
    (writeDraining w) (heartbeatTimer w) (heartbeatTimeoutTimer w) (clock w)
    (timers w) (nextTimer w) (immediates w) (microtasks w) (promises w)
    (nextPromise w) v (streamReady w) (trace w).
Definition set_streamReady (v : list bool) (w : Session) : Session :=
  mkSession (pubkey w) (capabilities w) (ourKeyPair w) (heartbeatInterval w)
    (heartbeatTimeout w) (connectedAt w) (lastSeen w) (online w)
    (pendingRequests w) (requestCounter w) (destroyed w) (writeQueue w)
    (writeDraining w) (heartbeatTimer w) (heartbeatTimeoutTimer w) (clock w)
    (timers w) (nextTimer w) (immediates w) (microtasks w) (promises w)
    (nextPromise w) (catchers w) v (trace w).
Definition set_trace (v : list Effect) (w : Session) : Session :=
  mkSession (pubkey w) (capabilities w) (ourKeyPair w) (heartbeatInterval w)
    (heartbeatTimeout w) (connectedAt w) (lastSeen w) (online w)
    (pendingRequests w) (requestCounter w) (destroyed w) (writeQueue w)
    (writeDraining w) (heartbeatTimer w) (heartbeatTimeoutTimer w) (clock w)
    (timers w) (nextTimer w) (immediates w) (microtasks w) (promises w)
    (nextPromise w) (catchers w) (streamReady w) v.

Definition log (e : Effect) (w : Session) : Session :=
  set_trace (trace w ++ [e]) w.

Definition emit (ev : Event) (w : Session) : Session := log (FxEmit ev) w.

Definition armTimer (cb : TimerCallback) (delay : Z) (every : option Z)
    (w : Session) : nat * Session :=
  let h := nextTimer w in
  let t := mkTimer (clock w + delay) cb every in
  (h, log (FxSetTimer h (fireAt t) cb)
        (set_nextTimer (S h) (set_timers (<[h := t]> (timers w)) w))).

Definition setTimeout (cb : TimerCallback) (delay : Z) (w : Session)
  : nat * Session := armTimer cb delay None w.

Definition setInterval (cb : TimerCallback) (delay : Z) (w : Session)
  : nat * Session := armTimer cb delay (Some delay) w.

(** [clearTimeout] and [clearInterval]. *)
Definition clearTimeout (h : nat) (w : Session) : Session :=
  log (FxClearTimer h) (set_timers (delete h (timers w)) w).

(** Settling a promise: only the first settlement counts. *)
Definition resolve (p : nat) (value : jsval) (w : Session) : Session :=
  match promises w !! p with
  | Some _ => w
  | None =>
      log (FxSettle p (Resolved value))
        (set_promises (<[p := Resolved value]> (promises w)) w)
  end.

Definition reject (p : nat) (err : JsError) (w : Session) : Session :=
  match promises w !! p with
  | Some _ => w
  | None =>
      let w := log (FxSettle p (Rejected err))
                 (set_promises (<[p := Rejected err]> (promises w)) w) in
      match catchers w !! p with
      | Some (CatchRequest id timer q) =>
          set_microtasks (microtasks w ++ [SendFailed id timer q err]) w
      | _ => w
      end
  end.

(** [this.stream.write(buffer)]: the stream answers whether the caller can
    continue. *)
Definition stream_write (buffer : Buffer) (w : Session) : bool * Session :=
  let canContinue := match streamReady w with [] => true | b :: _ => b end in
  (canContinue,
   log (FxStreamWrite buffer canContinue)
     (set_streamReady (tail (streamReady w)) w)).

Definition pendingDelete (id : string) (w : Session) : Session :=
  log (FxPendingDelete id)
    (set_pendingRequests (delete id (pendingRequests w)) w).

Definition stopHeartbeat (w : Session) : Session :=
  let w :=
    match heartbeatTimer w with
    | Some h => set_heartbeatTimer None (clearTimeout h w)
    | None => w
    end in
  match heartbeatTimeoutTimer w with
  | Some h => set_heartbeatTimeoutTimer None (clearTimeout h w)
  | None => w
  end.

Definition resetHeartbeatTimeout (w : Session) : Session :=
  let w :=
    match heartbeatTimeoutTimer w with
    | Some h => clearTimeout h w
    | None => w
    end in
  let '(h, w) := setTimeout LivenessExpired (heartbeatTimeout w) w in
  set_heartbeatTimeoutTimer (Some h) w.

Definition startHeartbeat (w : Session) : Session :=
  let '(h, w) := setInterval HeartbeatTick (heartbeatInterval w) w in
  let w := set_heartbeatTimer (Some h) w in
  resetHeartbeatTimeout w.

(** The [for (const [id, pending] of this.pendingRequests)] loop shared by
    [handleDisconnect] and [destroy].  The entries are visited in the order
    of [map_to_list]; nothing stated below depends on it. *)
Definition rejectAllPending (err : JsError) (w : Session) : Session :=
  foldl
    (λ w (entry : string * Pending),
       reject (pending_promise entry.2) err
         (clearTimeout (pending_timer entry.2) w))
    w (map_to_list (pendingRequests w)).

Definition destroy (w : Session) : Session :=
  if destroyed w then w
  else
    let w := set_destroyed true w in
    let w := stopHeartbeat w in
    let w := log FxStreamDestroy w in
    let w := rejectAllPending (PeerOfflineError (pubkey w)) w in
    log FxPendingClear (set_pendingRequests ∅ w).

Definition handleDisconnect (w : Session) : Session :=
  if destroyed w then w
  else
    let w := set_online false w in
    let w := stopHeartbeat w in
    let w := rejectAllPending (PeerOfflineError (pubkey w)) w in
    let w := log FxPendingClear (set_pendingRequests ∅ w) in
    emit EvDisconnect w.

(** *** Writing *)

Inductive WriteStatus :=
  | WriteDone
  | WriteThrown (err : JsError)
  | WriteParked (promise : nat).

Definition backpressureError : JsError :=
  Error_ (JStr "Write timeout due to backpressure").

Definition checkDrain (p timeout : nat) (w : Session) : Session :=
  if negb (writeDraining w) then
    let w := clearTimeout timeout w in
    resolve p JUndefined w
  else set_immediates (immediates w ++ [CheckDrain p timeout]) w.

Definition writeFrame (frame : Frame) (w : Session) : WriteStatus * Session :=
  if destroyed w then (WriteThrown (PeerOfflineError (pubkey w)), w)
  else
    let buffer := serializeFrame frame in
    let '(canContinue, w) := stream_write buffer w in
    if negb canContinue then
      let p := nextPromise w in
      let w := set_nextPromise (S p) w in
      let w := set_writeQueue (writeQueue w ++ [buffer]) w in
      let '(timeout, w) := setTimeout (BackpressureTimeout p) 30000 w in
      let w := checkDrain p timeout w in
      (WriteParked p, w)
    else (WriteDone, w).

Fixpoint processWriteLoop (fuel : nat) (w : Session) : Session :=
  match fuel with
  | O => w
  | S fuel =>
      match writeQueue w with
      | [] => w
      | buffer :: rest =>
          if writeDraining w then w
          else
            let w := set_writeQueue rest w in
            let '(canContinue, w) := stream_write buffer w in
            let w := set_writeDraining (negb canContinue) w in
            processWriteLoop fuel w
      end
  end.

(** Each turn of the [while] loop shifts one buffer off the queue, so the
    length of the queue bounds the number of turns. *)
Definition processWriteQueue (w : Session) : Session :=
  let w := set_writeDraining false w in
  processWriteLoop (length (writeQueue w)) w.

Section Peer.
Context `{Crypto} `{Json}.

(** [writeFrame] as the callers other than [request] use it, on what the
    builder of the frame returned: an exception of the builder is a
    rejection of the caller's own promise. *)
Definition writeBuilt (built : JsError + Frame) (w : Session)
  : WriteStatus * Session :=
  match built with
  | inl err => (WriteThrown err, w)
  | inr frame => writeFrame frame w
  end.

(** [send] names [createFrame], which [peer.js] does not import. *)
Definition send (message : jsval) (w : Session) : WriteStatus * Session :=
  (WriteThrown (ReferenceError "createFrame"), w).

Definition sendResponse (response : jsval) (w : Session)
  : WriteStatus * Session :=
  writeBuilt (createResponse response (ourKeyPair w) (clock w)) w.

Definition ourCapabilities : jsval :=
  JObj [("agent", JStr "aronia"); ("version", JStr "0.1.0");
        ("accepts", JArr [JStr "application/json"])]%string.

Definition sendCapabilities (w : Session) : WriteStatus * Session :=
  writeBuilt (createCapabilities ourCapabilities (ourKeyPair w) (clock w)) w.

Definition requestId (now counter : Z) : string :=
  NumberToString now +:+ "-" +:+ NumberToString counter.

(** [request(method, params, timeout)]: the returned number names the
    promise handed to the caller. *)
Definition request (method : string) (params : jsval) (timeout : Z)
    (w : Session) : nat * Session :=
  let w := set_requestCounter (requestCounter w + 1) w in
  let id := requestId (clock w) (requestCounter w) in
  let request :=
    JObj [("id", JStr id); ("method", JStr method); ("params", params);
          ("timeout", JNum timeout)]%string in
  let p := nextPromise w in
  let w := set_nextPromise (S p) w in
  let '(timer, w) := setTimeout (RequestDeadline id p timeout) timeout w in
  let w :=
    log (FxPendingSet id)
      (set_pendingRequests (<[id := mkPending p timer]> (pendingRequests w)) w)
  in
  match createRequest request (ourKeyPair w) (clock w) with
  | inl err => (p, reject p err w)
  | inr frame =>
      let '(status, w) := writeFrame frame w in
      match status with
      | WriteDone => (p, w)
      | WriteThrown err =>
          (p, set_microtasks (microtasks w ++ [SendFailed id timer p err]) w)
      | WriteParked q =>
          (p, set_catchers (<[q := CatchRequest id timer p]> (catchers w)) w)
      end
  end.

(** *** Inbound frames *)

Definition handleControl (msg : jsval) (w : Session) : JsError + Session :=
  match getProp msg "type" with
  | None => inl TypeError
  | Some (JStr t) =>
      if String.eqb t "heartbeat" then inr w
      else if String.eqb t "capabilities" then
        match getProp msg "data" with
        | None => inl TypeError
        | Some data =>
            if truthy data then
              let w := set_capabilities data w in
              inr (emit (EvCapabilities (capabilities w)) w)
            else inr w
        end
      else inr w
  | Some _ => inr w
  end.

Definition handleRequest (request : jsval) (w : Session) : Session :=
  emit (EvRequest request) w.

(** [this.pendingRequests.get(key)]: the keys of the map are strings. *)
Definition pendingGet (w : Session) (key : jsval) : option Pending :=
  match key with
  | JStr id => pendingRequests w !! id
  | _ => None
  end.

Definition pendingDeleteKey (key : jsval) (w : Session) : Session :=
  match key with
  | JStr id => pendingDelete id w
  | _ => w
  end.

Definition handleResponse (response : jsval) (w : Session)
  : JsError + Session :=
  match getProp response "id" with
  | None => inl TypeError
  | Some id =>
      match pendingGet w id with
      | None => inr w
      | Some pending =>
          let w := clearTimeout (pending_timer pending) w in
          let w := pendingDeleteKey id w in
          let error := default JUndefined (getProp response "error") in
          if truthy error then
            inr (reject (pending_promise pending)
                   (Error_ (default JUndefined (getProp error "message"))) w)
          else
            inr (resolve (pending_promise pending)
                   (default JUndefined (getProp response "result")) w)
      end
  end.

Definition handleFrame (frame : Frame) (w : Session) : JsError + Session :=
  match JSON_parse (string_of_list_byte (frame_payload frame)) with
  | None => inl SyntaxError
  | Some payload =>
      let type := frame_type frame in
      if type =? MessageType.CONTROL then handleControl payload w
      else if type =? MessageType.REQUEST then inr (handleRequest payload w)
      else if type =? MessageType.RESPONSE then handleResponse payload w
      else if type =? MessageType.EVENT then
        inr (emit (EvMessage MessageType.EVENT payload) w)
      else if type =? MessageType.INTRODUCE then
        inr (emit (EvIntroduction payload) w)
      else inr (emit (EvError (Protocol (UnknownMessageType type))) w)
  end.

Definition handleData (data : Buffer) (w : Session) : Session :=
  let w := log (FxLastSeen (clock w)) (set_lastSeen (clock w) w) in
  let w := resetHeartbeatTimeout w in
  match deserializeFrame data with
  | inl err => emit (EvError (Protocol err)) w
  | inr frame =>
      if negb (verifyFrame frame) then
        emit (EvError (Protocol InvalidFrameSignature)) w
      else
        let senderPubkeyHex := toHex (frame_senderPubkey frame) in
        if negb (String.eqb senderPubkeyHex (pubkey w)) then
          emit (EvError (Protocol (SenderMismatch (pubkey w) senderPubkeyHex)))
            w
        else
          match handleFrame frame w with
          | inl err => emit (EvError err) w
          | inr w => w
          end
  end.

(** *** Timers and deferred work *)

Definition heartbeatTick (w : Session) : Session :=
  if destroyed w || negb (online w) then w
  else
    match createHeartbeat (ourKeyPair w) (clock w) with
    | inl _ => w
    | inr heartbeat =>
        let '(status, w) := writeFrame heartbeat w in
        match status with
        | WriteParked q => set_catchers (<[q := CatchIgnore]> (catchers w)) w
        | _ => w
        end
    end.

Definition runCallback (cb : TimerCallback) (w : Session) : Session :=
  match cb with
  | HeartbeatTick => heartbeatTick w
  | LivenessExpired => destroy (emit EvTimeout w)
  | BackpressureTimeout p => reject p backpressureError w
  | RequestDeadline id p timeout =>
      let w := pendingDelete id w in
      reject p (RequestTimeoutError id timeout) w
  end.

(** The runtime fires the timer [h], if it is armed and due. *)
Definition fireTimer (h : nat) (w : Session) : Session :=
  match timers w !! h with
  | None => w
  | Some t =>
      if clock w <? fireAt t then w
      else
        let w :=
          match every t with
          | Some period =>
              set_timers
                (<[h := mkTimer (clock w + period) (callback t) (every t)]>
                   (timers w)) w
          | None => set_timers (delete h (timers w)) w
          end in
        runCallback (callback t) w
  end.

Definition runTask (t : Task) (w : Session) : Session :=
  match t with
  | CheckDrain p timeout => checkDrain p timeout w
  | SendFailed id timer p err =>
      let w := clearTimeout timer w in
      let w := pendingDelete id w in
      reject p err w
  end.

Definition runMicrotask (w : Session) : Session :=
  match microtasks w with
  | [] => w
  | t :: rest => runTask t (set_microtasks rest w)
  end.

Definition runImmediate (w : Session) : Session :=
  match immediates w with
  | [] => w
  | t :: rest => runTask t (set_immediates rest w)
  end.

(** *** The constructor *)

Definition unknownCapabilities : jsval :=
  JObj [("agent", JStr "unknown"); ("version", JStr "0.0.0");
        ("accepts", JArr [])]%string.

(** [new PeerConnection(opts)] at time [now], on a stream that will answer
    [ready] to the writes to come. *)
Definition PeerConnection_new (opts_pubkey : string) (opts_ourKeyPair : KeyPair)
    (opts_heartbeatInterval opts_heartbeatTimeout : option Z) (now : Z)
    (ready : list bool) : Session :=
  let w :=
    mkSession opts_pubkey unknownCapabilities opts_ourKeyPair
      (default 30000 opts_heartbeatInterval)
      (default 90000 opts_heartbeatTimeout)
      now now true ∅ 0 false [] false None None
      now ∅ 0%nat [] [] ∅ 0%nat ∅ ready [] in
  let w := startHeartbeat w in
  (sendCapabilities w).2.

(** *** What can happen to a session *)

Inductive Input :=
  | StreamData (data : Buffer)
  | StreamClose
  | StreamError (err : JsError)
  | StreamDrain
  | TimerFires (h : nat)
  | ImmediateRuns
  | MicrotaskRuns
  | Elapse (ms : Z)
  | CallRequest (method : string) (params : jsval) (timeout : Z)
  | CallSend (message : jsval)
  | CallSendResponse (response : jsval)
  | CallDestroy.

Definition step (w : Session) (i : Input) : Session :=
  match i with
  | StreamData data => handleData data w
  | StreamClose => handleDisconnect w
  | StreamError err => handleDisconnect (emit (EvError err) w)
  | StreamDrain => processWriteQueue w
  | TimerFires h => fireTimer h w
  | ImmediateRuns => runImmediate w
  | MicrotaskRuns => runMicrotask w
  | Elapse ms => set_clock (clock w + Z.max 0 ms) w
  | CallRequest method params timeout => (request method params timeout w).2
  | CallSend message => (send message w).2
  | CallSendResponse response => (sendResponse response w).2
  | CallDestroy => destroy w
  end.

Definition run (w : Session) (inputs : list Input) : Session :=
  foldl step w inputs.
End Peer.

(** * The vocabulary of the statements *)

(** A list has a duplicate entry: two positions hold the same value. *)
Definition hasDuplicate (l : list string) : Prop :=
  ∃ (i j : nat) (x : string), i ≠ j ∧ l !! i = Some x ∧ l !! j = Some x.

(** The inputs the specification says [deserializeFrame] refuses. *)
Definition refusedInput (b : Buffer) : Prop :=
  blen b < 116
  ∨ readUInt32BE b 0 ≠ blen b
  ∨ readUInt8 b 4 ≠ 1
  ∨ blen b - 52 - 64 < 0.

(** The frame read off a buffer that is not refused. *)
Definition frameRead (b : Buffer) : Frame :=
  mkFrame (blen b) 1 (readUInt8 b 5) (readUInt16BE b 6)
    (Number_of_BigInt (readBigUInt64BE b 8))
    (subarray b 16 48) (subarray b 48 (blen b - 64))
    (subarray b (blen b - 64) (blen b)).

(** A promise settled with [o] unless it was settled before. *)
Definition settle (p : nat) (o : Outcome) (m : gmap nat Outcome)
  : gmap nat Outcome :=
  match m !! p with
  | Some _ => m
  | None => <[p := o]> m
  end.

Definition cancel (handle : option nat) (m : gmap nat Timer) : gmap nat Timer :=
  match handle with
  | Some h => delete h m
  | None => m
  end.

(** The part of a session that teardown acts on. *)
Definition sameTeardown (a b : Session) : Prop :=
  heartbeatTimer a = heartbeatTimer b
  ∧ heartbeatTimeoutTimer a = heartbeatTimeoutTimer b
  ∧ timers a = timers b
  ∧ pendingRequests a = pendingRequests b
  ∧ promises a = promises b.

(** The body of the loop in [rejectAllPending]. *)
Definition rejectEntry (err : JsError) (w : Session) (entry : string * Pending)
  : Session :=
  reject (pending_promise entry.2) err (clearTimeout (pending_timer entry.2) w).

(** The effects with which [handleData] begins. *)
Definition refreshEffects (w : Session) : list Effect :=
  FxLastSeen (clock w)
  :: match heartbeatTimeoutTimer w with
     | Some old => [FxClearTimer old]
     | None => []
     end
  ++ [FxSetTimer (nextTimer w) (clock w + heartbeatTimeout w) LivenessExpired].

Definition livenessTimer (w : Session) : Timer :=
  mkTimer (clock w + heartbeatTimeout w) LivenessExpired None.

(** The sixteen bytes before the sender key. *)
Definition frameHeader (frame : Frame) : Buffer :=
  encodeBE 4 (112 + blen (frame_payload frame))
  ++ encodeBE 1 (frame_version frame)
  ++ encodeBE 1 (frame_type frame)
  ++ encodeBE 2 (frame_flags frame)
  ++ encodeBE 8 (frame_timestamp frame).

(** The bytes that [createFrame] signs and [verifyFrame] checks. *)
Definition signedBytes (frame : Frame) : Buffer :=
  let buffer :=
    serializeFrame
      (mkFrame (frame_length frame) (frame_version frame) (frame_type frame)
         (frame_flags frame) (frame_timestamp frame)
         (frame_senderPubkey frame) (frame_payload frame)
         (Buffer_alloc SIGNATURE_SIZE)) in
  subarray buffer 0 (blen buffer - SIGNATURE_SIZE).

(** Bit [k] of a byte, flipped. *)
Definition flipByte (k : nat) (x : byte) : byte :=
  byte_of_Z (Z.lxor (byte_to_Z x) (2 ^ Z.of_nat k)).

(** Bit [k] of byte [i] of a buffer, flipped. *)
Definition flipBit (b : Buffer) (i k : nat) : Buffer := alter (flipByte k) i b.

Definition allBytes : list byte := map (λ n, byte_of_Z (Z.of_nat n)) (seq 0 256).

Definition flipMovesBy (k : nat) (x : byte) : bool :=
  let d := byte_to_Z (flipByte k x) - byte_to_Z x in
  negb (d =? 0) && (-128 <=? d) && (d <=? 128).

Ltac session_eval :=
  cbv beta iota zeta delta
    [fst snd negb tail
     writeFrame stream_write checkDrain resolve setTimeout armTimer
     clearTimeout log
     set_capabilities set_lastSeen set_online set_pendingRequests
     set_requestCounter set_destroyed set_writeQueue set_writeDraining
     set_heartbeatTimer set_heartbeatTimeoutTimer set_clock set_timers
     set_nextTimer set_immediates set_microtasks set_promises set_nextPromise
     set_catchers set_streamReady set_trace
     pubkey capabilities ourKeyPair heartbeatInterval heartbeatTimeout
     connectedAt lastSeen online pendingRequests requestCounter destroyed
     writeQueue writeDraining heartbeatTimer heartbeatTimeoutTimer clock
     timers nextTimer immediates microtasks promises nextPromise catchers
     streamReady trace
     fireAt callback every].

Definition keepsPromises (w w' : Session) : Prop :=
  ∀ (p : nat) (o : Outcome), promises w !! p = Some o → promises w' !! p = Some o.

Section Vocabulary.
Context `{Crypto} `{Json}.



(** Data that does not get as far as [handleFrame]. *)
Definition unusable (data : Buffer) (w : Session) : Prop :=
  (∃ e, deserializeFrame data = inl e)
  ∨ (∃ frame, deserializeFrame data = inr frame
              ∧ (verifyFrame frame = false
                 ∨ toHex (frame_senderPubkey frame) ≠ pubkey w)).

(** The object that [request] sends. *)
Definition requestObject (id method : string) (params : jsval) (timeout : Z)
  : jsval :=
  JObj [("id", JStr id); ("method", JStr method); ("params", params);
        ("timeout", JNum timeout)]%string.

(** The session once [request] has armed the deadline and registered the
    entry, before the frame is built and written. *)
Definition registered (timeout : Z) (w : Session) : Session :=
  let w := set_requestCounter (requestCounter w + 1) w in
  let id := requestId (clock w) (requestCounter w) in
  let p := nextPromise w in
  let w := set_nextPromise (S p) w in
  let '(timer, w) := setTimeout (RequestDeadline id p timeout) timeout w in
  log (FxPendingSet id)
    (set_pendingRequests (<[id := mkPending p timer]> (pendingRequests w)) w).

End Vocabulary.

(** ** A small signature scheme for closed examples

    The examples that run the code end to end need some [Crypto].  This one
    is a keyed checksum with 64-byte signatures: a message of at most 61
    bytes is stored in its signature, a longer one leaves its first 62
    bytes there; the last byte is a sum over the key.  The public key is
    the second half of the secret key, as in Ed25519 key pairs. *)

#[global] Instance byte_eq_dec : EqDecision byte :=
  λ a b,
    match Byte.eqb a b as r return Byte.eqb a b = r → Decision (a = b) with
    | true => λ e, left (Byte.byte_dec_bl a b e)
    | false => λ e, right (Byte.eqb_false e)
    end eq_refl.

Definition keySum (key : Buffer) : byte :=
  byte_of_Z (foldr (λ x acc, byte_to_Z x + acc) 0 key).

Definition demoDigest (message : Buffer) : Buffer :=
  if (length message <=? 61)%nat then
    x01 :: byte_of_Z (blen message) :: message
      ++ replicate (61 - length message) x00
  else x02 :: take 62 message.

Definition demoSign (message secretKey : Buffer) : Buffer :=
  demoDigest message ++ [keySum (drop 32 secretKey)].

Definition demoVerify (message signature publicKey : Buffer) : bool :=
  bool_decide (signature = demoDigest message ++ [keySum publicKey]).

Definition demoCrypto : Crypto :=
  {| crypto_sign := demoSign; crypto_verify := demoVerify |}.

Definition demoPublicKey : Buffer := replicate 32 x07.

Definition demoKeyPair : KeyPair :=
  mkKeyPair demoPublicKey (replicate 32 x2a ++ demoPublicKey).

(** [JSON.parse] is not run by the closed examples below. *)
Definition demoJson : Json := {| JSON_parse := λ _, None |}.






(** A frame signed by [demoKeyPair], and a session on a stream that takes
    the capabilities frame and is busy at the next write. *)
Definition demoPayload : jsval := JObj [("n"%string, JNum 7)].

Definition demoFrame : Frame :=
  match @createFrame demoCrypto MessageType.EVENT demoPayload demoKeyPair 0
          1700000000000 with
  | inr frame => frame
  | inl _ => mkFrame 0 0 0 0 0 [] [] []
  end.

Definition demoSession : Session :=
  @PeerConnection_new demoCrypto (toHex demoPublicKey) demoKeyPair None None
    1700000000000 [true; false].

(** A live session whose [writeDraining] flag is up: the stream has
    refused a response, and refused it again at the drain event; it will
    refuse the next write too. *)
Definition drainingSession : Session :=
  @run demoCrypto demoJson
    (@PeerConnection_new demoCrypto (toHex demoPublicKey) demoKeyPair None
       None 1700000000000 [true; false; false; false])
    [CallSendResponse (JObj [("id"%string, JStr "1"); ("result"%string, JNull)]);
     StreamDrain].

(** A buffer that no [serializeFrame] made: 116 bytes, of which only the
    length field and the version are set. *)
Definition blankBuffer : Buffer := [x00; x00; x00; x74; x01] ++ replicate 111 x00.


(** The calls of [stream.write] recorded in a trace, in order. *)
Definition streamWrites (effects : list Effect) : list (Buffer * bool) :=
  omap (λ e, match e with
             | FxStreamWrite buffer canContinue => Some (buffer, canContinue)
             | _ => None
             end) effects.

(** The session after [stream.write] took the buffers [sent] off the
    queue, leaving [queue], with [draining] the new [writeDraining]. *)
Definition flushed (sent : list (Buffer * bool)) (queue : list Buffer)
    (draining : bool) (w : Session) : Session :=
  set_trace (trace w ++ map (λ s, FxStreamWrite s.1 s.2) sent)
    (set_streamReady (drop (length sent) (streamReady w))
       (set_writeDraining draining (set_writeQueue queue w))).

(** Closes a goal on a session that differs from a known one in fields
    that hold no handle. *)
Ltac same_handles := split; [eassumption|split; reflexivity].

Ltac session_eval_all :=
  cbv beta iota zeta delta
    [fst snd negb tail
     writeFrame stream_write checkDrain resolve setTimeout setInterval
     armTimer clearTimeout log emit pendingDelete
     set_capabilities set_lastSeen set_online set_pendingRequests
     set_requestCounter set_destroyed set_writeQueue set_writeDraining
     set_heartbeatTimer set_heartbeatTimeoutTimer set_clock set_timers
     set_nextTimer set_immediates set_microtasks set_promises set_nextPromise
     set_catchers set_streamReady set_trace
     pubkey capabilities ourKeyPair heartbeatInterval heartbeatTimeout
     connectedAt lastSeen online pendingRequests requestCounter destroyed
     writeQueue writeDraining heartbeatTimer heartbeatTimeoutTimer clock
     timers nextTimer immediates microtasks promises nextPromise catchers
     streamReady trace
     fireAt callback every pending_promise pending_timer] in *.

(** The promise a timer callback settles is one that was handed out. *)
Definition callbackFresh (np : nat) (cb : TimerCallback) : Prop :=
  match cb with
  | BackpressureTimeout p | RequestDeadline _ p _ => (p < np)%nat
  | HeartbeatTick | LivenessExpired => True
  end.

Definition taskFresh (np : nat) (t : Task) : Prop :=
  match t with
  | CheckDrain p _ | SendFailed _ _ p _ => (p < np)%nat
  end.

Definition catcherFresh (np : nat) (c : Catcher) : Prop :=
  match c with
  | CatchRequest _ _ p => (p < np)%nat
  | CatchIgnore => True
  end.

(** Every timer handle and every promise the session knows of lies below
    the next one to be handed out. *)
Definition fresh (w : Session) : Prop :=
  (∀ h t, timers w !! h = Some t →
     (h < nextTimer w)%nat ∧ callbackFresh (nextPromise w) (callback t))
  ∧ (∀ p o, promises w !! p = Some o → (p < nextPromise w)%nat)
  ∧ (∀ id pending, pendingRequests w !! id = Some pending →
       (pending_promise pending < nextPromise w)%nat
       ∧ (pending_timer pending < nextTimer w)%nat)
  ∧ Forall (taskFresh (nextPromise w)) (immediates w)
  ∧ Forall (taskFresh (nextPromise w)) (microtasks w)
  ∧ (∀ q c, catchers w !! q = Some c → catcherFresh (nextPromise w) c)
  ∧ (∀ h, heartbeatTimer w = Some h ∨ heartbeatTimeoutTimer w = Some h →
       (h < nextTimer w)%nat).

(** [w'] is fresh and has handed out at least the handles of [w]. *)
Definition grows (w w' : Session) : Prop :=
  fresh w'
  ∧ (nextPromise w ≤ nextPromise w')%nat
  ∧ (nextTimer w ≤ nextTimer w')%nat.

Ltac session_lazy :=
  lazy beta iota zeta delta
    [fst snd negb tail
     writeFrame stream_write checkDrain resolve setTimeout setInterval
     armTimer clearTimeout log emit pendingDelete
     set_capabilities set_lastSeen set_online set_pendingRequests
     set_requestCounter set_destroyed set_writeQueue set_writeDraining
     set_heartbeatTimer set_heartbeatTimeoutTimer set_clock set_timers
     set_nextTimer set_immediates set_microtasks set_promises set_nextPromise
     set_catchers set_streamReady set_trace
     pubkey capabilities ourKeyPair heartbeatInterval heartbeatTimeout
     connectedAt lastSeen online pendingRequests requestCounter destroyed
     writeQueue writeDraining heartbeatTimer heartbeatTimeoutTimer clock
     timers nextTimer immediates microtasks promises nextPromise catchers
     streamReady trace
     fireAt callback every pending_promise pending_timer].

(** The part of a session that inbound data does not act on. *)
Definition sameOutbound (a b : Session) : Prop :=
  pubkey a = pubkey b
  ∧ ourKeyPair a = ourKeyPair b
  ∧ heartbeatInterval a = heartbeatInterval b
  ∧ heartbeatTimeout a = heartbeatTimeout b
  ∧ connectedAt a = connectedAt b
  ∧ online a = online b
  ∧ destroyed a = destroyed b
  ∧ requestCounter a = requestCounter b
  ∧ writeQueue a = writeQueue b
  ∧ writeDraining a = writeDraining b
  ∧ heartbeatTimer a = heartbeatTimer b
  ∧ clock a = clock b
  ∧ streamReady a = streamReady b
  ∧ immediates a = immediates b
  ∧ streamWrites (trace a) = streamWrites (trace b).

(** What a timer is after inbound data, if no pending request owns it. *)
Definition sameTimer (h : nat) (a b : Session) : Prop :=
  (∀ id pending, pendingRequests b !! id = Some pending →
     pending_timer pending ≠ h) →
  timers a !! h = timers b !! h.

(** The session after [handleData] has noted the time and rearmed the
    liveness timer, before it looks at the data. *)
Definition refreshed (w : Session) : Session :=
  resetHeartbeatTimeout (log (FxLastSeen (clock w)) (set_lastSeen (clock w) w)).

(** The capabilities message of [sendCapabilities]. *)
Definition capabilitiesMessage : jsval :=
  JObj [("type", JStr "capabilities"); ("data", ourCapabilities)]%string.

(** A response that carries a result. *)
Definition resultResponse (id : string) (result : jsval) : jsval :=
  JObj [("id", JStr id); ("result", result)]%string.

(** A [JSON.parse] for the closed examples: it reads the two texts that
    they exchange. *)
Definition demoResponse : jsval :=
  resultResponse (requestId 1700000000000 1) (JNum 42).

Definition exchangeJson : Json :=
  {| JSON_parse := λ s,
       if String.eqb s (default EmptyString (JSON_stringify capabilitiesMessage))
       then Some capabilitiesMessage
       else if String.eqb s (default EmptyString (JSON_stringify demoResponse))
       then Some demoResponse
       else None |}.

Definition demoCapabilitiesFrame : Frame :=
  match @createCapabilities demoCrypto ourCapabilities demoKeyPair
          1700000000000 with
  | inr frame => frame
  | inl _ => mkFrame 0 0 0 0 0 [] [] []
  end.

Definition demoResponseFrame : Frame :=
  match @createResponse demoCrypto demoResponse demoKeyPair 1700000000500 with
  | inr frame => frame
  | inl _ => mkFrame 0 0 0 0 0 [] [] []
  end.

(** A session with three buffers queued, on a stream that will take the
    first and refuse the second. *)
Definition queuedSession : Session :=
  set_streamReady [true; false; true]
    (set_writeQueue [[x01]; [x02]; [x03]] demoSession).

(** * Properties *)

(** ** Bytes and big-endian integers *)

Lemma byte_to_Z_range (b : byte) : 0 ≤ byte_to_Z b < 256.
Proof.
  unfold byte_to_Z. pose proof (Byte.to_N_bounded b). lia.
Qed.

Lemma byte_of_to_Z (b : byte) : byte_of_Z (byte_to_Z b) = b.
Proof.
  unfold byte_of_Z. pose proof (byte_to_Z_range b) as Hr.
  rewrite Z.mod_small by lia. unfold byte_to_Z.
  rewrite N2Z.id, Byte.of_to_N. reflexivity.
Qed.

Lemma byte_to_of_Z (z : Z) : byte_to_Z (byte_of_Z z) = z mod 256.
Proof.
  unfold byte_of_Z, byte_to_Z.
  pose proof (Z.mod_pos_bound z 256 ltac:(lia)) as Hr.
  destruct (Byte.of_N (Z.to_N (z mod 256))) as [b|] eqn:E.
  - apply Byte.to_of_N in E. simpl. rewrite E. lia.
  - apply Byte.of_N_None_iff in E. lia.
Qed.

Lemma byte_to_Z_inj (a b : byte) : byte_to_Z a = byte_to_Z b → a = b.
Proof.
  intros E. rewrite <- (byte_of_to_Z a), <- (byte_of_to_Z b). by rewrite E.
Qed.

Lemma decodeBE_snoc (bs : Buffer) (b : byte) :
  decodeBE (bs ++ [b]) = decodeBE bs * 256 + byte_to_Z b.
Proof. unfold decodeBE. by rewrite fold_left_app. Qed.

Lemma decodeBE_range (bs : Buffer) : 0 ≤ decodeBE bs < 256 ^ Z.of_nat (length bs).
Proof.
  induction bs as [|b bs IH] using rev_ind; [by cbv|].
  rewrite decodeBE_snoc, length_app. simpl length.
  replace (Z.of_nat (length bs + 1)) with (Z.of_nat (length bs) + 1) by lia.
  rewrite Z.pow_add_r by lia. change (256 ^ 1) with 256.
  pose proof (byte_to_Z_range b). lia.
Qed.

Lemma decodeBE_cons (b : byte) (bs : Buffer) :
  decodeBE (b :: bs) = byte_to_Z b * 256 ^ Z.of_nat (length bs) + decodeBE bs.
Proof.
  induction bs as [|c bs IH] using rev_ind.
  - unfold decodeBE. simpl. lia.
  - change (b :: bs ++ [c]) with ((b :: bs) ++ [c]).
    rewrite !decodeBE_snoc, IH, length_app. simpl length.
    replace (Z.of_nat (length bs + 1)) with (Z.of_nat (length bs) + 1) by lia.
    rewrite Z.pow_add_r by lia. change (256 ^ 1) with 256. lia.
Qed.

Lemma decodeBE_inj (xs ys : Buffer) :
  length xs = length ys → decodeBE xs = decodeBE ys → xs = ys.
Proof.
  revert ys. induction xs as [|x xs IH]; intros [|y ys] Hl E; try done.
  simpl in Hl. injection Hl as Hl.
  rewrite !decodeBE_cons, <- Hl in E.
  pose proof (decodeBE_range xs) as Hx. pose proof (decodeBE_range ys) as Hy.
  rewrite <- Hl in Hy.
  pose proof (byte_to_Z_range x). pose proof (byte_to_Z_range y).
  assert (byte_to_Z x = byte_to_Z y) as Hb by nia.
  rewrite Hb in E. f_equal; [by apply byte_to_Z_inj|]. apply IH; [done|lia].
Qed.

Lemma length_encodeBE (n : nat) (v : Z) : length (encodeBE n v) = n.
Proof. induction n; simpl; congruence. Qed.

Lemma decodeBE_encodeBE (n : nat) (v : Z) :
  decodeBE (encodeBE n v) = v mod 256 ^ Z.of_nat n.
Proof.
  induction n as [|n IH].
  - simpl. by rewrite Z.mod_1_r.
  - cbn [encodeBE]. rewrite decodeBE_cons, length_encodeBE, IH, byte_to_of_Z.
    replace (Z.of_nat (S n)) with (Z.of_nat n + 1) by lia.
    rewrite Z.pow_add_r by lia. change (256 ^ 1) with 256.
    assert (0 < 256 ^ Z.of_nat n) by (apply Z.pow_pos_nonneg; lia).
    rewrite Z.rem_mul_r by lia. ring.
Qed.

Lemma encodeBE_decodeBE (bs : Buffer) : encodeBE (length bs) (decodeBE bs) = bs.
Proof.
  apply decodeBE_inj; [apply length_encodeBE|].
  rewrite decodeBE_encodeBE. apply Z.mod_small, decodeBE_range.
Qed.

(** ** Cycle detection *)

Lemma hasDuplicate_NoDup (l : list string) : hasDuplicate l ↔ ¬ NoDup l.
Proof.
  rewrite NoDup_alt. split.
  - intros (i & j & x & Hne & Hi & Hj) Hnd. apply Hne. eauto.
  - intros Hn. destruct (decide (NoDup l)) as [Hd|Hd].
    + exfalso. apply Hn. by apply NoDup_alt.
    + clear Hn. induction l as [|a l IH]; [by destruct Hd; constructor|].
      destruct (decide (a ∈ l)) as [Hin|Hnin].
      * apply list_elem_of_lookup in Hin as [j Hj].
        exists 0%nat, (S j), a. done.
      * destruct IH as (i & j & x & Hne & Hi & Hj).
        { intros Hl. apply Hd. by constructor. }
        exists (S i), (S j), x. split; [lia|done].
Qed.

Lemma seenLoop_spec (path : list string) (seen : gset string) :
  seenLoop seen path = true ↔ (∃ x, x ∈ path ∧ x ∈ seen) ∨ ¬ NoDup path.
Proof.
  revert seen. induction path as [|a path IH]; intros seen; simpl.
  - split; [done|]. intros [(x & Hx & _)|Hn].
    + by apply elem_of_nil in Hx.
    + destruct Hn. constructor.
  - destruct (decide (a ∈ seen)) as [Ha|Ha].
    + split; [|done]. intros _. left. exists a. split; [left|done].
    + rewrite IH, NoDup_cons. split.
      * intros [(x & Hx & Hs)|Hn].
        -- apply elem_of_union in Hs as [Hs|Hs].
           ++ apply elem_of_singleton in Hs as ->. right. tauto.
           ++ left. exists x. split; [by right|done].
        -- right. tauto.
      * intros [(x & Hx & Hs)|Hn].
        -- apply elem_of_cons in Hx as [->|Hx]; [done|].
           left. exists x. split; [done|]. apply elem_of_union. by right.
        -- destruct (decide (a ∈ path)) as [Hin|Hnin].
           ++ left. exists a. split; [done|]. apply elem_of_union. left.
              by apply elem_of_singleton.
           ++ right. tauto.
Qed.

(** C9. [detectCircularTrust(trustPath, ownPubkey)] is [true] exactly when
    the path contains [ownPubkey] or holds some entry twice; the three
    calls of the specification evaluate as it says. *)
Theorem detectCircularTrust_spec :
  (∀ (trustPath : list string) (ownPubkey : string),
     detectCircularTrust trustPath ownPubkey = true
     ↔ ownPubkey ∈ trustPath ∨ hasDuplicate trustPath)
  ∧ detectCircularTrust ["b"; "c"; "a"]%string "a"%string = true
  ∧ detectCircularTrust ["b"; "c"; "b"]%string "z"%string = true
  ∧ detectCircularTrust ["a"; "b"; "c"]%string "z"%string = false.
Proof.
  split; [|by vm_compute].
  intros trustPath ownPubkey. unfold detectCircularTrust.
  rewrite hasDuplicate_NoDup.
  destruct (decide (ownPubkey ∈ trustPath)) as [Hin|Hnin].
  - split; [by left|done].
  - rewrite seenLoop_spec. split.
    + intros [(x & _ & Hx)|Hn]; [by apply not_elem_of_empty in Hx|by right].
    + intros [Hin|Hn]; [done|by right].
Qed.

(** ** Parsing a frame *)

Lemma deserializeFrame_cases (b : Buffer) :
  deserializeFrame b =
    if blen b <? 116 then inl (BufferTooSmall (blen b) 116)
    else if negb (blen b =? readUInt32BE b 0) then
      inl (LengthMismatch (readUInt32BE b 0) (blen b))
    else if negb (readUInt8 b 4 =? 1) then
      inl (UnsupportedVersion (readUInt8 b 4))
    else inr (frameRead b).
Proof.
  unfold deserializeFrame, HEADER_SIZE, SIGNATURE_SIZE, PROTOCOL_VERSION,
    PUBLIC_KEY_SIZE, frameRead.
  change (52 + 64) with 116.
  destruct (blen b <? 116) eqn:Hsmall; [done|].
  apply Z.ltb_ge in Hsmall.
  change (0 + 4) with 4.
  destruct (blen b =? readUInt32BE b 0) eqn:Hlen; simpl; [|done].
  apply Z.eqb_eq in Hlen.
  destruct (readUInt8 b 4 =? 1) eqn:Hver; simpl; [|done].
  apply Z.eqb_eq in Hver.
  change (4 + 1) with 5. change (5 + 1) with 6. change (6 + 2) with 8.
  change (8 + 8) with 16. change (16 + 32) with 48.
  rewrite <- Hlen.
  destruct (blen b - 48 - 64 <? 0) eqn:Hneg; [apply Z.ltb_lt in Hneg; lia|].
  rewrite Hver. repeat f_equal; lia.
Qed.

(** C4. [deserializeFrame(b)] throws a [ProtocolError] when [b] is shorter
    than 116 bytes, when its first four bytes, big-endian, are not its
    length, when byte 4 is not 1, or when [length - 52 - 64] is negative;
    every other buffer is returned as a frame. *)
Theorem deserializeFrame_refuses (b : Buffer) :
  ((∃ e : ProtocolError, deserializeFrame b = inl e) ↔ refusedInput b)
  ∧ (deserializeFrame b = inr (frameRead b) ↔ ¬ refusedInput b).
Proof.
  rewrite deserializeFrame_cases. unfold refusedInput.
  destruct (blen b <? 116) eqn:Hsmall;
    [apply Z.ltb_lt in Hsmall|apply Z.ltb_ge in Hsmall].
  { split; split; try done; eauto. intros Hn. destruct Hn. by left. }
  destruct (blen b =? readUInt32BE b 0) eqn:Hlen; simpl;
    [apply Z.eqb_eq in Hlen|apply Z.eqb_neq in Hlen].
  2:{ split; split; try done; eauto. intros Hn. destruct Hn. right. left. done. }
  destruct (readUInt8 b 4 =? 1) eqn:Hver; simpl;
    [apply Z.eqb_eq in Hver|apply Z.eqb_neq in Hver].
  2:{ split; split; try done; eauto. intros Hn. destruct Hn. right. right. by left. }
  split; split; try done.
  - intros [e He]. done.
  - intros [?|[?|[?|?]]]; lia.
  - intros _ [?|[?|[?|?]]]; lia.
Qed.

(** ** Validating an introduction *)

(** Integers up to [2 ^ 53] in magnitude are doubles. *)
Lemma toDouble_safe (n : Z) : Z.abs n ≤ 2 ^ 53 → toDouble n = n.
Proof.
  intros Hn. unfold toDouble.
  assert (Number_of_BigInt (Z.abs n) = Z.abs n) as ->.
  { unfold Number_of_BigInt. destruct (_ <? 2 ^ 53) eqn:Hlt; [done|].
    apply Z.ltb_ge in Hlt. assert (Z.abs n = 2 ^ 53) as -> by lia.
    by vm_compute. }
  rewrite Z.min_l; [lia|].
  assert (2 ^ 53 < 2 ^ 1024) by (by apply Z.pow_lt_mono_r). lia.
Qed.

Section Validation.
Context `{Crypto} `{Runtime}.


(** With a timestamp that is a number, and the numbers within the range
    in which doubles are exact, the age is the plain difference. *)
Lemma validateIntroduction_safe_integers (intro : Introduction)
    (introducerPubkey : Buffer) (maxAge now timestamp : Z) :
  intro_timestamp intro = JNum timestamp →
  Z.abs now ≤ 2 ^ 53 → Z.abs timestamp ≤ 2 ^ 53 →
  Z.abs (now - timestamp) ≤ 2 ^ 53 → Z.abs maxAge ≤ 2 ^ 53 →
  validateIntroduction intro introducerPubkey maxAge now = Valid
  ↔ 0 ≤ now - timestamp ≤ maxAge
    ∧ crypto_verify (introPayloadBuffer intro) (intro_signature intro)
        introducerPubkey = true
    ∧ intro_introducerPubkey intro = toHex introducerPubkey.
Proof.
  intros Hstamp Hnow Ht Hage Hmax.
  assert (2 ^ 53 < 2 ^ 1024) as Hbig by (by apply Z.pow_lt_mono_r).
  unfold validateIntroduction. rewrite Hstamp. cbn [ToNumber minus].
  rewrite (toDouble_safe now), (toDouble_safe timestamp) by done.
  destruct (Z.abs now =? 2 ^ 1024) eqn:E1; [apply Z.eqb_eq in E1; lia|].
  destruct (Z.abs timestamp =? 2 ^ 1024) eqn:E2; [apply Z.eqb_eq in E2; lia|].
  cbn [greater less].
  rewrite !(toDouble_safe (now - timestamp)), (toDouble_safe maxAge),
    (toDouble_safe 0) by (done || (vm_compute; congruence)).
  destruct (maxAge <? now - timestamp) eqn:Hold;
    [apply Z.ltb_lt in Hold|apply Z.ltb_ge in Hold].
  { split; [done|lia]. }
  destruct (now - timestamp <? 0) eqn:Hneg;
    [apply Z.ltb_lt in Hneg|apply Z.ltb_ge in Hneg].
  { split; [done|lia]. }
  destruct (crypto_verify _ _ _); simpl; [|split; [done|by intros (_ & ? & _)]].
  destruct (String.eqb _ _) eqn:Heq; simpl;
    [apply String.eqb_eq in Heq|apply String.eqb_neq in Heq].
  - split; [intros _; repeat split; done || lia|done].
  - split; [done|by intros (_ & _ & ?)].
Qed.

(** The reason given with each refusal. *)
Lemma validateIntroduction_errors (intro : Introduction)
    (introducerPubkey : Buffer) (maxAge now : Z) :
  let age := minus (Finite now) (ToNumber (intro_timestamp intro)) in
  validateIntroduction intro introducerPubkey maxAge now =
    if greater age (Finite maxAge) then Invalid (Expired age)
    else if less age (Finite 0) then Invalid FromTheFuture
    else if negb (crypto_verify (introPayloadBuffer intro)
                    (intro_signature intro) introducerPubkey)
    then Invalid InvalidSignature
    else if negb (String.eqb (intro_introducerPubkey intro)
                    (toHex introducerPubkey))
    then Invalid IntroducerMismatch
    else Valid.
Proof. reflexivity. Qed.

(** A record without a timestamp passes both age tests: whatever [maxAge]
    and the clock are, it is valid as soon as its signature verifies and
    its introducer is the deliverer. *)
Lemma validateIntroduction_no_timestamp (intro : Introduction)
    (introducerPubkey : Buffer) (maxAge now : Z) :
  intro_timestamp intro = JUndefined →
  crypto_verify (introPayloadBuffer intro) (intro_signature intro)
    introducerPubkey = true →
  intro_introducerPubkey intro = toHex introducerPubkey →
  validateIntroduction intro introducerPubkey maxAge now = Valid.
Proof.
  intros Hstamp Hsig Hhex. unfold validateIntroduction.
  rewrite Hstamp, Hsig, Hhex, String.eqb_refl. reflexivity.
Qed.
End Validation.


(** ** Frames with a short payload *)

Lemma length_Buffer_copy (src target : Buffer) (offset : Z) :
  length (Buffer_copy src target offset) = length target.
Proof.
  unfold Buffer_copy. rewrite !length_app, !length_take, length_drop. lia.
Qed.

Lemma length_serializeFrame (frame : Frame) :
  length (serializeFrame frame) = (112 + length (frame_payload frame))%nat.
Proof.
  unfold serializeFrame, writeUInt32BE, writeUInt8, writeUInt16BE,
    writeBigUInt64BE.
  rewrite !length_Buffer_copy. unfold Buffer_alloc, blen, PUBLIC_KEY_SIZE,
    SIGNATURE_SIZE. rewrite length_replicate. lia.
Qed.

Section ShortPayload.
Context `{Crypto}.

Lemma createFrame_payload (type : Z) (payload : jsval) (keyPair : KeyPair)
    (flags now : Z) (text : string) :
  JSON_stringify payload = Some text →
  ∃ frame, createFrame type payload keyPair flags now = inr frame
           ∧ frame_payload frame = Buffer_from text.
Proof. intros Htext. unfold createFrame. rewrite Htext. eauto. Qed.

(** A frame whose payload text is shorter than four bytes serializes to
    fewer than 116 bytes, which [deserializeFrame] refuses. *)
Lemma short_payload_not_parsed (type : Z) (payload : jsval)
    (keyPair : KeyPair) (flags now : Z) (text : string) (frame : Frame) :
  JSON_stringify payload = Some text →
  (length (Buffer_from text) < 4)%nat →
  createFrame type payload keyPair flags now = inr frame →
  deserializeFrame (serializeFrame frame)
  = inl (BufferTooSmall (112 + blen (Buffer_from text)) 116).
Proof.
  intros Htext Hshort Hframe.
  destruct (createFrame_payload type payload keyPair flags now text Htext)
    as (frame' & Hframe' & Hpayload).
  rewrite Hframe in Hframe'. injection Hframe' as <-.
  rewrite deserializeFrame_cases.
  assert (blen (serializeFrame frame) = 112 + blen (Buffer_from text)) as ->.
  { unfold blen. rewrite length_serializeFrame, Hpayload. lia. }
  unfold blen. destruct (_ <? 116) eqn:E; [done|].
  apply Z.ltb_ge in E. lia.
Qed.

(** C3, at the input where it fails.  The frame that [createFrame] builds
    for the payload [{}] is 114 bytes long when serialized, and
    [deserializeFrame] throws on it instead of returning the frame. *)
Theorem createFrame_empty_object_not_parsed (type flags now : Z)
    (keyPair : KeyPair) :
  ∃ frame : Frame,
    createFrame type (JObj []) keyPair flags now = inr frame
    ∧ blen (serializeFrame frame) = 114
    ∧ deserializeFrame (serializeFrame frame) = inl (BufferTooSmall 114 116).
Proof.
  destruct (createFrame_payload type (JObj []) keyPair flags now "{}"%string
              eq_refl) as (frame & Hframe & Hpayload).
  exists frame. split; [done|]. split.
  - unfold blen. rewrite length_serializeFrame, Hpayload. done.
  - apply (short_payload_not_parsed type (JObj []) keyPair flags now
             "{}"%string frame); [done|simpl; lia|done].
Qed.
End ShortPayload.

(** ** The peer session: responses *)

Lemma promises_resolve (p : nat) (v : jsval) (w : Session) :
  promises (resolve p v w) = settle p (Resolved v) (promises w).
Proof. unfold resolve, settle. by destruct (promises w !! p). Qed.

Lemma promises_reject (p : nat) (err : JsError) (w : Session) :
  promises (reject p err w) = settle p (Rejected err) (promises w).
Proof.
  unfold reject, settle. destruct (promises w !! p); [done|].
  cbn. by destruct (catchers w !! p) as [[]|].
Qed.

Lemma settle_fresh (p : nat) (o : Outcome) (m : gmap nat Outcome) :
  m !! p = None → settle p o m !! p = Some o.
Proof. intros Hp. unfold settle. rewrite Hp. apply lookup_insert_eq. Qed.

Lemma settle_keeps (p q : nat) (o o' : Outcome) (m : gmap nat Outcome) :
  m !! q = Some o' → settle p o m !! q = Some o'.
Proof.
  intros Hq. unfold settle. destruct (m !! p) eqn:Hp; [done|].
  rewrite lookup_insert_ne; [done|]. intros ->. congruence.
Qed.

Section Responses.
Context `{Crypto} `{Json}.


(** An inbound RESPONSE frame is handed to [handleResponse]. *)
Lemma handleFrame_response (frame : Frame) (response : jsval) (w : Session) :
  frame_type frame = MessageType.RESPONSE →
  JSON_parse (string_of_list_byte (frame_payload frame)) = Some response →
  handleFrame frame w = handleResponse response w.
Proof. intros Ht Hp. unfold handleFrame. by rewrite Hp, Ht. Qed.
End Responses.

(** ** The peer session: teardown *)

Lemma reject_fields (p : nat) (err : JsError) (w : Session) :
  timers (reject p err w) = timers w
  ∧ pendingRequests (reject p err w) = pendingRequests w
  ∧ heartbeatTimer (reject p err w) = heartbeatTimer w
  ∧ heartbeatTimeoutTimer (reject p err w) = heartbeatTimeoutTimer w
  ∧ destroyed (reject p err w) = destroyed w
  ∧ pubkey (reject p err w) = pubkey w
  ∧ online (reject p err w) = online w.
Proof.
  unfold reject. destruct (promises w !! p); [done|]. cbn.
  by destruct (catchers w !! p) as [[]|].
Qed.

Lemma stopHeartbeat_fields (w : Session) :
  heartbeatTimer (stopHeartbeat w) = None
  ∧ heartbeatTimeoutTimer (stopHeartbeat w) = None
  ∧ timers (stopHeartbeat w)
    = cancel (heartbeatTimeoutTimer w) (cancel (heartbeatTimer w) (timers w))
  ∧ pendingRequests (stopHeartbeat w) = pendingRequests w
  ∧ promises (stopHeartbeat w) = promises w
  ∧ pubkey (stopHeartbeat w) = pubkey w
  ∧ destroyed (stopHeartbeat w) = destroyed w
  ∧ online (stopHeartbeat w) = online w.
Proof.
  unfold stopHeartbeat.
  destruct (heartbeatTimer w) as [h|] eqn:Hh; cbn;
    destruct (heartbeatTimeoutTimer w) as [h'|] eqn:Hh'; cbn;
    rewrite ?Hh, ?Hh'; done.
Qed.

Lemma rejectEntries_timers (err : JsError) (l : list (string * Pending))
    (w : Session) :
  timers (foldl (rejectEntry err) w l)
  = foldl (λ m e, delete (pending_timer e.2) m) (timers w) l.
Proof.
  revert w. induction l as [|e l IH]; intros w; [done|].
  cbn [foldl]. rewrite IH. f_equal. unfold rejectEntry.
  destruct (reject_fields (pending_promise e.2) err
              (clearTimeout (pending_timer e.2) w)) as (-> & _). done.
Qed.

Lemma rejectEntries_promises (err : JsError) (l : list (string * Pending))
    (w : Session) :
  promises (foldl (rejectEntry err) w l)
  = foldl (λ m e, settle (pending_promise e.2) (Rejected err) m) (promises w) l.
Proof.
  revert w. induction l as [|e l IH]; intros w; [done|].
  cbn [foldl]. rewrite IH. f_equal. unfold rejectEntry.
  by rewrite promises_reject.
Qed.

Lemma rejectEntries_fields (err : JsError) (l : list (string * Pending))
    (w : Session) :
  pendingRequests (foldl (rejectEntry err) w l) = pendingRequests w
  ∧ heartbeatTimer (foldl (rejectEntry err) w l) = heartbeatTimer w
  ∧ heartbeatTimeoutTimer (foldl (rejectEntry err) w l)
    = heartbeatTimeoutTimer w
  ∧ destroyed (foldl (rejectEntry err) w l) = destroyed w
  ∧ pubkey (foldl (rejectEntry err) w l) = pubkey w
  ∧ online (foldl (rejectEntry err) w l) = online w.
Proof.
  revert w. induction l as [|e l IH]; intros w; [done|].
  cbn [foldl].
  destruct (IH (rejectEntry err w e)) as (-> & -> & -> & -> & -> & ->).
  unfold rejectEntry.
  destruct (reject_fields (pending_promise e.2) err
              (clearTimeout (pending_timer e.2) w))
    as (_ & -> & -> & -> & -> & -> & ->). done.
Qed.

Lemma cancel_absent (handle : option nat) (m : gmap nat Timer) (h : nat) :
  m !! h = None ∨ handle = Some h → cancel handle m !! h = None.
Proof.
  intros [Hm| ->]; [|apply lookup_delete_eq].
  destruct handle; [|done]. cbn. rewrite lookup_delete_None. by right.
Qed.

Lemma deleted_all_absent (l : list (string * Pending)) (m : gmap nat Timer)
    (h : nat) :
  m !! h = None ∨ (∃ e, e ∈ l ∧ pending_timer e.2 = h) →
  foldl (λ m e, delete (pending_timer e.2) m) m l !! h = None.
Proof.
  revert m. induction l as [|a l IH]; intros m [Hm|(e & He & Ht)]; cbn [foldl].
  - done.
  - by apply elem_of_nil in He.
  - apply IH. left. rewrite lookup_delete_None. by right.
  - apply IH. apply elem_of_cons in He as [->|He].
    + left. rewrite Ht. apply lookup_delete_eq.
    + right. eauto.
Qed.

Lemma settled_all_keeps (err : JsError) (l : list (string * Pending))
    (m : gmap nat Outcome) (q : nat) (o : Outcome) :
  m !! q = Some o →
  foldl (λ m e, settle (pending_promise e.2) (Rejected err) m) m l !! q
  = Some o.
Proof.
  revert m. induction l as [|a l IH]; intros m Hq; [done|].
  cbn [foldl]. apply IH. by apply settle_keeps.
Qed.

Lemma settled_all_rejects (err : JsError) (l : list (string * Pending))
    (m : gmap nat Outcome) (e : string * Pending) :
  e ∈ l → m !! pending_promise e.2 = None →
  foldl (λ m e, settle (pending_promise e.2) (Rejected err) m) m l
    !! pending_promise e.2 = Some (Rejected err).
Proof.
  revert m. induction l as [|a l IH]; intros m He Hm.
  - by apply elem_of_nil in He.
  - cbn [foldl].
    destruct (decide (pending_promise a.2 = pending_promise e.2)) as [Heq|Hne].
    + apply settled_all_keeps. rewrite Heq. by apply settle_fresh.
    + apply elem_of_cons in He as [->|He]; [done|].
      apply IH; [done|]. unfold settle.
      destruct (m !! pending_promise a.2); [done|].
      by rewrite lookup_insert_ne.
Qed.

Lemma trace_reject (p : nat) (err : JsError) (w : Session) :
  ∃ more, trace (reject p err w) = trace w ++ more.
Proof.
  unfold reject. destruct (promises w !! p).
  - exists []. by rewrite app_nil_r.
  - cbn. destruct (catchers w !! p) as [[]|]; cbn; eauto.
Qed.

Lemma trace_rejectEntries (err : JsError) (l : list (string * Pending))
    (w : Session) :
  ∃ more, trace (foldl (rejectEntry err) w l) = trace w ++ more.
Proof.
  revert w. induction l as [|e l IH]; intros w.
  - exists []. by rewrite app_nil_r.
  - cbn [foldl]. destruct (IH (rejectEntry err w e)) as [more ->].
    unfold rejectEntry.
    destruct (trace_reject (pending_promise e.2) err
                (clearTimeout (pending_timer e.2) w)) as [more' ->].
    cbn. rewrite <- !app_assoc. eauto.
Qed.

Lemma destroy_unfold (w : Session) :
  destroyed w = false →
  destroy w =
    log FxPendingClear
      (set_pendingRequests ∅
         (foldl (rejectEntry (PeerOfflineError (pubkey w)))
            (log FxStreamDestroy (stopHeartbeat (set_destroyed true w)))
            (map_to_list (pendingRequests w)))).
Proof.
  intros Hd. unfold destroy, rejectAllPending. rewrite Hd. cbn zeta.
  destruct (stopHeartbeat_fields (set_destroyed true w))
    as (_ & _ & _ & Hp & _ & Hk & _ & _).
  cbn [log pendingRequests pubkey set_trace]. rewrite Hp, Hk. done.
Qed.

Lemma handleDisconnect_unfold (w : Session) :
  destroyed w = false →
  handleDisconnect w =
    emit EvDisconnect
      (log FxPendingClear
         (set_pendingRequests ∅
            (foldl (rejectEntry (PeerOfflineError (pubkey w)))
               (stopHeartbeat (set_online false w))
               (map_to_list (pendingRequests w))))).
Proof.
  intros Hd. unfold handleDisconnect, rejectAllPending. rewrite Hd. cbn zeta.
  destruct (stopHeartbeat_fields (set_online false w))
    as (_ & _ & _ & Hp & _ & Hk & _ & _).
  rewrite Hp, Hk. done.
Qed.

Lemma destroy_again (w : Session) : destroyed w = true → destroy w = w.
Proof. intros Hd. unfold destroy. by rewrite Hd. Qed.

Lemma destroyed_destroy (w : Session) : destroyed (destroy w) = true.
Proof.
  destruct (destroyed w) eqn:Hd; [by rewrite destroy_again|].
  rewrite destroy_unfold by done. cbn.
  destruct (rejectEntries_fields (PeerOfflineError (pubkey w))
              (map_to_list (pendingRequests w))
              (log FxStreamDestroy (stopHeartbeat (set_destroyed true w))))
    as (_ & _ & _ & -> & _ & _).
  cbn. by destruct (stopHeartbeat_fields (set_destroyed true w))
    as (_ & _ & _ & _ & _ & _ & -> & _).
Qed.

(** C8. Destroying a session that is not yet destroyed cancels the
    heartbeat and the liveness timer, clears the timer of every pending
    request and rejects it with [PeerOfflineError], empties the map and
    destroys the stream.  Destroying again changes nothing.  A close of the
    stream ([handleDisconnect]) leaves the timers, the map and the promises
    exactly as [destroy] would. *)
Theorem destroy_spec :
  (∀ w : Session, destroyed w = false →
     destroyed (destroy w) = true
     ∧ heartbeatTimer (destroy w) = None
     ∧ heartbeatTimeoutTimer (destroy w) = None
     ∧ (∀ h, heartbeatTimer w = Some h ∨ heartbeatTimeoutTimer w = Some h →
          timers (destroy w) !! h = None)
     ∧ (∀ id pending, pendingRequests w !! id = Some pending →
          timers (destroy w) !! pending_timer pending = None
          ∧ (promises w !! pending_promise pending = None →
             promises (destroy w) !! pending_promise pending
             = Some (Rejected (PeerOfflineError (pubkey w)))))
     ∧ pendingRequests (destroy w) = ∅
     ∧ FxStreamDestroy ∈ trace (destroy w))
  ∧ (∀ w : Session, destroy (destroy w) = destroy w)
  ∧ (∀ w : Session, destroyed w = false →
       sameTeardown (handleDisconnect w) (destroy w)
       ∧ online (handleDisconnect w) = false).
Proof.
  split; [|split].
  - intros w Hd. split; [apply destroyed_destroy|].
    rewrite destroy_unfold by done.
    set (err := PeerOfflineError (pubkey w)).
    set (l := map_to_list (pendingRequests w)).
    set (w1 := log FxStreamDestroy (stopHeartbeat (set_destroyed true w))).
    destruct (rejectEntries_fields err l w1) as (Hp & Hh & Hh' & _ & _ & _).
    destruct (stopHeartbeat_fields (set_destroyed true w))
      as (Hs1 & Hs2 & Hs3 & _ & Hs5 & _ & _ & _).
    cbn [log set_trace set_pendingRequests heartbeatTimer
           heartbeatTimeoutTimer timers pendingRequests promises trace].
    rewrite Hh, Hh', rejectEntries_timers, rejectEntries_promises.
    subst w1. cbn [log set_trace heartbeatTimer heartbeatTimeoutTimer timers
                     promises].
    rewrite Hs1, Hs2, Hs3, Hs5. cbn.
    repeat split; try done.
    + intros h Hh0. apply deleted_all_absent. left.
      destruct Hh0 as [Hh0|Hh0].
      * apply cancel_absent. left. apply cancel_absent. by right.
      * apply cancel_absent. by right.
    + apply deleted_all_absent. right. exists (id, pending).
      split; [by apply elem_of_map_to_list|done].
    + intros Hfresh.
      apply (settled_all_rejects err l (promises w) (id, pending));
        [by apply elem_of_map_to_list|done].
    + destruct (trace_rejectEntries err l
                  (log FxStreamDestroy (stopHeartbeat (set_destroyed true w))))
        as [more ->].
      cbn. rewrite !elem_of_app. left. left. right. left.
  - intros w. apply destroy_again, destroyed_destroy.
  - intros w Hd. rewrite handleDisconnect_unfold, destroy_unfold by done.
    set (err := PeerOfflineError (pubkey w)).
    set (l := map_to_list (pendingRequests w)).
    unfold sameTeardown.
    cbn [emit log set_trace set_pendingRequests heartbeatTimer
           heartbeatTimeoutTimer timers pendingRequests promises online].
    destruct (rejectEntries_fields err l
                (log FxStreamDestroy (stopHeartbeat (set_destroyed true w))))
      as (_ & -> & -> & _ & _ & _).
    destruct (rejectEntries_fields err l (stopHeartbeat (set_online false w)))
      as (_ & -> & -> & _ & _ & ->).
    rewrite !rejectEntries_timers, !rejectEntries_promises.
    cbn [log set_trace heartbeatTimer heartbeatTimeoutTimer timers promises].
    destruct (stopHeartbeat_fields (set_destroyed true w))
      as (-> & -> & -> & _ & -> & _ & _ & _).
    destruct (stopHeartbeat_fields (set_online false w))
      as (-> & -> & -> & _ & -> & _ & _ & ->).
    done.
Qed.

(** ** The peer session: liveness *)

Lemma resetHeartbeatTimeout_fields (w : Session) :
  heartbeatTimeoutTimer (resetHeartbeatTimeout w) = Some (nextTimer w)
  ∧ timers (resetHeartbeatTimeout w)
    = <[nextTimer w := livenessTimer w]>
        (cancel (heartbeatTimeoutTimer w) (timers w))
  ∧ lastSeen (resetHeartbeatTimeout w) = lastSeen w
  ∧ pubkey (resetHeartbeatTimeout w) = pubkey w
  ∧ trace (resetHeartbeatTimeout w)
    = trace w
      ++ match heartbeatTimeoutTimer w with
         | Some old => [FxClearTimer old]
         | None => []
         end
      ++ [FxSetTimer (nextTimer w) (clock w + heartbeatTimeout w)
            LivenessExpired].
Proof.
  unfold resetHeartbeatTimeout, livenessTimer.
  destruct (heartbeatTimeoutTimer w) as [old|]; cbn;
    rewrite <- ?app_assoc; done.
Qed.

Section Liveness.
Context `{Crypto} `{Json}.

Lemma resolve_keeps (p : nat) (v : jsval) (w : Session) :
  lastSeen (resolve p v w) = lastSeen w
  ∧ heartbeatTimeoutTimer (resolve p v w) = heartbeatTimeoutTimer w
  ∧ ∃ more, trace (resolve p v w) = trace w ++ more.
Proof.
  unfold resolve. destruct (promises w !! p); cbn.
  - repeat split. exists []. by rewrite app_nil_r.
  - repeat split. eauto.
Qed.

Lemma reject_keeps (p : nat) (err : JsError) (w : Session) :
  lastSeen (reject p err w) = lastSeen w
  ∧ heartbeatTimeoutTimer (reject p err w) = heartbeatTimeoutTimer w
  ∧ ∃ more, trace (reject p err w) = trace w ++ more.
Proof.
  split; [|split; [|apply trace_reject]].
  - unfold reject. destruct (promises w !! p); [done|]. cbn.
    by destruct (catchers w !! p) as [[]|].
  - by destruct (reject_fields p err w) as (_ & _ & _ & -> & _).
Qed.

Lemma handleFrame_keeps (frame : Frame) (w w' : Session) :
  handleFrame frame w = inr w' →
  lastSeen w' = lastSeen w
  ∧ heartbeatTimeoutTimer w' = heartbeatTimeoutTimer w
  ∧ ∃ more, trace w' = trace w ++ more.
Proof.
  assert (∀ w, lastSeen w = lastSeen w
               ∧ heartbeatTimeoutTimer w = heartbeatTimeoutTimer w
               ∧ ∃ more, trace w = trace w ++ more) as Hsame.
  { intros w0. repeat split. exists []. by rewrite app_nil_r. }
  unfold handleFrame.
  destruct (JSON_parse _) as [payload|]; [|done].
  destruct (frame_type frame =? MessageType.CONTROL).
  { unfold handleControl. destruct (getProp payload "type") as [t|]; [|done].
    destruct t; try (intros [= <-]; apply Hsame).
    destruct (String.eqb s "heartbeat"); [intros [= <-]; apply Hsame|].
    destruct (String.eqb s "capabilities"); [|intros [= <-]; apply Hsame].
    destruct (getProp payload "data") as [data|]; [|done].
    destruct (truthy data); intros [= <-]; [|apply Hsame].
    cbn. eauto. }
  destruct (frame_type frame =? MessageType.REQUEST).
  { intros [= <-]. cbn. eauto. }
  destruct (frame_type frame =? MessageType.RESPONSE).
  { unfold handleResponse. destruct (getProp payload "id") as [id|]; [|done].
    destruct (pendingGet w id) as [pending|]; [|intros [= <-]; apply Hsame].
    set (w1 := pendingDeleteKey id (clearTimeout (pending_timer pending) w)).
    assert (lastSeen w1 = lastSeen w
            ∧ heartbeatTimeoutTimer w1 = heartbeatTimeoutTimer w
            ∧ ∃ more, trace w1 = trace w ++ more) as (Hl & Hh & more & Ht).
    { subst w1. destruct id; cbn; rewrite <- ?app_assoc; eauto. }
    destruct (truthy _); intros [= <-].
    - destruct (reject_keeps (pending_promise pending)
                  (Error_ (default JUndefined
                     (getProp (default JUndefined (getProp payload "error"))
                        "message"))) w1) as (-> & -> & more' & ->).
      rewrite Ht, <- app_assoc. eauto.
    - destruct (resolve_keeps (pending_promise pending)
                  (default JUndefined (getProp payload "result")) w1)
        as (-> & -> & more' & ->).
      rewrite Ht, <- app_assoc. eauto. }
  destruct (frame_type frame =? MessageType.EVENT).
  { intros [= <-]. cbn. eauto. }
  destruct (frame_type frame =? MessageType.INTRODUCE);
    intros [= <-]; cbn; eauto.
Qed.

(** C10. Whatever bytes arrive, [handleData] first sets [lastSeen] to the
    current time and re-arms the liveness timer; only then is the frame
    parsed, verified and checked against the expected sender.  Data that is
    malformed, fails verification or names another sender therefore
    refreshes liveness all the same: its only further effect is the
    emission of a protocol error. *)
Theorem handleData_refreshes_first (data : Buffer) (w : Session) :
  lastSeen (handleData data w) = clock w
  ∧ heartbeatTimeoutTimer (handleData data w) = Some (nextTimer w)
  ∧ (∃ rest, trace (handleData data w) = trace w ++ refreshEffects w ++ rest)
  ∧ (unusable data w →
     timers (handleData data w)
     = <[nextTimer w := livenessTimer w]>
         (cancel (heartbeatTimeoutTimer w) (timers w))
     ∧ ∃ err, trace (handleData data w)
              = trace w ++ refreshEffects w ++ [FxEmit (EvError (Protocol err))]).
Proof.
  unfold handleData.
  set (w0 := log (FxLastSeen (clock w)) (set_lastSeen (clock w) w)).
  destruct (resetHeartbeatTimeout_fields w0) as (Hh & Ht & Hl & Hk & Htr).
  change (nextTimer w0) with (nextTimer w) in *.
  change (heartbeatTimeoutTimer w0) with (heartbeatTimeoutTimer w) in *.
  change (timers w0) with (timers w) in *.
  change (lastSeen w0) with (clock w) in *.
  change (livenessTimer w0) with (livenessTimer w) in *.
  change (clock w0) with (clock w) in *.
  change (heartbeatTimeout w0) with (heartbeatTimeout w) in *.
  change (pubkey w0) with (pubkey w) in *.
  change (trace w0) with (trace w ++ [FxLastSeen (clock w)]) in *.
  assert (trace (resetHeartbeatTimeout w0) = trace w ++ refreshEffects w)
    as Htr'.
  { rewrite Htr. unfold refreshEffects. by rewrite <- app_assoc. }
  clear Htr.
  set (w1 := resetHeartbeatTimeout w0) in *. clearbody w1. clear w0.
  assert (∀ err,
    lastSeen (emit (EvError err) w1) = clock w
    ∧ heartbeatTimeoutTimer (emit (EvError err) w1) = Some (nextTimer w)
    ∧ (∃ rest, trace (emit (EvError err) w1)
               = trace w ++ refreshEffects w ++ rest)) as Hemit.
  { intros err. cbn. rewrite Htr', <- app_assoc. eauto. }
  assert (∀ e,
    timers (emit (EvError (Protocol e)) w1)
    = <[nextTimer w := livenessTimer w]>
        (cancel (heartbeatTimeoutTimer w) (timers w))
    ∧ ∃ err, trace (emit (EvError (Protocol e)) w1)
             = trace w ++ refreshEffects w ++ [FxEmit (EvError (Protocol err))])
    as Hbad.
  { intros e. cbn. rewrite Htr', <- app_assoc. eauto. }
  destruct (deserializeFrame data) as [e|frame] eqn:Hparse.
  { destruct (Hemit (Protocol e)) as (? & ? & ?).
    split; [|split; [|split]]; try done; intros _; apply Hbad. }
  destruct (verifyFrame frame) eqn:Hverify; cbn [negb].
  2:{ destruct (Hemit (Protocol InvalidFrameSignature)) as (? & ? & ?).
      split; [|split; [|split]]; try done; intros _; apply Hbad. }
  rewrite Hk.
  destruct (String.eqb (toHex (frame_senderPubkey frame)) (pubkey w))
    eqn:Hsender; cbn [negb].
  2:{ destruct (Hemit (Protocol (SenderMismatch (pubkey w)
                                   (toHex (frame_senderPubkey frame)))))
        as (? & ? & ?).
      split; [|split; [|split]]; try done; intros _; apply Hbad. }
  apply String.eqb_eq in Hsender.
  assert (¬ unusable data w) as Husable.
  { intros [[e He]|(f & Hf & [Hv|Hs])]; [congruence| |];
      rewrite Hparse in Hf; injection Hf as <-; congruence. }
  destruct (handleFrame frame w1) as [err|w2] eqn:Hframe.
  { destruct (Hemit err) as (? & ? & ?). split; [|split; [|split]]; done. }
  destruct (handleFrame_keeps frame w1 w2 Hframe) as (-> & -> & more & ->).
  rewrite Htr', <- app_assoc. split; [|split; [|split]]; try done. eauto.
Qed.
End Liveness.

(** ** The layout of a serialized frame *)

Lemma Buffer_copy_middle (src pre mid post : Buffer) (offset : Z) :
  Z.to_nat offset = length pre → length mid = length src →
  Buffer_copy src (pre ++ mid ++ post) offset = pre ++ src ++ post.
Proof.
  intros Ho Hm. unfold Buffer_copy. rewrite Ho, take_app_length.
  rewrite take_ge by (rewrite !length_app; lia).
  rewrite drop_app_add, <- Hm, drop_app_length. done.
Qed.

Lemma Buffer_copy_front (src mid post : Buffer) :
  length mid = length src → Buffer_copy src (mid ++ post) 0 = src ++ post.
Proof. intros Hm. by apply (Buffer_copy_middle src [] mid post 0). Qed.

Lemma subarray_middle (pre mid post : Buffer) (start end_ : Z) :
  Z.to_nat start = length pre → Z.to_nat (end_ - start) = length mid →
  subarray (pre ++ mid ++ post) start end_ = mid.
Proof.
  intros Hs He. unfold subarray. rewrite Hs, He, drop_app_length.
  apply take_app_length.
Qed.

Lemma length_frameHeader (frame : Frame) : length (frameHeader frame) = 16%nat.
Proof. unfold frameHeader. by rewrite !length_app, !length_encodeBE. Qed.

Lemma serializeFrame_layout (frame : Frame) :
  length (frame_senderPubkey frame) = 32%nat →
  length (frame_signature frame) = 64%nat →
  serializeFrame frame
  = frameHeader frame ++ frame_senderPubkey frame ++ frame_payload frame
    ++ frame_signature frame.
Proof.
  intros Hpk Hsig. unfold serializeFrame, frameHeader, writeUInt32BE,
    writeUInt8, writeUInt16BE, writeBigUInt64BE, Buffer_alloc, PUBLIC_KEY_SIZE,
    SIGNATURE_SIZE.
  set (payload := frame_payload frame).
  replace (Z.to_nat (4 + 1 + 1 + 2 + 8 + 32 + blen payload + 64))
    with (4 + (1 + (1 + (2 + (8 + (32 + (length payload + 64)))))))%nat
    by (unfold blen; lia).
  rewrite !replicate_add.
  replace (4 + 1 + 1 + 2 + 8 + 32 + blen payload + 64)
    with (112 + blen payload) by lia.
  rewrite Buffer_copy_front by (by rewrite length_encodeBE).
  rewrite (Buffer_copy_middle _ (encodeBE 4 _));
    [|by rewrite length_encodeBE|by rewrite length_encodeBE].
  rewrite app_assoc.
  rewrite (Buffer_copy_middle _ (_ ++ _));
    [|by rewrite !length_app, !length_encodeBE|by rewrite length_encodeBE].
  rewrite app_assoc.
  rewrite (Buffer_copy_middle _ (_ ++ _));
    [|by rewrite !length_app, !length_encodeBE|by rewrite length_encodeBE].
  rewrite app_assoc.
  rewrite (Buffer_copy_middle _ (_ ++ _));
    [|by rewrite !length_app, !length_encodeBE|by rewrite length_encodeBE].
  rewrite app_assoc.
  rewrite (Buffer_copy_middle _ (_ ++ _));
    [|by rewrite !length_app, !length_encodeBE
     |by rewrite length_replicate, Hpk].
  rewrite app_assoc.
  rewrite (Buffer_copy_middle _ (_ ++ _));
    [|by rewrite !length_app, !length_encodeBE, Hpk
     |by rewrite length_replicate].
  rewrite app_assoc.
  rewrite <- (app_nil_r (replicate 64 _)).
  rewrite (Buffer_copy_middle _ (_ ++ _));
    [|rewrite !length_app, !length_encodeBE, Hpk; unfold blen; lia
     |by rewrite length_replicate, Hsig].
  rewrite app_nil_r, <- !app_assoc. done.
Qed.

Lemma signedBytes_layout (frame : Frame) :
  length (frame_senderPubkey frame) = 32%nat →
  signedBytes frame
  = frameHeader frame ++ frame_senderPubkey frame ++ frame_payload frame.
Proof.
  intros Hpk. unfold signedBytes.
  rewrite serializeFrame_layout; [|done|reflexivity].
  cbn [frame_senderPubkey frame_payload frame_signature].
  change (frameHeader (mkFrame _ _ _ _ _ _ _ _)) with (frameHeader frame).
  unfold subarray, blen, SIGNATURE_SIZE, Buffer_alloc.
  rewrite !app_assoc. rewrite length_app, length_replicate.
  change (Z.to_nat 0) with 0%nat. rewrite drop_0.
  apply take_app_length'. lia.
Qed.

(** ** Flipping one bit *)

Lemma elem_of_allBytes (x : byte) : x ∈ allBytes.
Proof.
  unfold allBytes. apply list_elem_of_fmap.
  exists (Z.to_nat (byte_to_Z x)). pose proof (byte_to_Z_range x).
  split; [by rewrite Z2Nat.id, byte_of_to_Z by lia|].
  apply elem_of_seq. lia.
Qed.

Lemma flipByte_moves (k : nat) (x : byte) :
  (k < 8)%nat →
  byte_to_Z (flipByte k x) - byte_to_Z x ≠ 0
  ∧ -128 ≤ byte_to_Z (flipByte k x) - byte_to_Z x ≤ 128.
Proof.
  intros Hk.
  assert (forallb (λ k, forallb (flipMovesBy k) allBytes) (seq 0 8) = true)
    as Hall by (by vm_compute).
  rewrite forallb_forall in Hall.
  specialize (Hall k). rewrite forallb_forall in Hall.
  assert (flipMovesBy k x = true) as Hx.
  { apply Hall; [apply in_seq; lia|].
    apply list_elem_of_In, elem_of_allBytes. }
  unfold flipMovesBy in Hx. cbv zeta in Hx.
  apply andb_prop in Hx as [Hx Hhi]. apply andb_prop in Hx as [Hne Hlo].
  apply negb_true_iff, Z.eqb_neq in Hne.
  apply Z.leb_le in Hlo, Hhi. done.
Qed.

Lemma flipByte_changes (k : nat) (x : byte) : (k < 8)%nat → flipByte k x ≠ x.
Proof.
  intros Hk Heq. destruct (flipByte_moves k x Hk) as [Hne _].
  rewrite Heq in Hne. lia.
Qed.

Lemma alter_changes {A} (f : A → A) (l : list A) (i : nat) :
  (i < length l)%nat → (∀ x, f x ≠ x) → alter f i l ≠ l.
Proof.
  intros Hi Hf Heq. destruct (lookup_lt_is_Some_2 l i Hi) as [x Hx].
  assert (alter f i l !! i = Some (f x)) as Hl
    by (by rewrite list_lookup_alter_eq, Hx).
  rewrite Heq, Hx in Hl. injection Hl as Hl. by apply (Hf x).
Qed.

Lemma decodeBE_app (xs ys : Buffer) :
  decodeBE (xs ++ ys) = decodeBE xs * 256 ^ Z.of_nat (length ys) + decodeBE ys.
Proof.
  induction xs as [|x xs IH]; [cbn [app]; change (decodeBE []) with 0; lia|].
  cbn [app]. rewrite !decodeBE_cons, IH, length_app, Nat2Z.inj_add.
  rewrite Z.pow_add_r by lia. ring.
Qed.

(** Changing one byte moves the big-endian value by the change of that
    byte, scaled by its position. *)
Lemma decodeBE_alter (f : byte → byte) (l : Buffer) (i : nat) (x : byte) :
  l !! i = Some x →
  decodeBE (alter f i l)
  = decodeBE l
    + (byte_to_Z (f x) - byte_to_Z x)
      * 256 ^ Z.of_nat (length l - 1 - i).
Proof.
  intros Hx. pose proof (lookup_lt_Some _ _ _ Hx) as Hi.
  assert (length l - 1 - i = length (drop (S i) l))%nat as ->
    by (rewrite length_drop; lia).
  pose proof (take_drop_middle l i x Hx) as Hl.
  set (pre := take i l) in *. set (post := drop (S i) l) in *.
  assert (length pre = i) as Hpre by (subst pre; rewrite length_take; lia).
  clearbody pre post. subst l.
  rewrite alter_app_r_alt by lia.
  rewrite Hpre, Nat.sub_diag. cbn [alter list_alter].
  rewrite !decodeBE_app, !decodeBE_cons. cbn [length].
  replace (Z.of_nat (S (length post))) with (Z.of_nat (length post) + 1)
    by lia.
  rewrite Z.pow_add_r by lia. ring.
Qed.

(** ** Rounding a 64-bit integer to a double *)

Lemma Number_of_BigInt_small (x : Z) : x < 2 ^ 53 → Number_of_BigInt x = x.
Proof.
  intros Hx. unfold Number_of_BigInt.
  destruct (x <? 2 ^ 53) eqn:E; [done|]. apply Z.ltb_ge in E. lia.
Qed.

Lemma Number_of_BigInt_large (x : Z) :
  2 ^ 53 ≤ x < 2 ^ 63 + 2 ^ 53 →
  2 ^ 53 ≤ Number_of_BigInt x < 2 ^ 64.
Proof.
  intros [Hlo Hhi]. unfold Number_of_BigInt.
  destruct (x <? 2 ^ 53) eqn:E; [apply Z.ltb_lt in E; lia|]. clear E.
  assert (53 ≤ Z.log2 x) as Hlog by (apply Z.log2_le_pow2; lia).
  assert (Z.log2 x ≤ 63) as Hlog'.
  { assert (Z.log2 x < 64); [|lia]. apply Z.log2_lt_pow2; lia. }
  destruct (Z.log2_spec x ltac:(lia)) as [Hl Hu].
  set (e := Z.log2 x - 52) in *.
  assert (Z.log2 x = e + 52) as Hle by lia. rewrite Hle in Hl, Hu.
  replace (Z.succ (e + 52)) with (e + 53) in Hu by lia.
  rewrite Z.pow_add_r in Hl, Hu by lia.
  assert (0 < 2 ^ e) as Hpe by (apply Z.pow_pos_nonneg; lia).
  assert (2 ^ e ≤ 2 ^ 11) as Hpe' by (apply Z.pow_le_mono_r; lia).
  pose proof (Z.div_mod x (2 ^ e) ltac:(lia)) as Hdm.
  pose proof (Z.mod_pos_bound x (2 ^ e) Hpe) as Hr.
  set (q := x / 2 ^ e) in *. set (r := x mod 2 ^ e) in *.
  assert (2 ^ 52 ≤ q) as Hq by nia.
  assert (q * 2 ^ e ≤ x) as Hqx by lia.
  assert ((q + 1) * 2 ^ e ≤ x + 2 ^ 11) as Hqx' by nia.
  assert (2 ^ 53 ≤ q * 2 ^ e) as Hdown by nia.
  assert (2 ^ 53 ≤ (q + 1) * 2 ^ e) as Hup by nia.
  destruct (r <? 2 ^ (e - 1)); [lia|].
  destruct (2 ^ (e - 1) <? r); [lia|].
  destruct (Z.even q); lia.
Qed.

(** ** Parsing and verifying what was serialized *)

Lemma encodeBE_decodeBE_length (n : nat) (bs : list byte) :
  length bs = n → encodeBE n (decodeBE bs) = bs.
Proof. intros <-. apply encodeBE_decodeBE. Qed.

(** The signed bytes of the frame read off a buffer are the bytes of the
    buffer before its signature, except that the timestamp went through a
    double. *)
Lemma signedBytes_frameRead (b : list byte) :
  ¬ refusedInput b →
  signedBytes (frameRead b)
  = take 8 b
    ++ encodeBE 8 (Number_of_BigInt (decodeBE (take 8 (drop 8 b))))
    ++ take (length b - 80) (drop 16 b).
Proof.
  intros Hok. unfold refusedInput in Hok.
  assert (116 ≤ blen b ∧ readUInt32BE b 0 = blen b ∧ readUInt8 b 4 = 1)
    as (Hlen & Hfield & Hver) by lia.
  unfold blen in Hlen.
  rewrite signedBytes_layout.
  2:{ cbn [frameRead frame_senderPubkey]. unfold subarray.
      rewrite length_take, length_drop. lia. }
  unfold frameHeader. cbn [frameRead frame_senderPubkey frame_payload
    frame_version frame_type frame_flags frame_timestamp].
  assert (112 + blen (subarray b 48 (blen b - 64)) = readUInt32BE b 0) as ->.
  { rewrite Hfield. unfold subarray, blen.
    rewrite length_take, length_drop. lia. }
  rewrite <- Hver at 1.
  unfold readUInt32BE, readUInt8, readUInt16BE, readBigUInt64BE, subarray.
  change (Z.to_nat (0 + 4 - 0)) with 4%nat.
  change (Z.to_nat (4 + 1 - 4)) with 1%nat.
  change (Z.to_nat (5 + 1 - 5)) with 1%nat.
  change (Z.to_nat (6 + 2 - 6)) with 2%nat.
  change (Z.to_nat (8 + 8 - 8)) with 8%nat.
  change (Z.to_nat (48 - 16)) with 32%nat.
  change (Z.to_nat 0) with 0%nat. change (Z.to_nat 4) with 4%nat.
  change (Z.to_nat 5) with 5%nat. change (Z.to_nat 6) with 6%nat.
  change (Z.to_nat 8) with 8%nat. change (Z.to_nat 16) with 16%nat.
  change (Z.to_nat 48) with 48%nat.
  rewrite drop_0.
  rewrite !encodeBE_decodeBE_length
    by (rewrite length_take, ?length_drop; lia).
  rewrite !app_assoc.
  rewrite (take_take_drop b 4 1). change (4 + 1)%nat with 5%nat.
  rewrite (take_take_drop b 5 1). change (5 + 1)%nat with 6%nat.
  rewrite (take_take_drop b 6 2). change (6 + 2)%nat with 8%nat.
  rewrite <- !app_assoc. do 2 f_equal.
  replace (drop 48 b) with (drop 32 (drop 16 b)) by (by rewrite drop_drop).
  rewrite take_take_drop. f_equal. unfold blen. lia.
Qed.

Section Tampering.
Context `{Crypto}.

Lemma verifyFrame_signedBytes (frame : Frame) :
  verifyFrame frame
  = crypto_verify (signedBytes frame) (frame_signature frame)
      (frame_senderPubkey frame).
Proof. reflexivity. Qed.

(** What [createFrame] returns. *)
Lemma createFrame_fields (type : Z) (payload : jsval) (keyPair : KeyPair)
    (flags now : Z) (frame : Frame) :
  createFrame type payload keyPair flags now = inr frame →
  frame_version frame = 1
  ∧ frame_type frame = type
  ∧ frame_flags frame = flags
  ∧ frame_timestamp frame = now
  ∧ frame_senderPubkey frame = publicKey keyPair
  ∧ frame_length frame = 112 + blen (frame_payload frame)
  ∧ frame_signature frame
    = crypto_sign (signedBytes frame) (secretKey keyPair).
Proof.
  unfold createFrame. generalize (Buffer_from_text (JSON_stringify payload)).
  intros payloadBuffer [= <-]. cbn. unfold PUBLIC_KEY_SIZE, SIGNATURE_SIZE.
  repeat split; try done. lia.
Qed.

(** C5. Take a frame made by [createFrame] at a time a clock can show, with
    a 32-byte key and a 64-byte signature, and suppose the signature
    scheme is unforgeable in the sense that this signature verifies for no
    other message.  Flip any one bit of the serialized frame before its
    signature: either [deserializeFrame] refuses the bytes, or [verifyFrame]
    is false on the frame it returns. *)
Theorem tampered_frame_rejected (type flags now : Z) (payload : jsval)
    (keyPair : KeyPair) (frame : Frame) (i k : nat) :
  length (publicKey keyPair) = 32%nat →
  0 ≤ now < 2 ^ 53 →
  createFrame type payload keyPair flags now = inr frame →
  length (frame_signature frame) = 64%nat →
  (∀ message publicKey' : list byte,
     crypto_verify message (frame_signature frame) publicKey' = true →
     message = signedBytes frame) →
  (i < length (serializeFrame frame) - 64)%nat →
  (k < 8)%nat →
  match deserializeFrame (flipBit (serializeFrame frame) i k) with
  | inl _ => True
  | inr frame' => verifyFrame frame' = false
  end.
Proof.
  intros Hpk Hnow Hmade Hsig Hbind Hi Hk.
  destruct (createFrame_fields _ _ _ _ _ _ Hmade)
    as (Hv & _ & _ & Hts & Hsender & _ & _).
  rewrite <- Hsender in Hpk.
  pose proof (signedBytes_layout frame Hpk) as Hm0.
  pose proof (serializeFrame_layout frame Hpk Hsig) as Hb.
  rewrite !app_assoc, <- (app_assoc (frameHeader frame)), <- Hm0 in Hb.
  set (m0 := signedBytes frame) in *.
  assert (length (serializeFrame frame) = length m0 + 64)%nat as Hlen
    by (by rewrite Hb, length_app, Hsig).
  assert (48 ≤ length m0)%nat as Hlong.
  { rewrite Hm0, !length_app, length_frameHeader, Hpk. lia. }
  assert (take 8 (drop 8 m0) = encodeBE 8 now) as Hstamp.
  { rewrite Hm0. unfold frameHeader. rewrite Hts.
    rewrite <- !app_assoc.
    do 4 (rewrite drop_app_ge by (rewrite length_encodeBE; lia);
          rewrite length_encodeBE; cbn [Nat.sub]).
    rewrite drop_0. apply take_app_length'. by rewrite length_encodeBE. }
  unfold flipBit. rewrite Hb, alter_app_l by lia.
  set (m' := alter (flipByte k) i m0).
  assert (length m' = length m0) as Hlen' by apply length_alter.
  rewrite deserializeFrame_cases.
  destruct (blen (m' ++ frame_signature frame) <? 116) eqn:Hsmall; [done|].
  destruct (negb (blen (m' ++ frame_signature frame)
                  =? readUInt32BE (m' ++ frame_signature frame) 0))
    eqn:Hfield; [done|].
  destruct (negb (readUInt8 (m' ++ frame_signature frame) 4 =? 1))
    eqn:Hversion; [done|].
  apply Z.ltb_ge in Hsmall. apply negb_false_iff, Z.eqb_eq in Hfield, Hversion.
  rewrite verifyFrame_signedBytes.
  assert (frame_signature (frameRead (m' ++ frame_signature frame))
          = frame_signature frame) as Hsame.
  { cbn [frameRead frame_signature]. unfold subarray, blen.
    rewrite length_app, Hsig.
    replace (Z.to_nat (Z.of_nat (length m' + 64) - 64)) with (length m')
      by lia.
    replace (Z.to_nat (Z.of_nat (length m' + 64)
                       - (Z.of_nat (length m' + 64) - 64)))
      with 64%nat by lia.
    rewrite drop_app_length. apply take_ge. lia. }
  rewrite Hsame.
  destruct (crypto_verify _ _ _) eqn:Hverify; [exfalso|done].
  apply Hbind in Hverify. fold m0 in Hverify.
  rewrite signedBytes_frameRead in Hverify.
  2:{ unfold refusedInput. lia. }
  rewrite length_app, Hsig, Hlen' in Hverify.
  rewrite take_app_le, drop_app_le, drop_app_le in Hverify by lia.
  rewrite (take_app_le (drop 8 m')) in Hverify by (rewrite length_drop; lia).
  replace (length m0 + 64 - 80)%nat with (length (drop 16 m'))
    in Hverify by (rewrite length_drop; lia).
  rewrite take_app_length in Hverify.
  assert (m0 = take 8 m0 ++ encodeBE 8 now ++ drop 16 m0) as Hsplit.
  { rewrite <- Hstamp.
    replace (drop 16 m0) with (drop 8 (drop 8 m0)) by (by rewrite drop_drop).
    by rewrite !take_drop. }
  pose proof (eq_trans Hverify Hsplit) as Hparts. clear Hverify.
  rename Hparts into Hverify.
  apply app_inj_1 in Hverify as [Hhead Hverify];
    [|rewrite !length_take; lia].
  apply app_inj_1 in Hverify as [Hstamp' Htail];
    [|by rewrite !length_encodeBE].
  assert (∀ x : byte, flipByte k x ≠ x) as Hflip
    by (intros x; by apply flipByte_changes).
  destruct (decide (i < 8)%nat) as [Hi8|Hi8].
  { subst m'. rewrite take_alter_lt in Hhead by done.
    apply alter_changes in Hhead; [done|rewrite length_take; lia|done]. }
  destruct (decide (16 ≤ i)%nat) as [Hi16|Hi16].
  { subst m'. rewrite drop_alter_ge in Htail by done.
    apply alter_changes in Htail; [done|rewrite length_drop; lia|done]. }
  assert (take 8 (drop 8 m') = alter (flipByte k) (i - 8)%nat (encodeBE 8 now))
    as Hstamped.
  { subst m'. rewrite drop_alter_ge, take_alter_lt, Hstamp by lia. done. }
  rewrite Hstamped in Hstamp'.
  destruct (lookup_lt_is_Some_2 (encodeBE 8 now) (i - 8)%nat) as [x Hx];
    [rewrite length_encodeBE; lia|].
  rewrite (decodeBE_alter _ _ _ x Hx) in Hstamp'.
  rewrite decodeBE_encodeBE, length_encodeBE in Hstamp'.
  change (256 ^ Z.of_nat 8) with (2 ^ 64) in Hstamp'.
  rewrite (Z.mod_small now) in Hstamp' by lia.
  destruct (flipByte_moves k x Hk) as [Hd0 Hd].
  set (d := byte_to_Z (flipByte k x) - byte_to_Z x) in *.
  set (P := 256 ^ Z.of_nat (8 - 1 - (i - 8))%nat) in *.
  assert (1 ≤ P ≤ 256 ^ 7) as HP.
  { subst P. split.
    - apply (Z.pow_le_mono_r 256 0); lia.
    - apply Z.pow_le_mono_r; lia. }
  change (256 ^ 7) with (2 ^ 56) in HP.
  pose proof (decodeBE_range
                (alter (flipByte k) (i - 8)%nat (encodeBE 8 now))) as Hrange.
  rewrite (decodeBE_alter _ _ _ x Hx), decodeBE_encodeBE, length_alter,
    length_encodeBE in Hrange.
  change (256 ^ Z.of_nat 8) with (2 ^ 64) in Hrange.
  rewrite (Z.mod_small now) in Hrange by lia. fold d P in Hrange.
  assert (d * P ≠ 0) as Hmoved by nia.
  assert (d * P ≤ 2 ^ 63) as Hhigh by nia.
  apply (f_equal decodeBE) in Hstamp'.
  rewrite !decodeBE_encodeBE in Hstamp'.
  change (256 ^ Z.of_nat 8) with (2 ^ 64) in Hstamp'.
  rewrite (Z.mod_small now) in Hstamp' by lia.
  destruct (decide (now + d * P < 2 ^ 53)) as [Hlow|Hbig].
  - rewrite Number_of_BigInt_small, Z.mod_small in Hstamp' by lia. lia.
  - pose proof (Number_of_BigInt_large (now + d * P) ltac:(lia)) as Hround.
    rewrite Z.mod_small in Hstamp' by lia. lia.
Qed.
End Tampering.

(** ** The round trip, where it holds *)

Section RoundTrip.
Context `{Crypto}.

(** A signature made by [createFrame] verifies, if signing and verifying
    agree for the key pair. *)
Lemma createFrame_verifies (type flags now : Z) (payload : jsval)
    (keyPair : KeyPair) (frame : Frame) :
  (∀ message, crypto_verify message
                (crypto_sign message (secretKey keyPair))
                (publicKey keyPair) = true) →
  createFrame type payload keyPair flags now = inr frame →
  verifyFrame frame = true.
Proof.
  intros Hagree Hmade.
  destruct (createFrame_fields _ _ _ _ _ _ Hmade)
    as (_ & _ & _ & _ & Hsender & _ & Hsig).
  rewrite verifyFrame_signedBytes, Hsender, Hsig. apply Hagree.
Qed.

(** With a payload of at least four bytes, field values in range and a
    64-byte signature, parsing the serialized frame gives the frame back. *)
Lemma createFrame_roundtrip (type flags now : Z) (payload : jsval)
    (keyPair : KeyPair) (frame : Frame) :
  length (publicKey keyPair) = 32%nat →
  0 ≤ type < 256 → 0 ≤ flags < 65536 → 0 ≤ now < 2 ^ 53 →
  createFrame type payload keyPair flags now = inr frame →
  length (frame_signature frame) = 64%nat →
  (4 ≤ length (frame_payload frame))%nat →
  blen (serializeFrame frame) < 2 ^ 32 →
  deserializeFrame (serializeFrame frame) = inr frame.
Proof.
  intros Hpk Htype Hflags Hnow Hmade Hsig Hpayload Hsize.
  destruct (createFrame_fields _ _ _ _ _ _ Hmade)
    as (Hv & Ht & Hf & Hts & Hsender & Hl & _).
  rewrite <- Hsender in Hpk.
  unfold blen in Hsize. rewrite length_serializeFrame in Hsize.
  pose proof (serializeFrame_layout frame Hpk Hsig) as Hb.
  unfold frameHeader in Hb. rewrite Hv, Ht, Hf, Hts in Hb.
  rewrite <- !app_assoc in Hb.
  set (b := serializeFrame frame) in *.
  assert (length b = 112 + length (frame_payload frame))%nat as Hlen
    by apply length_serializeFrame.
  assert (∀ (n : nat) (v : Z) (rest : list byte),
            take n (encodeBE n v ++ rest) = encodeBE n v) as Hfirst.
  { intros n v rest. apply take_app_length'. by rewrite length_encodeBE. }
  assert (∀ (n m : nat) (v : Z) (rest : list byte), (n ≤ m)%nat →
            drop m (encodeBE n v ++ rest) = drop (m - n) rest) as Hskip.
  { intros n m v rest Hnm. rewrite drop_app_ge by (by rewrite length_encodeBE).
    by rewrite length_encodeBE. }
  assert (blen b = 112 + blen (frame_payload frame)) as Hblen
    by (unfold blen; lia).
  assert (readUInt32BE b 0 = 112 + blen (frame_payload frame)) as Hfield.
  { unfold readUInt32BE, subarray. change (Z.to_nat (0 + 4 - 0)) with 4%nat.
    change (Z.to_nat 0) with 0%nat. rewrite drop_0, Hb, Hfirst.
    rewrite decodeBE_encodeBE. change (256 ^ Z.of_nat 4) with (2 ^ 32).
    rewrite Z.mod_small; unfold blen; lia. }
  rewrite <- Hblen in Hfield.
  assert (readUInt8 b 4 = 1) as Hversion.
  { unfold readUInt8, subarray. change (Z.to_nat (4 + 1 - 4)) with 1%nat.
    change (Z.to_nat 4) with 4%nat. rewrite Hb, Hskip by lia.
    cbn [Nat.sub]. rewrite drop_0, Hfirst. by rewrite decodeBE_encodeBE. }
  assert (readUInt8 b 5 = type) as Hrtype.
  { unfold readUInt8, subarray. change (Z.to_nat (5 + 1 - 5)) with 1%nat.
    change (Z.to_nat 5) with 5%nat. rewrite Hb. do 2 (rewrite Hskip by lia).
    cbn [Nat.sub]. rewrite drop_0, Hfirst.
    rewrite decodeBE_encodeBE. apply Z.mod_small. cbn. lia. }
  assert (readUInt16BE b 6 = flags) as Hrflags.
  { unfold readUInt16BE, subarray. change (Z.to_nat (6 + 2 - 6)) with 2%nat.
    change (Z.to_nat 6) with 6%nat. rewrite Hb. do 3 (rewrite Hskip by lia).
    cbn [Nat.sub]. rewrite drop_0, Hfirst.
    rewrite decodeBE_encodeBE. apply Z.mod_small. cbn. lia. }
  assert (readBigUInt64BE b 8 = now) as Hrstamp.
  { unfold readBigUInt64BE, subarray.
    change (Z.to_nat (8 + 8 - 8)) with 8%nat.
    change (Z.to_nat 8) with 8%nat. rewrite Hb. do 4 (rewrite Hskip by lia).
    cbn [Nat.sub]. rewrite drop_0, Hfirst.
    rewrite decodeBE_encodeBE. apply Z.mod_small.
    change (256 ^ Z.of_nat 8) with (2 ^ 64). lia. }
  assert (drop 16 b
          = frame_senderPubkey frame ++ frame_payload frame
            ++ frame_signature frame) as Hbody.
  { rewrite Hb. do 5 (rewrite Hskip by lia). cbn [Nat.sub]. apply drop_0. }
  assert (subarray b 16 48 = frame_senderPubkey frame) as Hrkey.
  { unfold subarray. change (Z.to_nat (48 - 16)) with 32%nat.
    change (Z.to_nat 16) with 16%nat. rewrite Hbody.
    by apply take_app_length'. }
  assert (drop 48 b = frame_payload frame ++ frame_signature frame) as Htail.
  { replace (drop 48 b) with (drop 32 (drop 16 b)) by (by rewrite drop_drop).
    rewrite Hbody. by apply drop_app_length'. }
  assert (subarray b 48 (blen b - 64) = frame_payload frame) as Hrpayload.
  { unfold subarray, blen. change (Z.to_nat 48) with 48%nat. rewrite Htail.
    apply take_app_length'. lia. }
  assert (subarray b (blen b - 64) (blen b) = frame_signature frame) as Hrsig.
  { unfold subarray, blen.
    replace (Z.to_nat (Z.of_nat (length b) - 64))
      with (48 + length (frame_payload frame))%nat by lia.
    replace (Z.to_nat (Z.of_nat (length b) - (Z.of_nat (length b) - 64)))
      with 64%nat by lia.
    rewrite <- drop_drop, Htail, drop_app_length. apply take_ge. lia. }
  rewrite deserializeFrame_cases.
  destruct (blen b <? 116) eqn:Hsmall;
    [apply Z.ltb_lt in Hsmall; unfold blen in Hsmall; lia|].
  rewrite Hfield, Z.eqb_refl, Hversion. cbn [negb Z.eqb Pos.eqb].
  unfold frameRead.
  rewrite Hrtype, Hrflags, Hrstamp, Hrkey, Hrpayload, Hrsig.
  rewrite Number_of_BigInt_small by lia.
  rewrite Hblen. clear -Hv Ht Hf Hts Hl.
  destruct frame as [len ver ty fl ts key body sig].
  cbn in Hv, Ht, Hf, Hts, Hl |- *. by rewrite Hv, Ht, Hf, Hts, Hl.
Qed.
End RoundTrip.

(** ** The demonstration scheme *)

(** A signature of the demonstration scheme on a short message verifies
    for that message only. *)
Lemma demoSign_binds (message0 secretKey : list byte) :
  (length message0 ≤ 61)%nat →
  ∀ message publicKey' : list byte,
    demoVerify message (demoSign message0 secretKey) publicKey' = true →
    message = message0.
Proof.
  intros Hshort message publicKey' Hverify.
  unfold demoVerify in Hverify. apply bool_decide_eq_true in Hverify.
  unfold demoSign in Hverify. apply app_inj_tail in Hverify as [Hdigest _].
  unfold demoDigest in Hdigest.
  destruct (length message0 <=? 61)%nat eqn:H0;
    [|apply Nat.leb_gt in H0; lia].
  destruct (length message <=? 61)%nat eqn:H1; [|done].
  apply Nat.leb_le in H1.
  injection Hdigest as Hlen Hbody.
  apply (f_equal byte_to_Z) in Hlen. rewrite !byte_to_of_Z in Hlen.
  unfold blen in Hlen. rewrite !Z.mod_small in Hlen by lia.
  apply app_inj_1 in Hbody as [Hbody _]; [done|lia].
Qed.

(** C5 at an instance: the frame [demoFrame], with bit 0 of byte 50 (a
    payload byte) flipped. *)
Lemma tampered_frame_rejected_witness :
  length (publicKey demoKeyPair) = 32%nat
  ∧ match deserializeFrame (flipBit (serializeFrame demoFrame) 50 0) with
    | inl _ => True
    | inr frame' => @verifyFrame demoCrypto frame' = false
    end.
Proof.
  split; [reflexivity|].
  apply (@tampered_frame_rejected demoCrypto MessageType.EVENT 0
           1700000000000 demoPayload demoKeyPair demoFrame 50 0).
  - reflexivity.
  - lia.
  - reflexivity.
  - reflexivity.
  - apply demoSign_binds. vm_compute. lia.
  - vm_compute. lia.
  - lia.
Defined.

(** The tampered demonstration frame does parse; it is the signature check
    that refuses it. *)
Example tampered_demoFrame_parses :
  ∃ frame', deserializeFrame (flipBit (serializeFrame demoFrame) 50 0)
            = inr frame'
            ∧ @verifyFrame demoCrypto frame' = false
            ∧ @verifyFrame demoCrypto demoFrame = true.
Proof. eexists. split; [by vm_compute|]. by vm_compute. Qed.

#[local] Arguments serializeFrame : simpl never.
#[local] Arguments createFrame : simpl never.

(** ** The peer session: requests *)

(** Reading a field through a setter of another field. *)
Lemma pendingRequests_set_microtasks (m : list Task) (w : Session) :
  pendingRequests (set_microtasks m w) = pendingRequests w.
Proof. reflexivity. Qed.

Lemma pendingRequests_set_catchers (c : gmap nat Catcher) (w : Session) :
  pendingRequests (set_catchers c w) = pendingRequests w.
Proof. reflexivity. Qed.

Lemma timers_set_microtasks (m : list Task) (w : Session) :
  timers (set_microtasks m w) = timers w.
Proof. reflexivity. Qed.

Lemma timers_set_catchers (c : gmap nat Catcher) (w : Session) :
  timers (set_catchers c w) = timers w.
Proof. reflexivity. Qed.

Lemma trace_set_microtasks (m : list Task) (w : Session) :
  trace (set_microtasks m w) = trace w.
Proof. reflexivity. Qed.

Lemma trace_set_catchers (c : gmap nat Catcher) (w : Session) :
  trace (set_catchers c w) = trace w.
Proof. reflexivity. Qed.

Lemma microtasks_set_microtasks (m : list Task) (w : Session) :
  microtasks (set_microtasks m w) = m.
Proof. reflexivity. Qed.

Section Requests.
Context `{Crypto} `{Json}.

Lemma createFrame_object (type : Z) (props : list (string * jsval))
    (keyPair : KeyPair) (flags now : Z) :
  ∃ frame, createFrame type (JObj props) keyPair flags now = inr frame.
Proof. unfold createFrame. cbn [JSON_stringify]. eauto. Qed.

Lemma writeFrame_destroyed (frame : Frame) (w : Session) :
  destroyed w = true →
  writeFrame frame w = (WriteThrown (PeerOfflineError (pubkey w)), w).
Proof. intros Hd. unfold writeFrame. by rewrite Hd. Qed.

(** What [writeFrame] leaves of a live session: the entries and timers
    that were there stay, and the trace grows from a write. *)
Lemma writeFrame_live (frame : Frame) (w : Session) :
  destroyed w = false →
  ∃ canContinue more,
    trace (writeFrame frame w).2
    = trace w ++ FxStreamWrite (serializeFrame frame) canContinue :: more
    ∧ pendingRequests (writeFrame frame w).2 = pendingRequests w
    ∧ microtasks (writeFrame frame w).2 = microtasks w
    ∧ (∀ h, h ≠ nextTimer w →
         timers (writeFrame frame w).2 !! h = timers w !! h)
    ∧ match (writeFrame frame w).1 with
      | WriteDone => canContinue = true
      | WriteParked q => canContinue = false ∧ q = nextPromise w
      | WriteThrown _ => False
      end.
Proof.
  intros Hd. destruct w as [? ? ? ? ? ? ? ? ? ? dead queue draining ? ?
                              now tm nt ? ? pr np ? ready tr].
  cbn in Hd. subst dead. unfold writeFrame, stream_write. cbn.
  destruct ready as [|[|] ready]; cbn.
  - exists true, []. done.
  - exists true, []. done.
  - exists false. unfold checkDrain. cbn.
    destruct draining; cbn.
    + eexists. split; [by rewrite <- app_assoc|].
      split; [done|]. split; [done|]. split; [|done].
      intros h Hh. by apply lookup_insert_ne.
    + unfold resolve. cbn.
      destruct (pr !! np); cbn.
      * eexists. split; [rewrite <- !app_assoc; reflexivity|].
        split; [done|]. split; [done|]. split; [|done].
        intros h Hh. rewrite lookup_delete_ne by done.
        by apply lookup_insert_ne.
      * eexists. split; [rewrite <- !app_assoc; reflexivity|].
        split; [done|]. split; [done|]. split; [|done].
        intros h Hh. rewrite lookup_delete_ne by done.
        by apply lookup_insert_ne.
Qed.

Lemma request_unfold (method : string) (params : jsval) (timeout : Z)
    (w : Session) :
  let id := requestId (clock w) (requestCounter w + 1) in
  let p := nextPromise w in
  let h := nextTimer w in
  let w0 := registered timeout w in
  request method params timeout w =
    match createRequest (requestObject id method params timeout)
            (ourKeyPair w) (clock w) with
    | inl err => (p, reject p err w0)
    | inr frame =>
        match writeFrame frame w0 with
        | (WriteDone, w') => (p, w')
        | (WriteThrown err, w') =>
            (p, set_microtasks (microtasks w' ++ [SendFailed id h p err]) w')
        | (WriteParked q, w') =>
            (p, set_catchers (<[q := CatchRequest id h p]> (catchers w')) w')
        end
    end.
Proof.
  cbv zeta. unfold request, registered, requestObject.
  cbn [setTimeout armTimer clock set_requestCounter requestCounter nextPromise
         set_nextPromise nextTimer ourKeyPair].
  destruct (createRequest _ _ _) as [err|frame]; [reflexivity|].
  destruct (writeFrame _ _) as [[|err|q] w']; reflexivity.
Qed.

Lemma registered_fields (timeout : Z) (w : Session) :
  let id := requestId (clock w) (requestCounter w + 1) in
  let p := nextPromise w in
  let h := nextTimer w in
  let deadline := RequestDeadline id p timeout in
  let w0 := registered timeout w in
  trace w0 = trace w ++ [FxSetTimer h (clock w + timeout) deadline;
                         FxPendingSet id]
  ∧ pendingRequests w0 = <[id := mkPending p h]> (pendingRequests w)
  ∧ timers w0 = <[h := mkTimer (clock w + timeout) deadline None]> (timers w)
  ∧ nextTimer w0 = S h
  ∧ destroyed w0 = destroyed w
  ∧ microtasks w0 = microtasks w
  ∧ pubkey w0 = pubkey w.
Proof.
  destruct w. unfold registered. cbn. rewrite <- app_assoc. done.
Qed.

(** [request] on a live session whose stream refuses the frame: the
    [.catch] reaction is attached to the promise of the parked write.  With
    [writeDraining] up, that promise is pending and its 30-second timer is
    armed; once the timer has fired and the reaction has run, the entry
    and the deadline timer are gone and the caller is rejected. *)
Lemma request_parked (method : string) (params : jsval) (timeout : Z)
    (w : Session) :
  let id := requestId (clock w) (requestCounter w + 1) in
  let p := nextPromise w in
  let h := nextTimer w in
  let w1 := (request method params timeout w).2 in
  ∀ answers : list bool,
    destroyed w = false →
    streamReady w = false :: answers →
    catchers w1 !! S p = Some (CatchRequest id h p)
    ∧ (writeDraining w = true →
       promises w !! p = None →
       promises w !! S p = None →
       microtasks w = [] →
       promises w1 !! S p = None
       ∧ timers w1 !! S h
         = Some (mkTimer (clock w + 30000) (BackpressureTimeout (S p))
                   None)
       ∧ let w3 :=
           run w1 [Elapse 30000; TimerFires (S h); MicrotaskRuns] in
         pendingRequests w3 !! id = None
         ∧ timers w3 !! h = None
         ∧ promises w3 !! p = Some (Rejected backpressureError)).
Proof.
  intros id p h w1 answers Hd Hready. subst w1. rewrite request_unfold.
  cbv zeta. fold id; fold p; fold h.
  destruct (createFrame_object MessageType.REQUEST
              [("id", JStr id); ("method", JStr method);
               ("params", params); ("timeout", JNum timeout)]%string
              (ourKeyPair w) 0 (clock w)) as [frame Hframe].
  unfold createRequest, requestObject. rewrite Hframe.
  clear Hframe. subst id p h.
  destruct w as [? ? ? ? ? ? ? ? ? ? dead queue draining ? ?
                   now tm nt ? mt pr np ct ready tr].
  cbn in Hd, Hready. subst dead ready.
  unfold registered, run, step. cbn [foldl]. session_eval.
  change (Z.max 0 30000) with 30000.
  destruct draining; session_eval.
  - split; [apply lookup_insert_eq|]. intros _ Hp Hq ->.
    split; [exact Hq|]. split; [apply lookup_insert_eq|].
    unfold fireTimer. session_eval. rewrite lookup_insert_eq. session_eval.
    rewrite Z.ltb_irrefl. unfold runCallback, reject. session_eval.
    rewrite Hq. session_eval. rewrite lookup_insert_eq.
    unfold runMicrotask. session_eval. cbn [app].
    unfold runTask, pendingDelete, reject. session_eval.
    rewrite lookup_insert_ne, Hp by lia. session_eval.
    rewrite lookup_insert_ne by lia.
    destruct (ct !! np) as [[]|]; session_eval.
    all: split; [apply lookup_delete_eq|].
    all: split; [apply lookup_delete_eq|apply lookup_insert_eq].
  - destruct (pr !! S np); session_eval.
    + split; [apply lookup_insert_eq|done].
    + split; [apply lookup_insert_eq|done].
Qed.

(** C6. [request] arms the deadline timer and registers the entry under the
    new id before anything is written to the stream.  When the write
    fails, its [.catch] reaction clears the timer, removes the entry and
    rejects the caller: on a destroyed session the reaction is queued by
    [request] itself; on a live session whose stream refuses the frame,
    [request] attaches the reaction to the promise of the parked write,
    and with [writeDraining] up that promise is pending with its 30-second
    timer armed, so that 30 seconds later the timer and the reaction leave
    the session without the entry, without the deadline timer and with the
    caller rejected.  When the deadline fires, the entry is removed and
    the caller is rejected with [RequestTimeoutError]; a response that
    arrives afterwards finds no entry and changes nothing. *)
Theorem request_spec (method : string) (params : jsval) (timeout : Z)
    (w : Session) :
  let id := requestId (clock w) (requestCounter w + 1) in
  let p := nextPromise w in
  let h := nextTimer w in
  let deadline := RequestDeadline id p timeout in
  let w1 := (request method params timeout w).2 in
  (request method params timeout w).1 = p
  ∧ pendingRequests w1 !! id = Some (mkPending p h)
  ∧ timers w1 !! h = Some (mkTimer (clock w + timeout) deadline None)
  ∧ (∃ frame sent,
       createRequest (requestObject id method params timeout) (ourKeyPair w)
         (clock w) = inr frame
       ∧ trace w1
         = trace w
           ++ [FxSetTimer h (clock w + timeout) deadline; FxPendingSet id]
           ++ sent
       ∧ (destroyed w = false →
          ∃ canContinue more,
            sent = FxStreamWrite (serializeFrame frame) canContinue :: more)
       ∧ (destroyed w = true →
          sent = []
          ∧ microtasks w1
            = microtasks w
              ++ [SendFailed id h p (PeerOfflineError (pubkey w))]))
  ∧ (∀ (w2 : Session) (q : nat) (err : JsError),
       catchers w2 !! q = Some (CatchRequest id h p) →
       promises w2 !! q = None →
       microtasks (reject q err w2)
       = microtasks w2 ++ [SendFailed id h p err])
  ∧ (∀ (w2 : Session) (err : JsError),
       let w3 := runTask (SendFailed id h p err) w2 in
       pendingRequests w3 !! id = None
       ∧ timers w3 !! h = None
       ∧ promises w3 = settle p (Rejected err) (promises w2))
  ∧ (∀ w2 : Session,
       let w3 := runCallback deadline w2 in
       pendingRequests w3 !! id = None
       ∧ promises w3
         = settle p (Rejected (RequestTimeoutError id timeout)) (promises w2)
       ∧ ∀ response : jsval,
           getProp response "id" = Some (JStr id) →
           handleResponse response w3 = inr w3)
  ∧ (∀ answers : list bool,
       destroyed w = false →
       streamReady w = false :: answers →
       catchers w1 !! S p = Some (CatchRequest id h p)
       ∧ (writeDraining w = true →
          promises w !! p = None →
          promises w !! S p = None →
          microtasks w = [] →
          promises w1 !! S p = None
          ∧ timers w1 !! S h
            = Some (mkTimer (clock w + 30000) (BackpressureTimeout (S p))
                      None)
          ∧ let w3 :=
              run w1 [Elapse 30000; TimerFires (S h); MicrotaskRuns] in
            pendingRequests w3 !! id = None
            ∧ timers w3 !! h = None
            ∧ promises w3 !! p = Some (Rejected backpressureError))).
Proof.
  intros id p h deadline w1.
  split; [|split; [|split; [|split; [|split; [|split; [|split]]]]]].
  8:{ exact (request_parked method params timeout w). }
  5:{ intros w2 q err Hc Hq. unfold reject. rewrite Hq. cbn. by rewrite Hc. }
  5:{ intros w2 err w3. subst w3. cbn [runTask].
      destruct (reject_fields p err (pendingDelete id (clearTimeout h w2)))
        as (-> & -> & _).
      rewrite promises_reject. cbn. rewrite !lookup_delete_eq. done. }
  5:{ intros w2 w3. subst w3. unfold deadline. cbn [runCallback].
      destruct (reject_fields p (RequestTimeoutError id timeout)
                  (pendingDelete id w2)) as (_ & Hp & _).
      rewrite promises_reject. split; [|split; [done|]].
      - rewrite Hp. cbn. apply lookup_delete_eq.
      - intros response Hid. unfold handleResponse. rewrite Hid.
        cbn [pendingGet]. rewrite Hp. cbn. by rewrite lookup_delete_eq. }
  all: destruct (registered_fields timeout w)
         as (Htr0 & Hp0 & Ht0 & Hn0 & Hd0 & Hm0 & Hk0).
  all: subst w1; rewrite request_unfold; cbv zeta.
  all: fold id; fold p; fold h; fold deadline.
  all: fold id p h deadline in Htr0, Hp0, Ht0, Hn0.
  all: destruct (createFrame_object MessageType.REQUEST
                   [("id", JStr id); ("method", JStr method);
                    ("params", params); ("timeout", JNum timeout)]%string
                   (ourKeyPair w) 0 (clock w)) as [frame Hframe].
  all: unfold createRequest, requestObject; rewrite Hframe.
  all: set (w0 := registered timeout w) in *; clearbody w0.
  all: destruct (destroyed w) eqn:Hd;
         [rewrite (writeFrame_destroyed frame w0 Hd0);
          lazy beta iota delta [fst snd]
         |destruct (writeFrame_live frame w0 Hd0)
            as (ok & more & Htr & Hpend & Hmicro & Htim & Hst);
          destruct (writeFrame frame w0) as [[|err|q] w'];
          lazy beta iota delta [fst snd] in *; [|done|]].
  1-3: reflexivity.
  1-3: rewrite ?pendingRequests_set_microtasks, ?pendingRequests_set_catchers,
         ?Hpend, Hp0; apply lookup_insert_eq.
  1-3: rewrite ?timers_set_microtasks, ?timers_set_catchers;
       rewrite ?Htim, Ht0 by (rewrite Hn0; lia); apply lookup_insert_eq.
  - exists frame, []. split; [done|]. split; [|split; [done|intros _]].
    + by rewrite trace_set_microtasks, Htr0.
    + split; [done|]. by rewrite microtasks_set_microtasks, Hm0, Hk0.
  - exists frame. eexists. split; [done|]. split; [|split; [eauto|done]].
    by rewrite Htr, Htr0, <- app_assoc.
  - exists frame. eexists. split; [done|]. split; [|split; [eauto|done]].
    by rewrite trace_set_catchers, Htr, Htr0, <- app_assoc.
Qed.
End Requests.

(** C6 at an instance: a request on [drainingSession] is parked behind the
    busy stream; thirty seconds later the backpressure timer fires, and the
    reaction removes the entry and rejects the caller. *)
Lemma request_spec_witness :
  destroyed drainingSession = false
  ∧ streamReady drainingSession = [false]
  ∧ writeDraining drainingSession = true
  ∧ let w1 := (@request demoCrypto "ping" JNull 60000 drainingSession).2 in
    let w3 :=
      @run demoCrypto demoJson w1
        [Elapse 30000; TimerFires (S (nextTimer drainingSession));
         MicrotaskRuns] in
    pendingRequests w3
      !! requestId (clock drainingSession) (requestCounter drainingSession + 1)
    = None
    ∧ promises w3 !! nextPromise drainingSession
      = Some (Rejected backpressureError).
Proof.
  split; [by vm_compute|]. split; [by vm_compute|]. split; [by vm_compute|].
  destruct (@request_spec demoCrypto demoJson "ping" JNull 60000
              drainingSession) as (_ & _ & _ & _ & _ & _ & _ & Hparked).
  destruct (Hparked [] ltac:(by vm_compute) ltac:(by vm_compute))
    as [_ Hfail].
  destruct Hfail as (_ & _ & Hentry & _ & Hcaller); [by vm_compute ..|].
  split; [exact Hentry|exact Hcaller].
Defined.

(** ** The peer session: a settled promise stays settled *)

Lemma keeps_refl (w : Session) : keepsPromises w w.
Proof. by intros p o. Qed.

Lemma keeps_trans (w1 w2 w3 : Session) :
  keepsPromises w1 w2 → keepsPromises w2 w3 → keepsPromises w1 w3.
Proof. intros H12 H23 p o Hp. by apply H23, H12. Qed.

Lemma keeps_same (w w' : Session) :
  promises w' = promises w → keepsPromises w w'.
Proof. intros Heq p o. by rewrite Heq. Qed.

Lemma keeps_resolve (p : nat) (v : jsval) (w : Session) :
  keepsPromises w (resolve p v w).
Proof. intros q o Hq. rewrite promises_resolve. by apply settle_keeps. Qed.

Lemma keeps_reject (p : nat) (err : JsError) (w : Session) :
  keepsPromises w (reject p err w).
Proof. intros q o Hq. rewrite promises_reject. by apply settle_keeps. Qed.

Lemma keeps_rejectEntries (err : JsError) (l : list (string * Pending))
    (w : Session) :
  keepsPromises w (foldl (rejectEntry err) w l).
Proof.
  revert w. induction l as [|e l IH]; intros w; [apply keeps_refl|].
  cbn [foldl]. eapply keeps_trans; [|apply IH].
  unfold rejectEntry. eapply keeps_trans; [|apply keeps_reject].
  by apply keeps_same.
Qed.

Lemma keeps_stopHeartbeat (w : Session) : keepsPromises w (stopHeartbeat w).
Proof.
  apply keeps_same.
  by destruct (stopHeartbeat_fields w) as (_ & _ & _ & _ & -> & _).
Qed.

Lemma keeps_destroy (w : Session) : keepsPromises w (destroy w).
Proof.
  destruct (destroyed w) eqn:Hd; [rewrite destroy_again by done; apply keeps_refl|].
  rewrite destroy_unfold by done.
  eapply keeps_trans; [|by apply keeps_same].
  eapply keeps_trans; [|by apply keeps_same].
  eapply keeps_trans; [|apply keeps_rejectEntries].
  eapply keeps_trans; [|by apply keeps_same].
  eapply keeps_trans; [|apply keeps_stopHeartbeat].
  by apply keeps_same.
Qed.

Lemma keeps_handleDisconnect (w : Session) :
  keepsPromises w (handleDisconnect w).
Proof.
  destruct (destroyed w) eqn:Hd.
  { unfold handleDisconnect. rewrite Hd. apply keeps_refl. }
  rewrite handleDisconnect_unfold by done.
  eapply keeps_trans; [|by apply keeps_same].
  eapply keeps_trans; [|by apply keeps_same].
  eapply keeps_trans; [|by apply keeps_same].
  eapply keeps_trans; [|apply keeps_rejectEntries].
  eapply keeps_trans; [|apply keeps_stopHeartbeat].
  by apply keeps_same.
Qed.

Lemma keeps_checkDrain (p timeout : nat) (w : Session) :
  keepsPromises w (checkDrain p timeout w).
Proof.
  unfold checkDrain. destruct (writeDraining w); cbn [negb].
  - by apply keeps_same.
  - eapply keeps_trans; [|apply keeps_resolve]. by apply keeps_same.
Qed.

Lemma keeps_writeFrame (frame : Frame) (w : Session) :
  keepsPromises w (writeFrame frame w).2.
Proof.
  unfold writeFrame. destruct (destroyed w); [apply keeps_refl|].
  unfold stream_write.
  destruct (match streamReady w with [] => true | b :: _ => b end);
    cbn [negb fst snd]; [by apply keeps_same|].
  unfold setTimeout, armTimer. cbn [fst snd].
  eapply keeps_trans; [|apply keeps_checkDrain]. by apply keeps_same.
Qed.

Lemma keeps_processWriteLoop (fuel : nat) (w : Session) :
  keepsPromises w (processWriteLoop fuel w).
Proof.
  revert w. induction fuel as [|fuel IH]; intros w; [apply keeps_refl|].
  cbn [processWriteLoop]. destruct (writeQueue w); [apply keeps_refl|].
  destruct (writeDraining w); [apply keeps_refl|].
  unfold stream_write. eapply keeps_trans; [|apply IH]. by apply keeps_same.
Qed.

Section Settled.
Context `{Crypto} `{Json}.

Lemma keeps_writeBuilt (built : JsError + Frame) (w : Session) :
  keepsPromises w (writeBuilt built w).2.
Proof.
  destruct built; [apply keeps_refl|apply keeps_writeFrame].
Qed.

Lemma keeps_handleResponse (response : jsval) (w w' : Session) :
  handleResponse response w = inr w' → keepsPromises w w'.
Proof.
  unfold handleResponse. destruct (getProp response "id") as [id|]; [|done].
  destruct (pendingGet w id) as [pending|]; [|intros [= <-]; apply keeps_refl].
  assert (keepsPromises w
            (pendingDeleteKey id (clearTimeout (pending_timer pending) w)))
    as Hk by (apply keeps_same; by destruct id).
  destruct (truthy _); intros [= <-];
    (eapply keeps_trans; [apply Hk|]);
    [apply keeps_reject|apply keeps_resolve].
Qed.

Lemma keeps_handleFrame (frame : Frame) (w w' : Session) :
  handleFrame frame w = inr w' → keepsPromises w w'.
Proof.
  unfold handleFrame. destruct (JSON_parse _) as [payload|]; [|done].
  destruct (frame_type frame =? MessageType.CONTROL).
  { unfold handleControl. destruct (getProp payload "type") as [t|]; [|done].
    destruct t; try (intros [= <-]; apply keeps_refl).
    destruct (String.eqb s "heartbeat"); [intros [= <-]; apply keeps_refl|].
    destruct (String.eqb s "capabilities"); [|intros [= <-]; apply keeps_refl].
    destruct (getProp payload "data") as [data|]; [|done].
    destruct (truthy data); intros [= <-]; [|apply keeps_refl].
    by apply keeps_same. }
  destruct (frame_type frame =? MessageType.REQUEST).
  { intros [= <-]. by apply keeps_same. }
  destruct (frame_type frame =? MessageType.RESPONSE).
  { apply keeps_handleResponse. }
  destruct (frame_type frame =? MessageType.EVENT).
  { intros [= <-]. by apply keeps_same. }
  destruct (frame_type frame =? MessageType.INTRODUCE);
    intros [= <-]; by apply keeps_same.
Qed.

Lemma keeps_handleData (data : list byte) (w : Session) :
  keepsPromises w (handleData data w).
Proof.
  unfold handleData.
  set (w1 := resetHeartbeatTimeout _).
  assert (keepsPromises w w1) as Hk.
  { apply keeps_same. subst w1. unfold resetHeartbeatTimeout.
    by destruct (heartbeatTimeoutTimer _). }
  clearbody w1.
  assert (∀ ev, keepsPromises w (emit ev w1)) as Hemit.
  { intros ev. eapply keeps_trans; [apply Hk|]. by apply keeps_same. }
  destruct (deserializeFrame data) as [e|frame]; [apply Hemit|].
  destruct (verifyFrame frame); cbn [negb]; [|apply Hemit].
  destruct (String.eqb _ _); cbn [negb]; [|apply Hemit].
  destruct (handleFrame frame w1) as [err|w2] eqn:Hframe; [apply Hemit|].
  eapply keeps_trans; [apply Hk|]. by apply (keeps_handleFrame frame).
Qed.

Lemma promises_registered (timeout : Z) (w : Session) :
  promises (registered timeout w) = promises w.
Proof. destruct w. unfold registered. cbn. reflexivity. Qed.

Lemma keeps_request (method : string) (params : jsval) (timeout : Z)
    (w : Session) :
  keepsPromises w (request method params timeout w).2.
Proof.
  rewrite request_unfold. cbv zeta.
  assert (keepsPromises w (registered timeout w)) as Hk
    by apply keeps_same, promises_registered.
  set (w0 := registered timeout w) in *. clearbody w0.
  destruct (createRequest _ _ _) as [err|frame].
  { eapply keeps_trans; [apply Hk|]. apply keeps_reject. }
  pose proof (keeps_writeFrame frame w0) as Hw.
  destruct (writeFrame frame w0) as [[|err|q] w'].
  all: lazy beta iota delta [fst snd] in Hw |- *.
  all: eapply keeps_trans; [apply Hk|].
  - exact Hw.
  - eapply keeps_trans; [apply Hw|]. apply keeps_same. reflexivity.
  - eapply keeps_trans; [apply Hw|]. apply keeps_same. reflexivity.
Qed.

Lemma keeps_runTask (t : Task) (w : Session) : keepsPromises w (runTask t w).
Proof.
  destruct t as [p timeout|id timer p err]; cbn [runTask].
  - apply keeps_checkDrain.
  - eapply keeps_trans; [|apply keeps_reject]. by apply keeps_same.
Qed.

Lemma keeps_fireTimer (h : nat) (w : Session) :
  keepsPromises w (fireTimer h w).
Proof.
  unfold fireTimer. destruct (timers w !! h) as [t|]; [|apply keeps_refl].
  destruct (clock w <? fireAt t); [apply keeps_refl|].
  set (w1 := match every t with Some _ => _ | None => _ end).
  assert (keepsPromises w w1) as Hk
    by (apply keeps_same; subst w1; by destruct (every t)).
  clearbody w1. eapply keeps_trans; [apply Hk|].
  destruct (callback t) as [| |p|id p timeout]; cbn [runCallback].
  - unfold heartbeatTick. destruct (destroyed w1 || negb (online w1));
      [apply keeps_refl|].
    destruct (createHeartbeat _ _) as [err|frame]; [apply keeps_refl|].
    pose proof (keeps_writeFrame frame w1) as Hw.
    by destruct (writeFrame frame w1) as [[|err|q] w'].
  - eapply keeps_trans; [|apply keeps_destroy]. by apply keeps_same.
  - apply keeps_reject.
  - eapply keeps_trans; [|apply keeps_reject]. by apply keeps_same.
Qed.

Lemma keeps_step (w : Session) (i : Input) : keepsPromises w (step w i).
Proof.
  destruct i; cbn [step].
  - apply keeps_handleData.
  - apply keeps_handleDisconnect.
  - eapply keeps_trans; [|apply keeps_handleDisconnect]. by apply keeps_same.
  - unfold processWriteQueue.
    eapply keeps_trans; [|apply keeps_processWriteLoop]. by apply keeps_same.
  - apply keeps_fireTimer.
  - unfold runImmediate. destruct (immediates w); [apply keeps_refl|].
    eapply keeps_trans; [|apply keeps_runTask]. by apply keeps_same.
  - unfold runMicrotask. destruct (microtasks w); [apply keeps_refl|].
    eapply keeps_trans; [|apply keeps_runTask]. by apply keeps_same.
  - by apply keeps_same.
  - apply keeps_request.
  - apply keeps_refl.
  - apply keeps_writeBuilt.
  - apply keeps_destroy.
Qed.

Lemma keeps_run (inputs : list Input) (w : Session) :
  keepsPromises w (run w inputs).
Proof.
  revert w. induction inputs as [|i inputs IH]; intros w; [apply keeps_refl|].
  cbn [run foldl]. eapply keeps_trans; [apply keeps_step|apply IH].
Qed.
End Settled.

Lemma writeFrame_parked (frame : Frame) (w : Session) (answers : list bool) :
  destroyed w = false →
  writeDraining w = false →
  streamReady w = false :: answers →
  promises w !! nextPromise w = None →
  timers w !! nextTimer w = None →
  (writeFrame frame w).1 = WriteParked (nextPromise w)
  ∧ promises (writeFrame frame w).2 !! nextPromise w
    = Some (Resolved JUndefined)
  ∧ clock (writeFrame frame w).2 = clock w
  ∧ timers (writeFrame frame w).2 = timers w
  ∧ writeQueue (writeFrame frame w).2 = writeQueue w ++ [serializeFrame frame].
Proof.
  destruct w as [? ? ? ? ? ? ? ? ? ? dead queue draining ? ?
                   now tm nt ? ? pr np ? ready tr].
  session_eval. intros -> -> -> Hfresh Htimer.
  session_eval. rewrite Hfresh. session_eval.
  split; [reflexivity|]. split; [apply lookup_insert_eq|].
  split; [reflexivity|]. split; [|reflexivity].
  rewrite delete_insert_eq. apply delete_id, Htimer.
Qed.

Section ParkedWrite.
Context `{Crypto} `{Json}.

(** C2, where it fails.  On a live session whose [writeDraining] flag is
    down, a write that the stream answers with [false] is parked and, in
    the same call, resolved: no time has passed, no drain has been
    signalled, and the 30-second timer is cleared.  Whatever happens to the
    session afterwards, the write stays resolved; it never fails with a
    backpressure error. *)
Theorem parked_write_resolves_at_once (frame : Frame) (w : Session)
    (answers : list bool) :
  destroyed w = false →
  writeDraining w = false →
  streamReady w = false :: answers →
  promises w !! nextPromise w = None →
  timers w !! nextTimer w = None →
  (writeFrame frame w).1 = WriteParked (nextPromise w)
  ∧ promises (writeFrame frame w).2 !! nextPromise w
    = Some (Resolved JUndefined)
  ∧ clock (writeFrame frame w).2 = clock w
  ∧ timers (writeFrame frame w).2 = timers w
  ∧ writeQueue (writeFrame frame w).2 = writeQueue w ++ [serializeFrame frame]
  ∧ ∀ inputs : list Input,
      promises (run (writeFrame frame w).2 inputs) !! nextPromise w
      = Some (Resolved JUndefined).
Proof.
  intros Hd Hdr Hready Hfresh Htimer.
  destruct (writeFrame_parked frame w answers Hd Hdr Hready Hfresh Htimer)
    as (H1 & H2 & H3 & H4 & H5).
  split; [exact H1|]. split; [exact H2|]. split; [exact H3|].
  split; [exact H4|]. split; [exact H5|].
  intros inputs. exact (keeps_run inputs _ _ _ H2).
Qed.
End ParkedWrite.

(** C2 at an instance: on [demoSession], whose stream is busy, the write of
    [demoFrame] is parked and resolved in the same call. *)
Lemma parked_write_resolves_at_once_witness :
  streamReady demoSession = [false]
  ∧ (writeFrame demoFrame demoSession).1
    = WriteParked (nextPromise demoSession)
  ∧ promises (writeFrame demoFrame demoSession).2 !! nextPromise demoSession
    = Some (Resolved JUndefined).
Proof.
  split; [by vm_compute|].
  destruct (@parked_write_resolves_at_once demoCrypto demoJson demoFrame
              demoSession []) as (H1 & H2 & _).
  - by vm_compute.
  - by vm_compute.
  - by vm_compute.
  - by vm_compute.
  - by vm_compute.
  - split; [exact H1|exact H2].
Defined.

(** * Further properties *)

(** * Further properties of the frame codec *)

Lemma take_Buffer_copy (src target : Buffer) (offset : Z) (n : nat) :
  (n ≤ Z.to_nat offset)%nat →
  take n (Buffer_copy src target offset) = take n target.
Proof.
  intros Hn. unfold Buffer_copy.
  destruct (decide (Z.to_nat offset ≤ length target)%nat) as [Hin|Hout].
  - rewrite take_app_le by (rewrite length_take; lia).
    rewrite take_take. f_equal. lia.
  - rewrite (take_ge target) by lia.
    replace (length target - Z.to_nat offset)%nat with 0%nat by lia.
    rewrite drop_ge by lia. cbn [take]. by rewrite !app_nil_r.
Qed.

Lemma Number_of_BigInt_nonneg (x : Z) : 0 ≤ x → 0 ≤ Number_of_BigInt x.
Proof.
  intros Hx. unfold Number_of_BigInt.
  destruct (x <? 2 ^ 53) eqn:Hsmall; [done|]. apply Z.ltb_ge in Hsmall.
  assert (53 ≤ Z.log2 x) as Hlog by (apply Z.log2_le_pow2; lia).
  set (e := Z.log2 x - 52).
  assert (0 < 2 ^ e) as Hpow by (apply Z.pow_pos_nonneg; lia).
  assert (0 ≤ x / 2 ^ e) as Hq by (apply Z.div_pos; lia).
  repeat case_match; nia.
Qed.

(** X1. [serializeFrame] computes the size itself: whatever the [length]
    field of its argument says, and however long the key and the signature
    are, the buffer is 112 bytes longer than the payload, and its first four
    bytes hold that size (its low 32 bits). *)
Theorem serializeFrame_length_field (frame : Frame) :
  blen (serializeFrame frame) = 112 + blen (frame_payload frame)
  ∧ readUInt32BE (serializeFrame frame) 0
    = (112 + blen (frame_payload frame)) mod 2 ^ 32
  ∧ ∀ length' : Z,
      serializeFrame
        (mkFrame length' (frame_version frame) (frame_type frame)
           (frame_flags frame) (frame_timestamp frame)
           (frame_senderPubkey frame) (frame_payload frame)
           (frame_signature frame))
      = serializeFrame frame.
Proof.
  split; [unfold blen; rewrite length_serializeFrame; lia|].
  split; [|reflexivity].
  unfold readUInt32BE, subarray. change (Z.to_nat (0 + 4 - 0)) with 4%nat.
  change (Z.to_nat 0) with 0%nat. rewrite drop_0.
  unfold serializeFrame, writeUInt32BE, writeUInt8, writeUInt16BE,
    writeBigUInt64BE, PUBLIC_KEY_SIZE, SIGNATURE_SIZE.
  rewrite !take_Buffer_copy by (unfold blen; lia).
  replace (4 + 1 + 1 + 2 + 8 + 32 + blen (frame_payload frame) + 64)
    with (112 + blen (frame_payload frame)) by lia.
  unfold Buffer_alloc.
  replace (Z.to_nat (112 + blen (frame_payload frame)))
    with (4 + (108 + length (frame_payload frame)))%nat by (unfold blen; lia).
  rewrite replicate_add.
  rewrite Buffer_copy_front by (by rewrite length_encodeBE).
  rewrite take_app_length' by (by rewrite length_encodeBE).
  rewrite decodeBE_encodeBE. reflexivity.
Qed.

(** X2. What [deserializeFrame] returns is well formed: the [length]
    field is the size of the buffer, the version is 1, type and flags are
    in the range of their fields, the key has 32 bytes, the signature 64,
    and the payload is what lies between them. *)
Theorem deserializeFrame_wellformed (b : Buffer) (frame : Frame) :
  deserializeFrame b = inr frame →
  frame_length frame = blen b
  ∧ frame_version frame = PROTOCOL_VERSION
  ∧ 0 ≤ frame_type frame < 256
  ∧ 0 ≤ frame_flags frame < 65536
  ∧ 0 ≤ frame_timestamp frame
  ∧ blen (frame_senderPubkey frame) = PUBLIC_KEY_SIZE
  ∧ blen (frame_signature frame) = SIGNATURE_SIZE
  ∧ blen (frame_payload frame) = blen b - 112
  ∧ drop 16 b
    = frame_senderPubkey frame ++ frame_payload frame
      ++ frame_signature frame.
Proof.
  rewrite deserializeFrame_cases.
  destruct (blen b <? 116) eqn:Hsmall; [done|]. apply Z.ltb_ge in Hsmall.
  destruct (blen b =? readUInt32BE b 0) eqn:Hfield; [|done].
  destruct (readUInt8 b 4 =? 1) eqn:Hver; [|done].
  cbn [negb]. intros [= <-]. unfold frameRead.
  cbn [frame_length frame_version frame_type frame_flags frame_timestamp
       frame_senderPubkey frame_payload frame_signature].
  unfold blen in Hsmall.
  assert (∀ (start : Z) (n : nat),
            0 ≤ decodeBE (subarray b start (start + Z.of_nat n))
            < 256 ^ Z.of_nat n) as Hrange.
  { intros start n.
    pose proof (decodeBE_range (subarray b start (start + Z.of_nat n))) as Hr.
    split; [lia|]. eapply Z.lt_le_trans; [apply Hr|].
    apply Z.pow_le_mono_r; [lia|]. unfold subarray. rewrite length_take. lia. }
  split; [done|]. split; [done|].
  split; [apply (Hrange 5 1%nat)|]. split; [apply (Hrange 6 2%nat)|].
  split; [apply Number_of_BigInt_nonneg, (Hrange 8 8%nat)|].
  unfold blen, subarray, PUBLIC_KEY_SIZE, SIGNATURE_SIZE.
  rewrite !length_take, !length_drop.
  split; [lia|]. split; [lia|]. split; [lia|].
  change (Z.to_nat 16) with 16%nat. change (Z.to_nat (48 - 16)) with 32%nat.
  change (Z.to_nat 48) with 48%nat.
  replace (drop 48 b) with (drop 32 (drop 16 b)) by (by rewrite drop_drop).
  replace (Z.to_nat (Z.of_nat (length b) - 64))
    with (16 + (32 + Z.to_nat (Z.of_nat (length b) - 64 - 48)))%nat by lia.
  rewrite <- !drop_drop.
  rewrite (take_ge (drop _ (drop 32 (drop 16 b))))
    by (rewrite !length_drop; lia).
  by rewrite !take_drop.
Qed.

(** X3. Parsing and serializing again gives the buffer back, as long as the
    timestamp it carries is below 2^53, where [Number] is exact. *)
Theorem serializeFrame_deserializeFrame (b : Buffer) (frame : Frame) :
  deserializeFrame b = inr frame →
  readBigUInt64BE b 8 < 2 ^ 53 →
  serializeFrame frame = b.
Proof.
  intros Hparsed Hstamp.
  assert (¬ refusedInput b ∧ frame = frameRead b) as [Hok ->].
  { revert Hparsed. rewrite deserializeFrame_cases. unfold refusedInput.
    destruct (blen b <? 116) eqn:Hsmall; [done|]. apply Z.ltb_ge in Hsmall.
    destruct (blen b =? readUInt32BE b 0) eqn:Hfield; [|done].
    apply Z.eqb_eq in Hfield.
    destruct (readUInt8 b 4 =? 1) eqn:Hver; [|done]. apply Z.eqb_eq in Hver.
    cbn [negb]. intros [= <-]. split; [lia|done]. }
  assert (116 ≤ length b)%nat as Hlen
    by (unfold refusedInput, blen in Hok; lia).
  pose proof (signedBytes_frameRead b Hok) as Hsigned.
  rewrite signedBytes_layout in Hsigned.
  2:{ cbn [frameRead frame_senderPubkey]. unfold subarray.
      rewrite length_take, length_drop. lia. }
  rewrite serializeFrame_layout.
  2:{ cbn [frameRead frame_senderPubkey]. unfold subarray.
      rewrite length_take, length_drop. lia. }
  2:{ cbn [frameRead frame_signature]. unfold subarray, blen.
      rewrite length_take, length_drop. lia. }
  rewrite (app_assoc (frameHeader _)), (app_assoc (frameHeader _ ++ _)).
  rewrite (app_assoc (frameHeader _)) in Hsigned. rewrite Hsigned.
  unfold readBigUInt64BE, subarray in Hstamp.
  change (Z.to_nat (8 + 8 - 8)) with 8%nat in Hstamp.
  change (Z.to_nat 8) with 8%nat in Hstamp.
  rewrite Number_of_BigInt_small by done.
  rewrite encodeBE_decodeBE_length by (rewrite length_take, length_drop; lia).
  cbn [frameRead frame_signature]. unfold subarray, blen.
  replace (Z.to_nat (Z.of_nat (length b) - 64)) with (length b - 64)%nat by lia.
  replace (Z.to_nat (Z.of_nat (length b) - (Z.of_nat (length b) - 64)))
    with 64%nat by lia.
  rewrite (take_ge (drop (length b - 64) b)) by (rewrite length_drop; lia).
  rewrite !app_assoc. rewrite (take_take_drop b 8 8).
  rewrite <- app_assoc.
  replace (length b - 64)%nat with (16 + (length b - 80))%nat by lia.
  rewrite <- drop_drop. rewrite take_drop. apply take_drop.
Qed.

Lemma deserializeFrame_blankBuffer :
  deserializeFrame blankBuffer = inr (frameRead blankBuffer).
Proof. by vm_compute. Qed.

Lemma deserializeFrame_wellformed_witness :
  blen (frame_payload (frameRead blankBuffer)) = 4
  ∧ blen (frame_senderPubkey (frameRead blankBuffer)) = PUBLIC_KEY_SIZE.
Proof.
  destruct (deserializeFrame_wellformed blankBuffer (frameRead blankBuffer)
              deserializeFrame_blankBuffer)
    as (_ & _ & _ & _ & _ & H1 & _ & H2 & _).
  split; [exact H2|exact H1].
Defined.

Lemma serializeFrame_deserializeFrame_witness :
  serializeFrame (frameRead blankBuffer) = blankBuffer.
Proof.
  apply (serializeFrame_deserializeFrame blankBuffer (frameRead blankBuffer)).
  - exact deserializeFrame_blankBuffer.
  - by vm_compute.
Defined.

(** * Further properties of signing *)

Lemma JSON_stringify_undefined (v : jsval) :
  JSON_stringify v = None ↔ v = JUndefined.
Proof. destruct v as [| |[]| | | |]; by split. Qed.

Lemma length_demoSign (message secretKey : Buffer) :
  length (demoSign message secretKey) = 64%nat.
Proof.
  unfold demoSign, demoDigest. rewrite length_app.
  destruct (length message <=? 61)%nat eqn:Hshort.
  - apply Nat.leb_le in Hshort. cbn [length].
    rewrite length_app, length_replicate. lia.
  - apply Nat.leb_gt in Hshort. cbn [length]. rewrite length_take. lia.
Qed.

Lemma demoVerify_demoSign (message : Buffer) :
  demoVerify message (demoSign message (secretKey demoKeyPair))
    (publicKey demoKeyPair) = true.
Proof. apply bool_decide_eq_true. reflexivity. Qed.

Section Signing.
Context `{Crypto} `{Runtime}.

(** X4. The round trip of a signed frame, where it holds: for a 32-byte
    public key, a scheme whose signatures have 64 bytes and verify, field
    values in the range of their fields, a clock below 2^53 and a payload
    whose JSON text has at least four bytes, the frame of [createFrame]
    is parsed back from its serialization field by field, and verifies. *)
Theorem createFrame_parses_and_verifies (type flags now : Z) (payload : jsval)
    (keyPair : KeyPair) (text : string) :
  length (publicKey keyPair) = 32%nat →
  (∀ message, length (crypto_sign message (secretKey keyPair)) = 64%nat) →
  (∀ message, crypto_verify message
                (crypto_sign message (secretKey keyPair))
                (publicKey keyPair) = true) →
  0 ≤ type < 256 → 0 ≤ flags < 65536 → 0 ≤ now < 2 ^ 53 →
  JSON_stringify payload = Some text →
  4 ≤ blen (Buffer_from text) < 2 ^ 32 - 112 →
  ∃ frame : Frame,
    createFrame type payload keyPair flags now = inr frame
    ∧ deserializeFrame (serializeFrame frame) = inr frame
    ∧ verifyFrame frame = true.
Proof.
  intros Hpk Hlen Hagree Htype Hflags Hnow Htext Hsize.
  destruct (createFrame_payload type payload keyPair flags now text Htext)
    as (frame & Hmade & Hpayload).
  exists frame. split; [exact Hmade|].
  destruct (createFrame_fields _ _ _ _ _ _ Hmade)
    as (_ & _ & _ & _ & _ & _ & Hsig).
  split; [|by apply (createFrame_verifies type flags now payload keyPair)].
  apply (createFrame_roundtrip type flags now payload keyPair); try done.
  - rewrite Hsig. apply Hlen.
  - rewrite Hpayload. unfold blen in Hsize. lia.
  - unfold blen in *. rewrite length_serializeFrame, Hpayload. lia.
Qed.

(** What [createFrame] returns. *)
Lemma createFrame_outcome (type flags now : Z) (payload : jsval)
    (keyPair : KeyPair) :
  ∃ frame : Frame,
    createFrame type payload keyPair flags now = inr frame
    ∧ frame_payload frame = Buffer_from_text (JSON_stringify payload)
    ∧ frame_version frame = PROTOCOL_VERSION
    ∧ frame_type frame = type
    ∧ frame_flags frame = flags
    ∧ frame_timestamp frame = now
    ∧ frame_senderPubkey frame = publicKey keyPair
    ∧ frame_length frame = blen (serializeFrame frame)
    ∧ frame_signature frame
      = crypto_sign (signedBytes frame) (secretKey keyPair).
Proof.
  destruct (createFrame type payload keyPair flags now) as [err|frame]
    eqn:Hmade; [discriminate Hmade|].
  exists frame. split; [reflexivity|].
  destruct (createFrame_fields _ _ _ _ _ _ Hmade)
    as (Hv & Ht & Hf & Hts & Hsender & Hl & Hsig).
  split; [by injection Hmade as <-|].
  repeat (split; [assumption|]).
  split; [|exact Hsig].
  rewrite Hl. unfold blen. rewrite length_serializeFrame. lia.
Qed.

(** X5. [createFrame] returns a frame for every payload, [undefined]
    included: [JSON.stringify] has no text for [undefined], of which
    [Buffer.from] makes the empty buffer.  The frame carries the bytes of
    the JSON text of the payload, the given type, flags and clock, version
    1, the public key of the pair as sender, a [length] field that is the
    size of its serialization, and the signature of the bytes before the
    signature.  For [undefined] the frame has no payload and 112 bytes,
    which [deserializeFrame] refuses. *)
Theorem createFrame_returns (type flags now : Z) (payload : jsval)
    (keyPair : KeyPair) :
  ∃ frame : Frame,
    createFrame type payload keyPair flags now = inr frame
    ∧ (∀ text, JSON_stringify payload = Some text →
               frame_payload frame = Buffer_from text)
    ∧ frame_version frame = PROTOCOL_VERSION
    ∧ frame_type frame = type
    ∧ frame_flags frame = flags
    ∧ frame_timestamp frame = now
    ∧ frame_senderPubkey frame = publicKey keyPair
    ∧ frame_length frame = blen (serializeFrame frame)
    ∧ frame_signature frame
      = crypto_sign (signedBytes frame) (secretKey keyPair)
    ∧ (payload = JUndefined →
       frame_payload frame = []
       ∧ blen (serializeFrame frame) = 112
       ∧ deserializeFrame (serializeFrame frame)
         = inl (BufferTooSmall 112 116)).
Proof.
  destruct (createFrame_outcome type flags now payload keyPair)
    as (frame & Hmade & Hpayload & Hv & Ht & Hf & Hts & Hsender & Hl & Hsig).
  exists frame. split; [exact Hmade|].
  split; [intros text Htext; by rewrite Hpayload, Htext|].
  repeat (split; [assumption|]).
  intros ->. cbn [JSON_stringify Buffer_from_text] in Hpayload.
  assert (blen (serializeFrame frame) = 112) as Hsize.
  { unfold blen. rewrite length_serializeFrame, Hpayload. reflexivity. }
  split; [exact Hpayload|]. split; [exact Hsize|].
  rewrite deserializeFrame_cases, Hsize. reflexivity.
Qed.

(** X6. The message helpers: each returns a frame with its type byte, no
    flags and the clock as timestamp, whatever its argument is.  A
    heartbeat carries the clock in its payload as well. *)
Theorem message_helpers_return (keyPair : KeyPair) (now : Z) (v : jsval) :
  (∃ frame, createHeartbeat keyPair now = inr frame
            ∧ frame_type frame = MessageType.CONTROL
            ∧ frame_flags frame = 0
            ∧ frame_timestamp frame = now
            ∧ JSON_stringify
                (JObj [("type", JStr "heartbeat"); ("timestamp", JNum now)]%string)
              = Some (string_of_list_byte (frame_payload frame)))
  ∧ (∃ frame, createCapabilities v keyPair now = inr frame
              ∧ frame_type frame = MessageType.CONTROL
              ∧ frame_flags frame = 0
              ∧ frame_timestamp frame = now
              ∧ JSON_stringify
                  (JObj [("type", JStr "capabilities"); ("data", v)]%string)
                = Some (string_of_list_byte (frame_payload frame)))
  ∧ (∃ frame, createRequest v keyPair now = inr frame
              ∧ frame_type frame = MessageType.REQUEST
              ∧ frame_flags frame = 0
              ∧ frame_timestamp frame = now
              ∧ frame_payload frame = Buffer_from_text (JSON_stringify v))
  ∧ (∃ frame, createResponse v keyPair now = inr frame
              ∧ frame_type frame = MessageType.RESPONSE
              ∧ frame_flags frame = 0
              ∧ frame_timestamp frame = now
              ∧ frame_payload frame = Buffer_from_text (JSON_stringify v))
  ∧ (∃ frame, createEvent v keyPair now = inr frame
              ∧ frame_type frame = MessageType.EVENT
              ∧ frame_flags frame = 0
              ∧ frame_timestamp frame = now
              ∧ frame_payload frame = Buffer_from_text (JSON_stringify v)).
Proof.
  split; [|split; [|split; [|split]]].
  - unfold createHeartbeat.
    destruct (createFrame_outcome MessageType.CONTROL 0 now
                (JObj [("type", JStr "heartbeat"); ("timestamp", JNum now)]%string)
                keyPair) as (frame & Hmade & Hpayload & _ & Ht & Hf & Hts & _).
    exists frame. repeat (split; [assumption|]).
    destruct (JSON_stringify _) as [text|] eqn:Htext; [|discriminate Htext].
    rewrite Hpayload. unfold Buffer_from_text, Buffer_from.
    by rewrite string_of_list_byte_of_string.
  - unfold createCapabilities.
    destruct (createFrame_outcome MessageType.CONTROL 0 now
                (JObj [("type", JStr "capabilities"); ("data", v)]%string)
                keyPair) as (frame & Hmade & Hpayload & _ & Ht & Hf & Hts & _).
    exists frame. repeat (split; [assumption|]).
    destruct (JSON_stringify _) as [text|] eqn:Htext; [|discriminate Htext].
    rewrite Hpayload. unfold Buffer_from_text, Buffer_from.
    by rewrite string_of_list_byte_of_string.
  - unfold createRequest.
    destruct (createFrame_outcome MessageType.REQUEST 0 now v keyPair)
      as (frame & Hmade & Hpayload & _ & Ht & Hf & Hts & _).
    by exists frame.
  - unfold createResponse.
    destruct (createFrame_outcome MessageType.RESPONSE 0 now v keyPair)
      as (frame & Hmade & Hpayload & _ & Ht & Hf & Hts & _).
    by exists frame.
  - unfold createEvent.
    destruct (createFrame_outcome MessageType.EVENT 0 now v keyPair)
      as (frame & Hmade & Hpayload & _ & Ht & Hf & Hts & _).
    by exists frame.
Qed.

End Signing.

Lemma createFrame_parses_and_verifies_witness :
  ∃ frame : Frame,
    @createFrame demoCrypto MessageType.EVENT demoPayload demoKeyPair 0
      1700000000000 = inr frame
    ∧ deserializeFrame (serializeFrame frame) = inr frame
    ∧ @verifyFrame demoCrypto frame = true.
Proof.
  apply (@createFrame_parses_and_verifies demoCrypto MessageType.EVENT 0
           1700000000000 demoPayload demoKeyPair
           (default EmptyString (JSON_stringify demoPayload))).
  - reflexivity.
  - intros message. apply length_demoSign.
  - apply demoVerify_demoSign.
  - by vm_compute.
  - lia.
  - lia.
  - reflexivity.
  - by vm_compute.
Defined.


(** * Further properties of cycle detection *)

Lemma detectCircularTrust_NoDup (trustPath : list string) (ownPubkey : string) :
  detectCircularTrust trustPath ownPubkey = false
  ↔ NoDup (ownPubkey :: trustPath).
Proof.
  rewrite NoDup_cons. unfold detectCircularTrust.
  destruct (decide (ownPubkey ∈ trustPath)) as [Hin|Hnin].
  - split; [done|]. by intros [? _].
  - pose proof (seenLoop_spec trustPath ∅) as Hloop.
    destruct (seenLoop ∅ trustPath).
    + split; [done|]. intros [_ Hnd].
      destruct Hloop as [Hloop _].
      destruct (Hloop eq_refl) as [(x & _ & Hx)|Hdup]; [set_solver|done].
    + split; [|done]. intros _. split; [done|].
      destruct (decide (NoDup trustPath)) as [Hnd|Hnd]; [done|].
      destruct Hloop as [_ Hloop]. by discriminate Hloop; right.
Qed.

(** X8. Cycle detection on composed trust paths.  A concatenated path is
    free of cycles exactly when both parts are and they share no key; the
    answer does not depend on the order of the keys; and a path to which a
    node has appended its own key is circular for that node. *)
Theorem detectCircularTrust_compose :
  (∀ (p q : list string) (own : string),
     detectCircularTrust (p ++ q) own = false
     ↔ detectCircularTrust p own = false
       ∧ detectCircularTrust q own = false
       ∧ ∀ x, x ∈ p → x ∉ q)
  ∧ (∀ (p q : list string) (own : string),
       p ≡ₚ q → detectCircularTrust p own = detectCircularTrust q own)
  ∧ (∀ (p : list string) (own : string),
       detectCircularTrust (p ++ [own]) own = true).
Proof.
  split; [|split].
  - intros p q own. rewrite !detectCircularTrust_NoDup.
    rewrite !NoDup_cons, NoDup_app, elem_of_app. tauto.
  - intros p q own Hperm.
    destruct (detectCircularTrust q own) eqn:Hq.
    + destruct (detectCircularTrust p own) eqn:Hp; [done|].
      apply detectCircularTrust_NoDup in Hp.
      rewrite Hperm in Hp. apply detectCircularTrust_NoDup in Hp. congruence.
    + apply detectCircularTrust_NoDup. rewrite Hperm.
      by apply detectCircularTrust_NoDup.
  - intros p own. unfold detectCircularTrust.
    rewrite decide_True; [done|]. apply elem_of_app. right. by left.
Qed.

(** * The write queue *)

Lemma processWriteLoop_step (fuel : nat) (w : Session) (buffer : Buffer)
    (rest : list Buffer) :
  writeQueue w = buffer :: rest →
  writeDraining w = false →
  processWriteLoop (S fuel) w
  = processWriteLoop fuel
      (set_writeDraining
         (negb (stream_write buffer (set_writeQueue rest w)).1)
         (stream_write buffer (set_writeQueue rest w)).2).
Proof. intros Hq Hd. cbn [processWriteLoop]. rewrite Hq, Hd. reflexivity. Qed.

Lemma processWriteLoop_empty (fuel : nat) (w : Session) :
  writeQueue w = [] → processWriteLoop fuel w = w.
Proof. intros Hq. destruct fuel; cbn [processWriteLoop]; by rewrite ?Hq. Qed.

Lemma processWriteLoop_draining (fuel : nat) (w : Session) :
  writeDraining w = true → processWriteLoop fuel w = w.
Proof.
  intros Hd. destruct fuel; cbn [processWriteLoop]; [done|].
  destruct (writeQueue w); [done|]. by rewrite Hd.
Qed.

Lemma processWriteLoop_accepted (queue : list Buffer) :
  ∀ (fuel : nat) (w : Session),
    writeQueue w = queue → writeDraining w = false →
    (length queue ≤ fuel)%nat →
    (∀ i, (i < length queue)%nat → streamReady w !! i ≠ Some false) →
    processWriteLoop fuel w
    = flushed (map (λ b, (b, true)) queue) [] false w.
Proof.
  induction queue as [|buffer rest IH]; intros fuel w Hq Hd Hfuel Hready.
  - rewrite processWriteLoop_empty by done.
    destruct w. cbn in Hq, Hd. subst. unfold flushed. session_eval.
    cbn [map length drop]. by rewrite app_nil_r.
  - destruct fuel as [|fuel]; [cbn in Hfuel; lia|].
    rewrite (processWriteLoop_step fuel w buffer rest Hq Hd).
    assert (match streamReady w with [] => true | b :: _ => b end = true)
      as Hfirst.
    { specialize (Hready 0%nat). destruct (streamReady w) as [|[] ?]; try done.
      exfalso. apply Hready; [cbn; lia|done]. }
    rewrite IH.
    + destruct w as [? ? ? ? ? ? ? ? ? ? ? queue draining ? ?
                       ? ? ? ? ? ? ? ? ready tr].
      cbn in Hq, Hd, Hfirst. subst queue draining.
      unfold flushed. session_eval. rewrite Hfirst.
      cbn [negb map length fst snd]. rewrite <- app_assoc. cbn [app].
      rewrite length_map.
      destruct ready; cbn [tail]; rewrite ?drop_nil; reflexivity.
    + by destruct w.
    + destruct w. cbn in Hfirst |- *. unfold stream_write. cbn.
      by rewrite Hfirst.
    + cbn in Hfuel. lia.
    + intros i Hi. specialize (Hready (S i)).
      destruct w. cbn in Hready |- *.
      match goal with |- context [tail ?r] => destruct r as [|? ?] end;
        [done|]. cbn [tail]. apply Hready. cbn. lia.
Qed.

Lemma processWriteLoop_refused (accepted : list Buffer) :
  ∀ (fuel : nat) (w : Session) (buffer : Buffer) (rest : list Buffer)
    (answers : list bool),
    writeQueue w = accepted ++ buffer :: rest → writeDraining w = false →
    (length accepted < fuel)%nat →
    streamReady w = replicate (length accepted) true ++ false :: answers →
    processWriteLoop fuel w
    = flushed (map (λ b, (b, true)) accepted ++ [(buffer, false)]) rest true w.
Proof.
  induction accepted as [|first accepted IH];
    intros fuel w buffer rest answers Hq Hd Hfuel Hready.
  - destruct fuel as [|fuel]; [cbn in Hfuel; lia|].
    cbn [app length replicate] in Hq, Hready.
    rewrite (processWriteLoop_step fuel w buffer rest Hq Hd).
    rewrite processWriteLoop_draining.
    + destruct w as [? ? ? ? ? ? ? ? ? ? ? queue draining ? ?
                       ? ? ? ? ? ? ? ? ready tr].
      cbn in Hq, Hd, Hready. subst queue draining ready.
      unfold flushed. session_eval. reflexivity.
    + destruct w. cbn in Hready |- *. unfold stream_write. cbn.
      by rewrite Hready.
  - destruct fuel as [|fuel]; [cbn in Hfuel; lia|].
    cbn [app length replicate] in Hq, Hready.
    rewrite (processWriteLoop_step fuel w first _ Hq Hd).
    rewrite (IH _ _ buffer rest answers).
    + destruct w as [? ? ? ? ? ? ? ? ? ? ? queue draining ? ?
                       ? ? ? ? ? ? ? ? ready tr].
      cbn in Hq, Hd, Hready. subst queue draining ready.
      unfold flushed. session_eval.
      cbn [negb map length fst snd app]. rewrite <- app_assoc. reflexivity.
    + by destruct w.
    + destruct w. cbn in Hready |- *. unfold stream_write. cbn.
      by rewrite Hready.
    + cbn in Hfuel. lia.
    + destruct w. cbn in Hready |- *. by rewrite Hready.
Qed.

Lemma processWriteLoop_exit (fuel : nat) :
  ∀ w : Session,
    (length (writeQueue w) ≤ fuel)%nat →
    writeQueue (processWriteLoop fuel w) = []
    ∨ writeDraining (processWriteLoop fuel w) = true.
Proof.
  induction fuel as [|fuel IH]; intros w Hfuel.
  - left. cbn [processWriteLoop]. destruct (writeQueue w); [done|].
    cbn in Hfuel. lia.
  - destruct (writeQueue w) as [|buffer rest] eqn:Hq.
    { left. by rewrite processWriteLoop_empty. }
    destruct (writeDraining w) eqn:Hd.
    { right. by rewrite processWriteLoop_draining. }
    rewrite (processWriteLoop_step fuel w buffer rest Hq Hd).
    apply IH. destruct w. cbn in Hfuel |- *. lia.
Qed.

(** X9. A drain on a stream that takes everything: [processWriteQueue]
    writes every queued buffer once, in the order of the queue, leaves the
    queue empty and [writeDraining] down, and touches nothing else. *)
Theorem processWriteQueue_flushes (w : Session) :
  (∀ i, (i < length (writeQueue w))%nat → streamReady w !! i ≠ Some false) →
  processWriteQueue w
  = flushed (map (λ b, (b, true)) (writeQueue w)) [] false w.
Proof.
  intros Hready. unfold processWriteQueue.
  rewrite (processWriteLoop_accepted (writeQueue w)).
  - destruct w. unfold flushed. session_eval. reflexivity.
  - by destruct w.
  - by destruct w.
  - by destruct w.
  - by destruct w.
Qed.

(** X10. A drain on a stream that refuses a write: [processWriteQueue]
    writes the buffers up to and including the refused one, in order, keeps
    the rest queued and raises [writeDraining]; the refused buffer is not
    kept. *)
Theorem processWriteQueue_stops (w : Session) (accepted rest : list Buffer)
    (buffer : Buffer) (answers : list bool) :
  writeQueue w = accepted ++ buffer :: rest →
  streamReady w = replicate (length accepted) true ++ false :: answers →
  processWriteQueue w
  = flushed (map (λ b, (b, true)) accepted ++ [(buffer, false)]) rest true w.
Proof.
  intros Hq Hready. unfold processWriteQueue.
  rewrite (processWriteLoop_refused accepted _ _ buffer rest answers).
  - destruct w. unfold flushed. session_eval. reflexivity.
  - by destruct w.
  - by destruct w.
  - destruct w. cbn in Hq |- *. rewrite Hq, length_app. cbn. lia.
  - by destruct w.
Qed.

(** X11. [processWriteQueue] ends as its loop does: with the queue empty
    or with [writeDraining] up.  (The length of the queue is fuel enough
    for the loop.) *)
Theorem processWriteQueue_exit (w : Session) :
  writeQueue (processWriteQueue w) = []
  ∨ writeDraining (processWriteQueue w) = true.
Proof. unfold processWriteQueue. apply processWriteLoop_exit. by destruct w. Qed.

(** * Timer and promise handles of the embedding *)

Lemma callbackFresh_mono (np np' : nat) (cb : TimerCallback) :
  (np ≤ np')%nat → callbackFresh np cb → callbackFresh np' cb.
Proof. destruct cb; cbn; lia. Qed.

Lemma taskFresh_mono (np np' : nat) (t : Task) :
  (np ≤ np')%nat → taskFresh np t → taskFresh np' t.
Proof. destruct t; cbn; lia. Qed.

Lemma catcherFresh_mono (np np' : nat) (c : Catcher) :
  (np ≤ np')%nat → catcherFresh np c → catcherFresh np' c.
Proof. destruct c; cbn; lia. Qed.

Lemma grows_refl (w : Session) : fresh w → grows w w.
Proof. intros Hf. by split; [|split]. Qed.

Lemma grows_trans (w1 w2 w3 : Session) :
  grows w1 w2 → grows w2 w3 → grows w1 w3.
Proof. intros (_ & ? & ?) (? & ? & ?). split; [done|]. split; lia. Qed.

Lemma grows_fresh (w w' : Session) : grows w w' → fresh w'.
Proof. by intros [? _]. Qed.

(** A session that differs from a fresh one in none of the fields that
    hold handles, or only by larger counters, is fresh. *)
Lemma grows_counters (w w' : Session) :
  timers w' = timers w → promises w' = promises w →
  pendingRequests w' = pendingRequests w → immediates w' = immediates w →
  microtasks w' = microtasks w → catchers w' = catchers w →
  heartbeatTimer w' = heartbeatTimer w →
  heartbeatTimeoutTimer w' = heartbeatTimeoutTimer w →
  (nextPromise w ≤ nextPromise w')%nat → (nextTimer w ≤ nextTimer w')%nat →
  fresh w → grows w w'.
Proof.
  intros Ht Hp Hpd Him Hmi Hc Hh Hh' Hnp Hnt
    (Ft & Fp & Fpd & Fim & Fmi & Fc & Fh).
  split; [|done]. unfold fresh. rewrite Ht, Hp, Hpd, Him, Hmi, Hc, Hh, Hh'.
  split; [|split; [|split; [|split; [|split; [|split]]]]].
  - intros h t Hl. destruct (Ft h t Hl) as [? ?].
    split; [lia|by eapply callbackFresh_mono].
  - intros p o Hl. specialize (Fp p o Hl). lia.
  - intros id pd Hl. destruct (Fpd id pd Hl). lia.
  - eapply Forall_impl; [exact Fim|]. intros t. by apply taskFresh_mono.
  - eapply Forall_impl; [exact Fmi|]. intros t. by apply taskFresh_mono.
  - intros q c Hl. eapply catcherFresh_mono; [done|]. by eapply Fc.
  - intros h Hl. specialize (Fh h Hl). lia.
Qed.

Lemma grows_log (e : Effect) (w : Session) : fresh w → grows w (log e w).
Proof. intros. same_handles. Qed.

Lemma grows_armTimer (cb : TimerCallback) (delay : Z) (every : option Z)
    (w : Session) :
  fresh w → callbackFresh (nextPromise w) cb →
  grows w (armTimer cb delay every w).2.
Proof.
  intros (Ft & Fp & Fpd & Fim & Fmi & Fc & Fh) Hcb.
  destruct w as [? ? ? ? ? ? ? ? pend ? ? ? ? hb hbt
                   now tm nt im mi pr np ca ? ?].
  unfold grows, fresh in *. session_eval_all.
  split; [|lia].
  split; [|split; [|split; [|split; [|split; [|split]]]]]; try assumption.
  - intros h t [[<- <-]|[Hne Hl]]%lookup_insert_Some; [split; [lia|done]|].
    destruct (Ft h t Hl). split; [lia|done].
  - intros id pd Hl. destruct (Fpd id pd Hl). lia.
  - intros h Hl. specialize (Fh h Hl). lia.
Qed.

Lemma grows_clearTimeout (h : nat) (w : Session) :
  fresh w → grows w (clearTimeout h w).
Proof.
  intros (Ft & Fp & Fpd & Fim & Fmi & Fc & Fh).
  destruct w as [? ? ? ? ? ? ? ? pend ? ? ? ? hb hbt
                   now tm nt im mi pr np ca ? ?].
  unfold grows, fresh in *. session_eval_all.
  split; [|lia].
  split; [|split; [|split; [|split; [|split; [|split]]]]]; try assumption.
  intros h' t [_ Hl]%lookup_delete_Some. by apply Ft.
Qed.

Lemma grows_settle (p : nat) (o : Outcome) (w : Session) :
  fresh w → (p < nextPromise w)%nat →
  grows w (set_promises (<[p := o]> (promises w)) w).
Proof.
  intros (Ft & Fp & Fpd & Fim & Fmi & Fc & Fh) Hp.
  destruct w as [? ? ? ? ? ? ? ? pend ? ? ? ? hb hbt
                   now tm nt im mi pr np ca ? ?].
  unfold grows, fresh in *. session_eval_all.
  split; [|lia].
  split; [|split; [|split; [|split; [|split; [|split]]]]]; try assumption.
  intros q o' [[<- _]|[_ Hl]]%lookup_insert_Some; [done|]. by eapply Fp.
Qed.

Lemma grows_resolve (p : nat) (v : jsval) (w : Session) :
  fresh w → (p < nextPromise w)%nat → grows w (resolve p v w).
Proof.
  intros Hf Hp. unfold resolve.
  destruct (promises w !! p); [by apply grows_refl|].
  eapply grows_trans; [by apply (grows_settle p (Resolved v))|].
  apply grows_log. eapply grows_fresh. by apply grows_settle.
Qed.

Lemma grows_task (t : Task) (w : Session) :
  fresh w → taskFresh (nextPromise w) t →
  grows w (set_microtasks (microtasks w ++ [t]) w)
  ∧ grows w (set_immediates (immediates w ++ [t]) w).
Proof.
  intros (Ft & Fp & Fpd & Fim & Fmi & Fc & Fh) Ht.
  destruct w as [? ? ? ? ? ? ? ? pend ? ? ? ? hb hbt
                   now tm nt im mi pr np ca ? ?].
  unfold grows, fresh in *. session_eval_all.
  split; (split; [|lia]);
    (split; [|split; [|split; [|split; [|split; [|split]]]]]);
    try assumption; apply Forall_app; split; try assumption;
    by apply Forall_singleton.
Qed.

Lemma grows_reject (p : nat) (err : JsError) (w : Session) :
  fresh w → (p < nextPromise w)%nat → grows w (reject p err w).
Proof.
  intros Hf Hp. unfold reject.
  destruct (promises w !! p); [by apply grows_refl|].
  cbv zeta.
  set (w1 := log _ _).
  assert (grows w w1) as Hg.
  { eapply grows_trans; [by apply (grows_settle p (Rejected err))|].
    apply grows_log. eapply grows_fresh. by apply grows_settle. }
  destruct (catchers w1 !! p) as [[id timer q|]|] eqn:Hc; try exact Hg.
  eapply grows_trans; [exact Hg|]. apply grows_task; [by eapply grows_fresh|].
  destruct Hg as ((_ & _ & _ & _ & _ & Fc & _) & _).
  exact (Fc p _ Hc).
Qed.

Lemma grows_pendingDelete (id : string) (w : Session) :
  fresh w → grows w (pendingDelete id w).
Proof.
  intros (Ft & Fp & Fpd & Fim & Fmi & Fc & Fh).
  destruct w as [? ? ? ? ? ? ? ? pend ? ? ? ? hb hbt
                   now tm nt im mi pr np ca ? ?].
  unfold grows, fresh in *. session_eval_all.
  split; [|lia].
  split; [|split; [|split; [|split; [|split; [|split]]]]]; try assumption.
  intros id' pd [_ Hl]%lookup_delete_Some. by eapply Fpd.
Qed.

Lemma grows_pendingClear (w : Session) :
  fresh w → grows w (set_pendingRequests ∅ w).
Proof.
  intros (Ft & Fp & Fpd & Fim & Fmi & Fc & Fh).
  destruct w as [? ? ? ? ? ? ? ? pend ? ? ? ? hb hbt
                   now tm nt im mi pr np ca ? ?].
  unfold grows, fresh in *. session_eval_all.
  split; [|lia].
  split; [|split; [|split; [|split; [|split; [|split]]]]]; try assumption.
  intros id' pd Hl. by rewrite lookup_empty in Hl.
Qed.

Lemma grows_pendingSet (id : string) (pending : Pending) (w : Session) :
  fresh w →
  (pending_promise pending < nextPromise w)%nat →
  (pending_timer pending < nextTimer w)%nat →
  grows w (set_pendingRequests (<[id := pending]> (pendingRequests w)) w).
Proof.
  intros (Ft & Fp & Fpd & Fim & Fmi & Fc & Fh) Hp Ht.
  destruct w as [? ? ? ? ? ? ? ? pend ? ? ? ? hb hbt
                   now tm nt im mi pr np ca ? ?].
  unfold grows, fresh in *. session_eval_all.
  split; [|lia].
  split; [|split; [|split; [|split; [|split; [|split]]]]]; try assumption.
  intros id' pd [[_ <-]|[_ Hl]]%lookup_insert_Some; [done|]. by eapply Fpd.
Qed.

Lemma grows_catcher (q : nat) (c : Catcher) (w : Session) :
  fresh w → catcherFresh (nextPromise w) c →
  grows w (set_catchers (<[q := c]> (catchers w)) w).
Proof.
  intros (Ft & Fp & Fpd & Fim & Fmi & Fc & Fh) Hc.
  destruct w as [? ? ? ? ? ? ? ? pend ? ? ? ? hb hbt
                   now tm nt im mi pr np ca ? ?].
  unfold grows, fresh in *. session_eval_all.
  split; [|lia].
  split; [|split; [|split; [|split; [|split; [|split]]]]]; try assumption.
  intros q' c' [[_ <-]|[_ Hl]]%lookup_insert_Some; [done|]. by eapply Fc.
Qed.

Lemma grows_heartbeatTimer (handle : option nat) (w : Session) :
  fresh w → (∀ h, handle = Some h → (h < nextTimer w)%nat) →
  grows w (set_heartbeatTimer handle w)
  ∧ grows w (set_heartbeatTimeoutTimer handle w).
Proof.
  intros (Ft & Fp & Fpd & Fim & Fmi & Fc & Fh) Hh.
  destruct w as [? ? ? ? ? ? ? ? pend ? ? ? ? hb hbt
                   now tm nt im mi pr np ca ? ?].
  unfold grows, fresh in *. session_eval_all.
  split; (split; [|lia]);
    (split; [|split; [|split; [|split; [|split; [|split]]]]]);
    try assumption; intros h [Hl|Hl]; auto.
Qed.

Lemma grows_nextPromise (w : Session) :
  fresh w → grows w (set_nextPromise (S (nextPromise w)) w).
Proof.
  intros Hf. apply grows_counters; try reflexivity; try assumption.
  destruct w; cbn; lia.
Qed.

Lemma grows_timers_known (h : nat) (t t' : Timer) (w : Session) :
  fresh w → timers w !! h = Some t → callback t' = callback t →
  grows w (set_timers (<[h := t']> (timers w)) w)
  ∧ grows w (set_timers (delete h (timers w)) w).
Proof.
  intros (Ft & Fp & Fpd & Fim & Fmi & Fc & Fh) Hl Hcb.
  destruct w as [? ? ? ? ? ? ? ? pend ? ? ? ? hb hbt
                   now tm nt im mi pr np ca ? ?].
  unfold grows, fresh in *. session_eval_all.
  split; (split; [|lia]);
    (split; [|split; [|split; [|split; [|split; [|split]]]]]);
    try assumption.
  - intros h' t0 [[<- <-]|[_ Hl']]%lookup_insert_Some; [|by apply Ft].
    rewrite Hcb. by apply Ft.
  - intros h' t0 [_ Hl']%lookup_delete_Some. by apply Ft.
Qed.

Lemma grows_tasks_pop (t : Task) (rest : list Task) (w : Session) :
  fresh w →
  (microtasks w = t :: rest → grows w (set_microtasks rest w))
  ∧ (immediates w = t :: rest → grows w (set_immediates rest w)).
Proof.
  intros (Ft & Fp & Fpd & Fim & Fmi & Fc & Fh).
  destruct w as [? ? ? ? ? ? ? ? pend ? ? ? ? hb hbt
                   now tm nt im mi pr np ca ? ?].
  unfold grows, fresh in *. session_eval_all.
  split; intros ->; (split; [|lia]);
    (split; [|split; [|split; [|split; [|split; [|split]]]]]);
    try assumption.
  - by apply Forall_cons in Fmi as [_ ?].
  - by apply Forall_cons in Fim as [_ ?].
Qed.

(** ** The methods keep handles fresh *)

Lemma grows_stopHeartbeat (w : Session) : fresh w → grows w (stopHeartbeat w).
Proof.
  intros Hf. unfold stopHeartbeat.
  set (w1 := match heartbeatTimer w with Some _ => _ | None => _ end).
  assert (grows w w1) as Hg.
  { subst w1. destruct (heartbeatTimer w) as [h|]; [|by apply grows_refl].
    eapply grows_trans; [by apply grows_clearTimeout|].
    apply grows_heartbeatTimer; [|done].
    eapply grows_fresh. by apply grows_clearTimeout. }
  clearbody w1. eapply grows_trans; [exact Hg|].
  apply grows_fresh in Hg.
  destruct (heartbeatTimeoutTimer w1) as [h|]; [|by apply grows_refl].
  eapply grows_trans; [by apply grows_clearTimeout|].
  apply grows_heartbeatTimer; [|done].
  eapply grows_fresh. by apply grows_clearTimeout.
Qed.

Lemma grows_resetHeartbeatTimeout (w : Session) :
  fresh w → grows w (resetHeartbeatTimeout w).
Proof.
  intros Hf. unfold resetHeartbeatTimeout.
  set (w1 := match heartbeatTimeoutTimer w with Some _ => _ | None => _ end).
  assert (grows w w1) as Hg.
  { subst w1. destruct (heartbeatTimeoutTimer w) as [h|];
      [by apply grows_clearTimeout|by apply grows_refl]. }
  clearbody w1. eapply grows_trans; [exact Hg|].
  apply grows_fresh in Hg. unfold setTimeout.
  pose proof (grows_armTimer LivenessExpired (heartbeatTimeout w1) None w1
                Hg I) as Harm.
  destruct (armTimer LivenessExpired (heartbeatTimeout w1) None w1)
    as [h w2] eqn:Heq.
  assert (h = nextTimer w1 ∧ nextTimer w2 = S (nextTimer w1)) as [-> Hnext].
  { unfold armTimer in Heq. injection Heq as <- <-. by destruct w1. }
  cbn [snd] in Harm. eapply grows_trans; [exact Harm|].
  apply grows_heartbeatTimer; [by eapply grows_fresh|].
  intros h [= <-]. lia.
Qed.

Lemma grows_startHeartbeat (w : Session) :
  fresh w → grows w (startHeartbeat w).
Proof.
  intros Hf. unfold startHeartbeat, setInterval.
  pose proof (grows_armTimer HeartbeatTick (heartbeatInterval w)
                (Some (heartbeatInterval w)) w Hf I) as Harm.
  destruct (armTimer HeartbeatTick (heartbeatInterval w)
              (Some (heartbeatInterval w)) w) as [h w2] eqn:Heq.
  assert (h = nextTimer w ∧ nextTimer w2 = S (nextTimer w)) as [-> Hnext].
  { unfold armTimer in Heq. injection Heq as <- <-. by destruct w. }
  cbn [snd] in Harm. eapply grows_trans; [exact Harm|].
  assert (grows w2 (set_heartbeatTimer (Some (nextTimer w)) w2)) as Hset.
  { apply grows_heartbeatTimer; [by eapply grows_fresh|].
    intros h [= <-]. lia. }
  eapply grows_trans; [exact Hset|].
  apply grows_resetHeartbeatTimeout. by eapply grows_fresh.
Qed.

Lemma grows_rejectEntries (err : JsError) (l : list (string * Pending)) :
  ∀ w : Session,
    fresh w →
    Forall (λ e, (pending_promise e.2 < nextPromise w)%nat) l →
    grows w (foldl (rejectEntry err) w l).
Proof.
  induction l as [|e l IH]; intros w Hf Hl; [by apply grows_refl|].
  apply Forall_cons in Hl as [He Hl]. cbn [foldl].
  assert (grows w (rejectEntry err w e)) as Hg.
  { unfold rejectEntry.
    eapply grows_trans; [by apply grows_clearTimeout|].
    apply grows_reject; [eapply grows_fresh; by apply grows_clearTimeout|].
    by destruct w. }
  eapply grows_trans; [exact Hg|]. apply IH; [by eapply grows_fresh|].
  eapply Forall_impl; [exact Hl|]. intros e' He'. cbn in He'.
  destruct Hg as (_ & ? & _). lia.
Qed.

Lemma grows_rejectAllPending (err : JsError) (w : Session) :
  fresh w → grows w (rejectAllPending err w).
Proof.
  intros Hf. unfold rejectAllPending.
  change (foldl _ w (map_to_list (pendingRequests w)))
    with (foldl (rejectEntry err) w (map_to_list (pendingRequests w))).
  apply grows_rejectEntries; [done|].
  apply Forall_forall. intros [id pending] Hin%elem_of_map_to_list.
  destruct Hf as (_ & _ & Fpd & _). by destruct (Fpd id pending Hin).
Qed.

Lemma grows_destroy (w : Session) : fresh w → grows w (destroy w).
Proof.
  intros Hf. unfold destroy. destruct (destroyed w); [by apply grows_refl|].
  cbv zeta.
  assert (grows w (set_destroyed true w)) as H1 by same_handles.
  eapply grows_trans; [exact H1|]. apply grows_fresh in H1.
  assert (grows (set_destroyed true w) (stopHeartbeat (set_destroyed true w)))
    as H2 by (by apply grows_stopHeartbeat).
  eapply grows_trans; [exact H2|]. apply grows_fresh in H2.
  set (w2 := stopHeartbeat _) in *. clearbody w2.
  assert (grows w2 (log FxStreamDestroy w2)) as H3 by (by apply grows_log).
  eapply grows_trans; [exact H3|]. apply grows_fresh in H3.
  set (w3 := log _ w2) in *. clearbody w3.
  assert (grows w3 (rejectAllPending (PeerOfflineError (pubkey w3)) w3)) as H4
    by (by apply grows_rejectAllPending).
  eapply grows_trans; [exact H4|]. apply grows_fresh in H4.
  set (w4 := rejectAllPending _ w3) in *. clearbody w4.
  eapply grows_trans; [by apply grows_pendingClear|].
  apply grows_log. eapply grows_fresh. by apply grows_pendingClear.
Qed.

Lemma grows_handleDisconnect (w : Session) :
  fresh w → grows w (handleDisconnect w).
Proof.
  intros Hf. unfold handleDisconnect.
  destruct (destroyed w); [by apply grows_refl|]. cbv zeta.
  assert (grows w (set_online false w)) as H1 by same_handles.
  eapply grows_trans; [exact H1|]. apply grows_fresh in H1.
  assert (grows (set_online false w) (stopHeartbeat (set_online false w)))
    as H2 by (by apply grows_stopHeartbeat).
  eapply grows_trans; [exact H2|]. apply grows_fresh in H2.
  set (w2 := stopHeartbeat _) in *. clearbody w2.
  assert (grows w2 (rejectAllPending (PeerOfflineError (pubkey w2)) w2)) as H4
    by (by apply grows_rejectAllPending).
  eapply grows_trans; [exact H4|]. apply grows_fresh in H4.
  set (w4 := rejectAllPending _ w2) in *. clearbody w4.
  eapply grows_trans; [by apply grows_pendingClear|].
  assert (fresh (set_pendingRequests ∅ w4)) as H5
    by (eapply grows_fresh; by apply grows_pendingClear).
  eapply grows_trans; [by apply grows_log|].
  apply grows_log. eapply grows_fresh. by apply grows_log.
Qed.

Lemma grows_checkDrain (p timeout : nat) (w : Session) :
  fresh w → (p < nextPromise w)%nat → grows w (checkDrain p timeout w).
Proof.
  intros Hf Hp. unfold checkDrain. destruct (negb (writeDraining w)).
  - cbv zeta. eapply grows_trans; [by apply grows_clearTimeout|].
    apply grows_resolve; [eapply grows_fresh; by apply grows_clearTimeout|].
    by destruct w.
  - by apply grows_task.
Qed.

Lemma grows_stream_write (buffer : Buffer) (w : Session) :
  fresh w → grows w (stream_write buffer w).2.
Proof. intros. same_handles. Qed.

Lemma grows_writeFrame (frame : Frame) (w : Session) :
  fresh w →
  grows w (writeFrame frame w).2
  ∧ ∀ q, (writeFrame frame w).1 = WriteParked q →
         (q < nextPromise (writeFrame frame w).2)%nat.
Proof.
  intros Hf. unfold writeFrame.
  destruct (destroyed w); [split; [by apply grows_refl|done]|].
  cbv zeta.
  pose proof (grows_stream_write (serializeFrame frame) w Hf) as H1.
  destruct (stream_write (serializeFrame frame) w) as [canContinue w1].
  cbn [snd] in H1.
  destruct canContinue; cbn [negb fst snd]; [by split|].
  pose proof (grows_fresh _ _ H1) as F1.
  set (p := nextPromise w1).
  assert (grows w1 (set_nextPromise (S p) w1)) as H2
    by (by apply grows_nextPromise).
  set (w2 := set_nextPromise (S p) w1) in *.
  assert (nextPromise w2 = S p) as Hnp2 by (subst w2; by destruct w1).
  clearbody w2. pose proof (grows_fresh _ _ H2) as F2.
  assert (grows w2 (set_writeQueue (writeQueue w2 ++ [serializeFrame frame]) w2))
    as H3 by same_handles.
  set (w3 := set_writeQueue _ w2) in *.
  assert (nextPromise w3 = S p) as Hnp3 by (subst w3; by destruct w2).
  clearbody w3. pose proof (grows_fresh _ _ H3) as F3.
  unfold setTimeout.
  assert (callbackFresh (nextPromise w3) (BackpressureTimeout p)) as Hcb
    by (cbn; lia).
  pose proof (grows_armTimer (BackpressureTimeout p) 30000 None w3 F3 Hcb)
    as H4.
  destruct (armTimer (BackpressureTimeout p) 30000 None w3) as [h w4] eqn:Heq.
  assert (nextPromise w4 = S p) as Hnp4.
  { unfold armTimer in Heq. injection Heq as _ <-. by destruct w3. }
  cbn [snd] in H4 |- *. pose proof (grows_fresh _ _ H4) as F4.
  assert (grows w4 (checkDrain p h w4)) as H5
    by (apply grows_checkDrain; [done|lia]).
  split.
  - eapply grows_trans; [exact H1|]. eapply grows_trans; [exact H2|].
    eapply grows_trans; [exact H3|]. eapply grows_trans; [exact H4|exact H5].
  - intros q [= <-]. destruct H5 as (_ & ? & _). lia.
Qed.

Lemma grows_processWriteLoop (fuel : nat) :
  ∀ w : Session, fresh w → grows w (processWriteLoop fuel w).
Proof.
  induction fuel as [|fuel IH]; intros w Hf; [by apply grows_refl|].
  cbn [processWriteLoop]. destruct (writeQueue w); [by apply grows_refl|].
  destruct (writeDraining w); [by apply grows_refl|].
  unfold stream_write.
  eapply grows_trans; [|apply IH]; [same_handles|].
  eapply grows_fresh. same_handles.
Qed.

Lemma grows_processWriteQueue (w : Session) :
  fresh w → grows w (processWriteQueue w).
Proof.
  intros Hf. unfold processWriteQueue. cbv zeta.
  eapply grows_trans; [|apply grows_processWriteLoop]; [same_handles|].
  eapply grows_fresh. same_handles.
Qed.

Section Fresh.
Context `{Crypto} `{Json}.

Lemma grows_writeBuilt (built : JsError + Frame) (w : Session) :
  fresh w → grows w (writeBuilt built w).2.
Proof.
  intros Hf. destruct built; [by apply grows_refl|].
  by apply grows_writeFrame.
Qed.

Lemma grows_registered (timeout : Z) (w : Session) :
  fresh w →
  grows w (registered timeout w)
  ∧ (nextPromise w < nextPromise (registered timeout w))%nat.
Proof.
  intros (Ft & Fp & Fpd & Fim & Fmi & Fc & Fh).
  destruct w as [? ? ? ? ? ? ? ? pend ? ? ? ? hb hbt
                   now tm nt im mi pr np ca ? ?].
  unfold grows, fresh, registered in *. session_eval_all.
  split; [|lia]. split; [|lia].
  split; [|split; [|split; [|split; [|split; [|split]]]]].
  - intros h t [[<- <-]|[_ Hl]]%lookup_insert_Some; [cbn; lia|].
    destruct (Ft h t Hl). split; [lia|].
    eapply callbackFresh_mono; [|done]. lia.
  - intros p o Hl. specialize (Fp p o Hl). lia.
  - intros id pd [[_ <-]|[_ Hl]]%lookup_insert_Some; [cbn; lia|].
    destruct (Fpd id pd Hl). lia.
  - eapply Forall_impl; [exact Fim|]. intros t. apply taskFresh_mono. lia.
  - eapply Forall_impl; [exact Fmi|]. intros t. apply taskFresh_mono. lia.
  - intros q c Hl. eapply catcherFresh_mono; [|by eapply Fc]. lia.
  - intros h Hl. specialize (Fh h Hl). lia.
Qed.

Lemma grows_request (method : string) (params : jsval) (timeout : Z)
    (w : Session) :
  fresh w → grows w (request method params timeout w).2.
Proof.
  intros Hf. rewrite request_unfold. cbv zeta.
  destruct (grows_registered timeout w Hf) as [Hreg Hp].
  pose proof (grows_fresh _ _ Hreg) as F0.
  set (w0 := registered timeout w) in *. clearbody w0.
  destruct (createRequest _ _ _) as [err|frame].
  { cbn [snd]. eapply grows_trans; [exact Hreg|]. by apply grows_reject. }
  destruct (grows_writeFrame frame w0 F0) as [Hw Hq].
  destruct (writeFrame frame w0) as [[|err|q] w'].
  all: lazy beta iota delta [fst snd] in Hw, Hq |- *.
  all: eapply grows_trans; [exact Hreg|].
  - exact Hw.
  - eapply grows_trans; [exact Hw|].
    apply grows_task; [by eapply grows_fresh|].
    destruct Hw as (_ & ? & _). cbn. lia.
  - eapply grows_trans; [exact Hw|].
    apply grows_catcher; [by eapply grows_fresh|].
    destruct Hw as (_ & ? & _). cbn. lia.
Qed.

Lemma grows_handleResponse (response : jsval) (w w' : Session) :
  fresh w → handleResponse response w = inr w' → grows w w'.
Proof.
  intros Hf. unfold handleResponse.
  destruct (getProp response "id") as [id|]; [|done].
  destruct (pendingGet w id) as [pending|] eqn:Hget;
    [|intros [= <-]; by apply grows_refl].
  assert ((pending_promise pending < nextPromise w)%nat) as Hp.
  { destruct id; try done. cbn in Hget.
    destruct Hf as (_ & _ & Fpd & _). by destruct (Fpd _ _ Hget). }
  cbv zeta.
  assert (grows w (pendingDeleteKey id
                     (clearTimeout (pending_timer pending) w))) as Hg.
  { eapply grows_trans; [by apply grows_clearTimeout|].
    assert (fresh (clearTimeout (pending_timer pending) w)) as F1
      by (eapply grows_fresh; by apply grows_clearTimeout).
    destruct id; try (by apply grows_refl). by apply grows_pendingDelete. }
  set (w1 := pendingDeleteKey _ _) in *. clearbody w1.
  destruct (truthy _); intros [= <-];
    (eapply grows_trans; [exact Hg|]);
    [apply grows_reject|apply grows_resolve];
    try (by eapply grows_fresh); destruct Hg as (_ & ? & _); lia.
Qed.

Lemma grows_handleFrame (frame : Frame) (w w' : Session) :
  fresh w → handleFrame frame w = inr w' → grows w w'.
Proof.
  intros Hf. unfold handleFrame.
  destruct (JSON_parse _) as [payload|]; [|done]. cbv zeta.
  destruct (frame_type frame =? MessageType.CONTROL).
  { unfold handleControl. destruct (getProp payload "type") as [t|]; [|done].
    destruct t; try (intros [= <-]; by apply grows_refl).
    destruct (String.eqb s "heartbeat"); [intros [= <-]; by apply grows_refl|].
    destruct (String.eqb s "capabilities");
      [|intros [= <-]; by apply grows_refl].
    destruct (getProp payload "data") as [data|]; [|done].
    destruct (truthy data); intros [= <-]; [|by apply grows_refl].
    same_handles. }
  destruct (frame_type frame =? MessageType.REQUEST).
  { intros [= <-]. same_handles. }
  destruct (frame_type frame =? MessageType.RESPONSE).
  { by apply grows_handleResponse. }
  destruct (frame_type frame =? MessageType.EVENT).
  { intros [= <-]. same_handles. }
  destruct (frame_type frame =? MessageType.INTRODUCE);
    intros [= <-]; same_handles.
Qed.

Lemma grows_handleData (data : Buffer) (w : Session) :
  fresh w → grows w (handleData data w).
Proof.
  intros Hf. unfold handleData. cbv zeta.
  assert (grows w (log (FxLastSeen (clock w)) (set_lastSeen (clock w) w)))
    as H1 by same_handles.
  set (w0 := log _ _) in *. clearbody w0.
  assert (grows w0 (resetHeartbeatTimeout w0)) as H2
    by (apply grows_resetHeartbeatTimeout; by eapply grows_fresh).
  set (w1 := resetHeartbeatTimeout w0) in *. clearbody w1.
  assert (grows w w1) as Hg by (by eapply grows_trans).
  pose proof (grows_fresh _ _ Hg) as F1.
  assert (∀ ev, grows w (emit ev w1)) as Hemit.
  { intros ev. eapply grows_trans; [exact Hg|]. by apply grows_log. }
  destruct (deserializeFrame data) as [e|frame]; [apply Hemit|].
  destruct (verifyFrame frame); cbn [negb]; [|apply Hemit].
  destruct (String.eqb _ _); cbn [negb]; [|apply Hemit].
  destruct (handleFrame frame w1) as [err|w2] eqn:Hframe; [apply Hemit|].
  eapply grows_trans; [exact Hg|]. by apply (grows_handleFrame frame).
Qed.

Lemma grows_heartbeatTick (w : Session) : fresh w → grows w (heartbeatTick w).
Proof.
  intros Hf. unfold heartbeatTick.
  destruct (destroyed w || negb (online w)); [by apply grows_refl|].
  destruct (createHeartbeat _ _) as [err|frame]; [by apply grows_refl|].
  destruct (grows_writeFrame frame w Hf) as [Hw Hq].
  destruct (writeFrame frame w) as [[|err|q] w'];
    lazy beta iota delta [fst snd] in Hw, Hq |- *; try exact Hw.
  eapply grows_trans; [exact Hw|].
  apply grows_catcher; [by eapply grows_fresh|done].
Qed.

Lemma grows_runCallback (cb : TimerCallback) (w : Session) :
  fresh w → callbackFresh (nextPromise w) cb → grows w (runCallback cb w).
Proof.
  intros Hf Hcb. destruct cb as [| |p|id p timeout]; cbn [runCallback].
  - by apply grows_heartbeatTick.
  - eapply grows_trans; [by apply (grows_log (FxEmit EvTimeout))|].
    apply grows_destroy. eapply grows_fresh. by apply grows_log.
  - by apply grows_reject.
  - eapply grows_trans; [by apply grows_pendingDelete|].
    apply grows_reject; [eapply grows_fresh; by apply grows_pendingDelete|].
    by destruct w.
Qed.

Lemma grows_fireTimer (h : nat) (w : Session) :
  fresh w → grows w (fireTimer h w).
Proof.
  intros Hf. unfold fireTimer.
  destruct (timers w !! h) as [t|] eqn:Hl; [|by apply grows_refl].
  destruct (clock w <? fireAt t); [by apply grows_refl|]. cbv zeta.
  assert (callbackFresh (nextPromise w) (callback t)) as Hcb.
  { destruct Hf as (Ft & _). by destruct (Ft h t Hl). }
  set (w1 := match every t with Some _ => _ | None => _ end).
  assert (grows w w1 ∧ nextPromise w1 = nextPromise w) as [Hg Hnp].
  { subst w1. destruct (every t) as [period|].
    - split; [|by destruct w].
      by apply (grows_timers_known h t
                  (mkTimer (clock w + period) (callback t) (Some period))).
    - split; [|by destruct w]. by apply (grows_timers_known h t t). }
  clearbody w1. eapply grows_trans; [exact Hg|].
  apply grows_runCallback; [by eapply grows_fresh|]. by rewrite Hnp.
Qed.

Lemma grows_runTask (t : Task) (w : Session) :
  fresh w → taskFresh (nextPromise w) t → grows w (runTask t w).
Proof.
  intros Hf Ht. destruct t as [p timeout|id timer p err]; cbn [runTask].
  - by apply grows_checkDrain.
  - cbn in Ht.
    eapply grows_trans; [by apply grows_clearTimeout|].
    assert (fresh (clearTimeout timer w)) as F1
      by (eapply grows_fresh; by apply grows_clearTimeout).
    eapply grows_trans; [by apply grows_pendingDelete|].
    apply grows_reject; [eapply grows_fresh; by apply grows_pendingDelete|].
    by destruct w.
Qed.

Lemma grows_step (w : Session) (i : Input) : fresh w → grows w (step w i).
Proof.
  intros Hf. destruct i; cbn [step].
  - by apply grows_handleData.
  - by apply grows_handleDisconnect.
  - eapply grows_trans; [by apply grows_log|].
    apply grows_handleDisconnect. eapply grows_fresh. by apply grows_log.
  - by apply grows_processWriteQueue.
  - by apply grows_fireTimer.
  - unfold runImmediate. destruct (immediates w) as [|t rest] eqn:Hq;
      [by apply grows_refl|].
    destruct (grows_tasks_pop t rest w Hf) as [_ Hpop]. specialize (Hpop Hq).
    eapply grows_trans; [exact Hpop|].
    apply grows_runTask; [by eapply grows_fresh|].
    destruct Hf as (_ & _ & _ & Fim & _). rewrite Hq in Fim.
    apply Forall_cons in Fim as [Ht _]. by destruct w.
  - unfold runMicrotask. destruct (microtasks w) as [|t rest] eqn:Hq;
      [by apply grows_refl|].
    destruct (grows_tasks_pop t rest w Hf) as [Hpop _]. specialize (Hpop Hq).
    eapply grows_trans; [exact Hpop|].
    apply grows_runTask; [by eapply grows_fresh|].
    destruct Hf as (_ & _ & _ & _ & Fmi & _). rewrite Hq in Fmi.
    apply Forall_cons in Fmi as [Ht _]. by destruct w.
  - same_handles.
  - by apply grows_request.
  - by apply grows_refl.
  - by apply grows_writeBuilt.
  - by apply grows_destroy.
Qed.

Lemma fresh_run (inputs : list Input) :
  ∀ w : Session, fresh w → fresh (run w inputs).
Proof.
  induction inputs as [|i inputs IH]; intros w Hf; [done|].
  cbn [run foldl]. apply IH. eapply grows_fresh. by apply grows_step.
Qed.

Lemma fresh_new (opts_pubkey : string) (opts_ourKeyPair : KeyPair)
    (opts_heartbeatInterval opts_heartbeatTimeout : option Z) (now : Z)
    (ready : list bool) :
  fresh (PeerConnection_new opts_pubkey opts_ourKeyPair
           opts_heartbeatInterval opts_heartbeatTimeout now ready).
Proof.
  unfold PeerConnection_new. cbv zeta.
  set (w0 := mkSession _ _ _ _ _ _ _ _ _ _ _ _ _ _ _ _ _ _ _ _ _ _ _ _ _).
  assert (fresh w0) as F0.
  { unfold fresh, w0. session_eval_all.
    split; [|split; [|split; [|split; [|split; [|split]]]]];
      try (intros ? ? Hl; by rewrite lookup_empty in Hl);
      try apply Forall_nil; try exact I.
    by intros h [|]. }
  clearbody w0.
  pose proof (grows_startHeartbeat w0 F0) as H1.
  eapply grows_fresh. unfold sendCapabilities.
  apply grows_writeBuilt. by eapply grows_fresh.
Qed.

End Fresh.

(** * Inbound data, liveness and teardown *)

Lemma streamWrites_app (a b : list Effect) :
  streamWrites (a ++ b) = streamWrites a ++ streamWrites b.
Proof. apply omap_app. Qed.

Lemma sameOutbound_refl (w : Session) : sameOutbound w w.
Proof. by repeat split. Qed.

Lemma sameOutbound_trans (a b c : Session) :
  sameOutbound a b → sameOutbound b c → sameOutbound a c.
Proof.
  unfold sameOutbound. intros Hab Hbc.
  destruct Hab as (?&?&?&?&?&?&?&?&?&?&?&?&?&?&?).
  destruct Hbc as (?&?&?&?&?&?&?&?&?&?&?&?&?&?&?).
  repeat split; congruence.
Qed.

Lemma sameOutbound_log (e : Effect) (w : Session) :
  streamWrites [e] = [] → sameOutbound (log e w) w.
Proof.
  intros He. destruct w. unfold sameOutbound, log. session_eval.
  rewrite streamWrites_app, He, app_nil_r. by repeat split.
Qed.

Lemma sameOutbound_clearTimeout (h : nat) (w : Session) :
  sameOutbound (clearTimeout h w) w.
Proof.
  destruct w. unfold sameOutbound. session_eval.
  rewrite streamWrites_app, app_nil_r. by repeat split.
Qed.

Lemma sameOutbound_pendingDelete (id : string) (w : Session) :
  sameOutbound (pendingDelete id w) w.
Proof.
  destruct w. unfold sameOutbound, pendingDelete. session_eval.
  rewrite streamWrites_app, app_nil_r. by repeat split.
Qed.

Lemma sameOutbound_resolve (p : nat) (v : jsval) (w : Session) :
  sameOutbound (resolve p v w) w.
Proof.
  unfold resolve. destruct (promises w !! p); [apply sameOutbound_refl|].
  destruct w. unfold sameOutbound. session_eval.
  rewrite streamWrites_app, app_nil_r. by repeat split.
Qed.

Lemma sameOutbound_reject (p : nat) (err : JsError) (w : Session) :
  sameOutbound (reject p err w) w.
Proof.
  unfold reject. destruct (promises w !! p); [apply sameOutbound_refl|].
  cbv zeta. set (w1 := log _ _).
  assert (sameOutbound w1 w) as H1.
  { subst w1. destruct w. unfold sameOutbound. session_eval.
    rewrite streamWrites_app, app_nil_r. by repeat split. }
  destruct (catchers w1 !! p) as [[id timer q|]|]; exact H1.
Qed.

Lemma sameOutbound_resetHeartbeatTimeout (w : Session) :
  sameOutbound (resetHeartbeatTimeout w) w.
Proof.
  unfold resetHeartbeatTimeout.
  destruct w as [? ? ? ? ? ? ? ? ? ? ? ? ? ? hbt ? ? ? ? ? ? ? ? ? ?].
  unfold sameOutbound. destruct hbt; session_eval;
    rewrite !streamWrites_app, !app_nil_r; by repeat split.
Qed.

Section Inbound.
Context `{Crypto} `{Json}.

Lemma handleResponse_outbound (response : jsval) (w w' : Session) (h : nat) :
  handleResponse response w = inr w' →
  sameOutbound w' w ∧ sameTimer h w' w.
Proof.
  unfold handleResponse.
  destruct (getProp response "id") as [id|]; [|done].
  destruct (pendingGet w id) as [pending|] eqn:Hget;
    [|intros [= <-]; split; [apply sameOutbound_refl|done]].
  destruct id as [| | | |id| |]; try done. cbn in Hget.
  cbn [pendingDeleteKey]. cbv zeta.
  set (w1 := pendingDelete id (clearTimeout (pending_timer pending) w)).
  assert (sameOutbound w1 w) as Hout.
  { eapply sameOutbound_trans; [apply sameOutbound_pendingDelete|].
    apply sameOutbound_clearTimeout. }
  assert (sameTimer h w1 w) as Htimer.
  { intros Hown. subst w1. destruct w. cbn in Hget, Hown |- *.
    apply lookup_delete_ne. by eapply Hown. }
  clearbody w1.
  destruct (truthy _); intros [= <-].
  - split; [eapply sameOutbound_trans; [apply sameOutbound_reject|done]|].
    intros Hown. destruct (reject_fields (pending_promise pending)
      (Error_ (default JUndefined
                 (getProp (default JUndefined (getProp response "error"))
                    "message"))) w1) as (-> & _). by apply Htimer.
  - split; [eapply sameOutbound_trans; [apply sameOutbound_resolve|done]|].
    intros Hown. rewrite <- (Htimer Hown). unfold resolve.
    destruct (promises w1 !! _); [done|]. by destruct w1.
Qed.

Lemma handleFrame_outbound (frame : Frame) (w w' : Session) (h : nat) :
  handleFrame frame w = inr w' →
  sameOutbound w' w ∧ sameTimer h w' w.
Proof.
  unfold handleFrame.
  destruct (JSON_parse _) as [payload|]; [|done]. cbv zeta.
  assert (∀ ev, sameOutbound (emit ev w) w ∧ sameTimer h (emit ev w) w)
    as Hemit.
  { intros ev. split; [by apply sameOutbound_log|]. intros _. by destruct w. }
  destruct (frame_type frame =? MessageType.CONTROL).
  { unfold handleControl. destruct (getProp payload "type") as [t|]; [|done].
    assert (sameOutbound w w ∧ sameTimer h w w) as Hsame
      by (split; [apply sameOutbound_refl|done]).
    destruct t; try (by intros [= <-]).
    destruct (String.eqb s "heartbeat"); [by intros [= <-]|].
    destruct (String.eqb s "capabilities"); [|by intros [= <-]].
    destruct (getProp payload "data") as [data|]; [|done].
    destruct (truthy data); intros [= <-]; [|done].
    split; [|intros _; by destruct w].
    destruct w. unfold sameOutbound, emit. session_eval.
    rewrite streamWrites_app, app_nil_r. by repeat split. }
  destruct (frame_type frame =? MessageType.REQUEST).
  { intros [= <-]. apply Hemit. }
  destruct (frame_type frame =? MessageType.RESPONSE).
  { apply handleResponse_outbound. }
  destruct (frame_type frame =? MessageType.EVENT).
  { intros [= <-]. apply Hemit. }
  destruct (frame_type frame =? MessageType.INTRODUCE);
    intros [= <-]; apply Hemit.
Qed.

Lemma handleData_outbound (data : Buffer) (w : Session) :
  sameOutbound (handleData data w) w
  ∧ ((∀ id pending, pendingRequests w !! id = Some pending →
        pending_timer pending ≠ nextTimer w) →
     timers (handleData data w) !! nextTimer w = Some (livenessTimer w)).
Proof.
  unfold handleData. cbv zeta.
  set (w0 := log (FxLastSeen (clock w)) (set_lastSeen (clock w) w)).
  set (w1 := resetHeartbeatTimeout w0).
  assert (sameOutbound w1 w) as Hout.
  { eapply sameOutbound_trans; [apply sameOutbound_resetHeartbeatTimeout|].
    subst w0. destruct w. unfold sameOutbound. session_eval.
    rewrite streamWrites_app, app_nil_r. by repeat split. }
  assert (timers w1 !! nextTimer w = Some (livenessTimer w)
          ∧ pendingRequests w1 = pendingRequests w) as [Htimer Hpending].
  { subst w1 w0.
    destruct w as [? ? ? ? ? ? ? ? ? ? ? ? ? ? hbt ? ? ? ? ? ? ? ? ? ?].
    unfold resetHeartbeatTimeout, livenessTimer.
    destruct hbt; session_eval; (split; [apply lookup_insert_eq|done]). }
  clearbody w1. clear w0.
  assert (∀ ev, sameOutbound (emit ev w1) w
                ∧ ((∀ id pending, pendingRequests w !! id = Some pending →
                      pending_timer pending ≠ nextTimer w) →
                   timers (emit ev w1) !! nextTimer w
                   = Some (livenessTimer w))) as Hemit.
  { intros ev. split.
    - eapply sameOutbound_trans; [by apply sameOutbound_log|done].
    - intros _. rewrite <- Htimer. by destruct w1. }
  destruct (deserializeFrame data) as [e|frame]; [apply Hemit|].
  destruct (verifyFrame frame); cbn [negb]; [|apply Hemit].
  destruct (String.eqb _ _); cbn [negb]; [|apply Hemit].
  destruct (handleFrame frame w1) as [err|w2] eqn:Hframe; [apply Hemit|].
  destruct (handleFrame_outbound frame w1 w2 (nextTimer w) Hframe)
    as [Hout2 Htimer2].
  split; [by eapply sameOutbound_trans|].
  intros Hown. rewrite Htimer2; [done|]. by rewrite Hpending.
Qed.

(** X13. Inbound data acts on the inbound side only.  Whatever arrives,
    [handleData] writes nothing to the stream and leaves the keys, the
    heartbeat period and timeout, [online], [destroyed], the request
    counter, the write queue with its flag, and the heartbeat interval
    timer as they are; a reply is only ever written by [sendResponse]. *)
Theorem handleData_inbound_only (data : Buffer) (w : Session) :
  sameOutbound (handleData data w) w.
Proof. apply handleData_outbound. Qed.
End Inbound.

(** ** Liveness *)

Lemma trace_stopHeartbeat (w : Session) :
  ∃ more, trace (stopHeartbeat w) = trace w ++ more.
Proof.
  destruct w as [? ? ? ? ? ? ? ? ? ? ? ? ? hb hbt ? ? ? ? ? ? ? ? ? ?].
  unfold stopHeartbeat. destruct hb, hbt; session_eval;
    rewrite <- ?app_assoc; eauto using app_nil_r.
Qed.

Lemma destroy_effects (w : Session) :
  destroyed w = false →
  pendingRequests (destroy w) = ∅
  ∧ heartbeatTimer (destroy w) = None
  ∧ (∀ h, timers w !! h = None → timers (destroy w) !! h = None)
  ∧ ∃ before after,
      trace (destroy w) = trace w ++ before ++ FxStreamDestroy :: after.
Proof.
  intros Hd. rewrite destroy_unfold by done.
  set (w1 := stopHeartbeat (set_destroyed true w)).
  set (w2 := log FxStreamDestroy w1).
  set (l := map_to_list (pendingRequests w)).
  set (err := PeerOfflineError (pubkey w)).
  destruct (stopHeartbeat_fields (set_destroyed true w))
    as (Hhb & _ & Htimers & _).
  fold w1 in Hhb, Htimers.
  destruct (rejectEntries_fields err l w2) as (_ & Hhb2 & _).
  pose proof (rejectEntries_timers err l w2) as Htimers2.
  destruct (trace_rejectEntries err l w2) as [after Hafter].
  destruct (trace_stopHeartbeat (set_destroyed true w)) as [before Hbefore].
  fold w1 in Hbefore.
  set (w3 := foldl (rejectEntry err) w2 l) in *. clearbody w3.
  split; [by destruct w3|]. split.
  { transitivity (heartbeatTimer w3); [by destruct w3|].
    rewrite Hhb2. subst w2. transitivity (heartbeatTimer w1); [|done].
    by destruct w1. }
  split.
  { intros h Hh. transitivity (timers w3 !! h); [by destruct w3|].
    rewrite Htimers2. apply deleted_all_absent. left.
    transitivity (timers w1 !! h); [subst w2; by destruct w1|].
    rewrite Htimers. apply cancel_absent. left. apply cancel_absent. left.
    by destruct w. }
  exists before, (after ++ [FxPendingClear]).
  transitivity (trace w3 ++ [FxPendingClear]); [by destruct w3|].
  rewrite Hafter. subst w2.
  transitivity (((trace w1 ++ [FxStreamDestroy]) ++ after) ++ [FxPendingClear]);
    [by destruct w1|].
  rewrite Hbefore. transitivity
    ((((trace w ++ before) ++ [FxStreamDestroy]) ++ after) ++ [FxPendingClear]);
    [by destruct w|].
  rewrite <- !app_assoc. reflexivity.
Qed.

Section Liveness.
Context `{Crypto} `{Json}.

Lemma handleData_liveness_timer (data : Buffer) (w : Session) :
  heartbeatTimeoutTimer (handleData data w) = Some (nextTimer w).
Proof.
  unfold handleData. cbv zeta.
  set (w0 := log (FxLastSeen (clock w)) (set_lastSeen (clock w) w)).
  destruct (resetHeartbeatTimeout_fields w0) as (Hh & _).
  replace (nextTimer w0) with (nextTimer w) in Hh by (by destruct w).
  set (w1 := resetHeartbeatTimeout w0) in *. clearbody w1.
  assert (∀ ev, heartbeatTimeoutTimer (emit ev w1) = Some (nextTimer w))
    as Hemit by (intros ev; rewrite <- Hh; by destruct w1).
  destruct (deserializeFrame data) as [e|frame]; [apply Hemit|].
  destruct (verifyFrame frame); cbn [negb]; [|apply Hemit].
  destruct (String.eqb _ _); cbn [negb]; [|apply Hemit].
  destruct (handleFrame frame w1) as [err|w2] eqn:Hframe; [apply Hemit|].
  destruct (handleFrame_keeps frame w1 w2 Hframe) as (_ & -> & _). done.
Qed.

(** X14. The liveness timeout, counted from the last inbound data.  In a
    session whose handles are fresh, [handleData] arms the liveness timer
    under the next handle.  If less than [heartbeatTimeout] milliseconds
    pass, that timer does nothing; once [heartbeatTimeout] milliseconds
    have passed without data, its firing emits [timeout] and destroys the
    session: the stream is destroyed, no request stays pending, the
    heartbeat stops. *)
Theorem liveness_expiry (data : Buffer) (w : Session) (ms : Z) :
  fresh w → 0 ≤ ms →
  let w1 := step (handleData data w) (Elapse ms) in
  let h := nextTimer w in
  heartbeatTimeoutTimer w1 = Some h
  ∧ (ms < heartbeatTimeout w → step w1 (TimerFires h) = w1)
  ∧ (heartbeatTimeout w ≤ ms →
     let w2 := step w1 (TimerFires h) in
     destroyed w2 = true
     ∧ timers w2 !! h = None
     ∧ ∃ rest, trace w2 = trace w1 ++ FxEmit EvTimeout :: rest
               ∧ (destroyed w = false →
                  FxStreamDestroy ∈ rest
                  ∧ pendingRequests w2 = ∅
                  ∧ heartbeatTimer w2 = None)).
Proof.
  intros Hf Hms w1 h.
  destruct (handleData_outbound data w) as [Hout Htimer].
  assert (timers (handleData data w) !! h = Some (livenessTimer w)) as Hl.
  { apply Htimer. intros id pending Hp.
    destruct Hf as (_ & _ & Fpd & _). destruct (Fpd id pending Hp). lia. }
  pose proof (handleData_liveness_timer data w) as Hh.
  destruct Hout as (_&_&_&_&_&_&Hd&_&_&_&_&Hclock&_).
  set (w' := handleData data w) in *.
  assert (timers w1 = timers w' ∧ clock w1 = clock w + ms
          ∧ heartbeatTimeoutTimer w1 = Some h ∧ destroyed w1 = destroyed w
          ∧ trace w1 = trace w') as (Ht1 & Hc1 & Hh1 & Hd1 & Htr1).
  { subst w1. cbn [step]. rewrite Z.max_r by lia. rewrite <- Hclock, <- Hd.
    clearbody w'. by destruct w'. }
  clearbody w1. clear Htimer.
  split; [exact Hh1|].
  rewrite <- Ht1 in Hl.
  cbn [step]. unfold fireTimer. rewrite Hl, Hc1.
  cbn [fireAt livenessTimer callback every]. split.
  - intros Hearly.
    destruct (clock w + ms <? clock w + heartbeatTimeout w) eqn:Hcmp; [done|].
    apply Z.ltb_ge in Hcmp. lia.
  - intros Hlate.
    destruct (clock w + ms <? clock w + heartbeatTimeout w) eqn:Hcmp;
      [apply Z.ltb_lt in Hcmp; lia|].
    cbn [runCallback].
    set (w2 := emit EvTimeout (set_timers (delete h (timers w1)) w1)).
    assert (timers w2 !! h = None ∧ trace w2 = trace w1 ++ [FxEmit EvTimeout]
            ∧ destroyed w2 = destroyed w) as (Ht2 & Htr2 & Hd2).
    { subst w2. rewrite <- Hd1. destruct w1. cbn.
      split; [apply lookup_delete_eq|done]. }
    clearbody w2.
    split; [apply destroyed_destroy|].
    destruct (destroyed w2) eqn:Hdead.
    + rewrite destroy_again by done.
      split; [done|]. exists []. split; [done|]. congruence.
    + destruct (destroy_effects w2 Hdead)
        as (Hpending & Hhb & Hgone & before & after & Htrace).
      split; [by apply Hgone|].
      exists (before ++ FxStreamDestroy :: after).
      split; [by rewrite Htrace, Htr2, <- app_assoc|].
      intros _. split; [|done].
      apply elem_of_app. right. by left.
Qed.
End Liveness.

(** ** Stopping the heartbeat, and a destroyed session *)

(** X15. [stopHeartbeat] clears both handles and cancels their timers and
    no other timer; stopping again changes nothing. *)
Theorem stopHeartbeat_idempotent (w : Session) :
  heartbeatTimer (stopHeartbeat w) = None
  ∧ heartbeatTimeoutTimer (stopHeartbeat w) = None
  ∧ (∀ h, heartbeatTimer w = Some h ∨ heartbeatTimeoutTimer w = Some h →
          timers (stopHeartbeat w) !! h = None)
  ∧ (∀ h, heartbeatTimer w ≠ Some h → heartbeatTimeoutTimer w ≠ Some h →
          timers (stopHeartbeat w) !! h = timers w !! h)
  ∧ stopHeartbeat (stopHeartbeat w) = stopHeartbeat w.
Proof.
  destruct (stopHeartbeat_fields w) as (Hhb & Hhbt & Htimers & _).
  split; [done|]. split; [done|]. split; [|split].
  - intros h Hh. rewrite Htimers.
    destruct Hh as [Hh|Hh].
    + apply cancel_absent. left. apply cancel_absent. by right.
    + apply cancel_absent. by right.
  - intros h Hh Hh'. rewrite Htimers. unfold cancel.
    destruct (heartbeatTimeoutTimer w) as [a|], (heartbeatTimer w) as [b|];
      rewrite ?lookup_delete_ne by congruence; done.
  - set (w1 := stopHeartbeat w) in *. clearbody w1.
    unfold stopHeartbeat. by rewrite Hhb, Hhbt.
Qed.

Lemma liveness_expiry_witness :
  fresh demoSession
  ∧ heartbeatTimeoutTimer
      (@step demoCrypto demoJson (@handleData demoCrypto demoJson [] demoSession)
         (Elapse 90000))
    = Some (nextTimer demoSession).
Proof.
  assert (fresh demoSession) as Hf by apply fresh_new.
  split; [exact Hf|].
  destruct (@liveness_expiry demoCrypto demoJson [] demoSession 90000 Hf)
    as [Hh _]; [lia|exact Hh].
Defined.

Section Destroyed.
Context `{Crypto} `{Json}.

(** X16. A destroyed session is inert on its outbound side.  After
    [destroy], a close of the stream changes nothing (no [disconnect] is
    emitted), a heartbeat tick changes nothing, every write throws
    [PeerOfflineError] without reaching the stream, and so does every
    response; a request is registered and then rejected with
    [PeerOfflineError] by the reaction to its failed write. *)
Theorem destroyed_session_inert (w : Session) :
  let d := destroy w in
  handleDisconnect d = d
  ∧ heartbeatTick d = d
  ∧ (∀ frame, writeFrame frame d = (WriteThrown (PeerOfflineError (pubkey w)), d))
  ∧ (∀ response, (sendResponse response d).2 = d
                 ∧ ∃ err, (sendResponse response d).1 = WriteThrown err)
  ∧ (∀ method params timeout,
       streamWrites (trace (request method params timeout d).2)
       = streamWrites (trace d)
       ∧ ∃ id,
           microtasks (request method params timeout d).2
           = microtasks d
             ++ [SendFailed id (nextTimer d) (nextPromise d)
                   (PeerOfflineError (pubkey w))]).
Proof.
  intros d.
  assert (destroyed d = true) as Hd by apply destroyed_destroy.
  assert (pubkey d = pubkey w) as Hpk.
  { subst d. destruct (destroyed w) eqn:Hdw; [by rewrite destroy_again|].
    rewrite destroy_unfold by done.
    set (l := map_to_list _). set (err := PeerOfflineError _).
    set (w2 := log FxStreamDestroy _).
    destruct (rejectEntries_fields err l w2) as (_ & _ & _ & _ & Hpk & _).
    transitivity (pubkey (foldl (rejectEntry err) w2 l));
      [by destruct (foldl (rejectEntry err) w2 l)|].
    rewrite Hpk. subst w2.
    destruct (stopHeartbeat_fields (set_destroyed true w))
      as (_ & _ & _ & _ & _ & Hpk2 & _).
    transitivity (pubkey (stopHeartbeat (set_destroyed true w)));
      [by destruct (stopHeartbeat (set_destroyed true w))|].
    rewrite Hpk2. by destruct w. }
  clearbody d.
  assert (∀ frame,
            writeFrame frame d = (WriteThrown (PeerOfflineError (pubkey w)), d))
    as Hwrite.
  { intros frame. rewrite writeFrame_destroyed by done. by rewrite Hpk. }
  split; [unfold handleDisconnect; by rewrite Hd|].
  split; [unfold heartbeatTick; by rewrite Hd|].
  split; [exact Hwrite|]. split.
  - intros response. unfold sendResponse, writeBuilt.
    destruct (createResponse _ _ _) as [err|frame]; [by eauto|].
    rewrite Hwrite. by eauto.
  - intros method params timeout. rewrite request_unfold. cbv zeta.
    destruct (createFrame_object MessageType.REQUEST
                [("id", JStr (requestId (clock d) (requestCounter d + 1)));
                 ("method", JStr method); ("params", params);
                 ("timeout", JNum timeout)]%string (ourKeyPair d) 0 (clock d))
      as [frame Hframe].
    unfold createRequest, requestObject. rewrite Hframe.
    destruct (registered_fields timeout d)
      as (Htrace & _ & _ & _ & Hd0 & Hmicro & Hpk0).
    cbv zeta in Htrace, Hd0, Hmicro, Hpk0.
    rewrite writeFrame_destroyed by (by rewrite Hd0).
    set (w0 := registered timeout d) in *. clearbody w0.
    split.
    + transitivity (streamWrites (trace w0)); [by destruct w0|].
      rewrite Htrace, streamWrites_app. cbn. by rewrite app_nil_r.
    + exists (requestId (clock d) (requestCounter d + 1)).
      rewrite <- Hmicro, <- Hpk, <- Hpk0. by destruct w0.
Qed.

(** X17. What the constructor leaves behind: a live, online session with
    no pending request, the placeholder capabilities, the heartbeat
    interval armed under handle 0 with the configured period (30 s by
    default), the liveness timeout armed under handle 1 (90 s by default),
    and exactly one write to the stream, the signed capabilities frame. *)
Theorem PeerConnection_new_state (opts_pubkey : string)
    (opts_ourKeyPair : KeyPair)
    (opts_heartbeatInterval opts_heartbeatTimeout : option Z) (now : Z)
    (ready : list bool) :
  let w :=
    PeerConnection_new opts_pubkey opts_ourKeyPair opts_heartbeatInterval
      opts_heartbeatTimeout now ready in
  let interval := default 30000 opts_heartbeatInterval in
  let timeout := default 90000 opts_heartbeatTimeout in
  online w = true ∧ destroyed w = false
  ∧ connectedAt w = now ∧ lastSeen w = now
  ∧ pendingRequests w = ∅ ∧ requestCounter w = 0
  ∧ capabilities w = unknownCapabilities
  ∧ heartbeatTimer w = Some 0%nat ∧ heartbeatTimeoutTimer w = Some 1%nat
  ∧ timers w !! 0%nat = Some (mkTimer (now + interval) HeartbeatTick (Some interval))
  ∧ timers w !! 1%nat = Some (mkTimer (now + timeout) LivenessExpired None)
  ∧ ∃ frame,
      createCapabilities ourCapabilities opts_ourKeyPair now = inr frame
      ∧ streamWrites (trace w)
        = [(serializeFrame frame, default true (head ready))].
Proof.
  intros w interval timeout. subst w.
  unfold PeerConnection_new, sendCapabilities, writeBuilt. cbv zeta.
  set (w0 := mkSession _ _ _ _ _ _ _ _ _ _ _ _ _ _ _ _ _ _ _ _ _ _ _ _ _).
  assert (ourKeyPair (startHeartbeat w0) = opts_ourKeyPair
          ∧ clock (startHeartbeat w0) = now) as [-> ->] by done.
  destruct (createFrame_object MessageType.CONTROL
              [("type", JStr "capabilities"); ("data", ourCapabilities)]%string
              opts_ourKeyPair 0 now) as [frame Hframe].
  unfold createCapabilities. rewrite Hframe.
  unfold startHeartbeat, resetHeartbeatTimeout, w0.
  destruct ready as [|[] ready]; session_lazy; rewrite ?lookup_empty;
    session_lazy; fold interval timeout.
  all: repeat (split; [reflexivity|]).
  all: exists frame; by split.
Qed.
End Destroyed.

(** * Two peers: what one sends, the other receives *)

Lemma length_Buffer_from_app (s1 s2 : string) :
  length (Buffer_from (s1 +:+ s2))
  = (length (Buffer_from s1) + length (Buffer_from s2))%nat.
Proof.
  unfold Buffer_from, list_byte_of_string. rewrite !length_map.
  induction s1 as [|a s1 IH]; [done|].
  change (String a s1 +:+ s2) with (String a (s1 +:+ s2)).
  cbn [list_ascii_of_string length]. rewrite IH. reflexivity.
Qed.

Lemma length_joinComma (first : string) (rest : list string) :
  (length (Buffer_from first) ≤ length (Buffer_from (joinComma (first :: rest))))%nat.
Proof.
  destruct rest as [|second rest]; [done|].
  change (joinComma (first :: second :: rest))
    with (first +:+ "," +:+ joinComma (second :: rest)).
  rewrite length_Buffer_from_app. lia.
Qed.

Lemma insertIndexed_nonempty {A} (n : Z) (x : A) (sorted : list (Z * A)) :
  insertIndexed n x sorted ≠ [].
Proof.
  destruct sorted as [|[m y] rest]; [done|].
  cbn [insertIndexed]. by destruct (m <=? n).
Qed.

(** The properties of an object are all visited. *)
Lemma ownPropertyOrder_nonempty {A} (m : string * A)
    (members : list (string * A)) :
  ownPropertyOrder (m :: members) ≠ [].
Proof.
  unfold ownPropertyOrder. cbn [foldl List.filter].
  destruct (arrayIndex m.1) as [n|]; [|by destruct (foldl _ _ _)].
  assert (∀ (l : list (string * A)) (acc : list (Z * (string * A))),
            acc ≠ [] →
            foldl (λ acc m, match arrayIndex m.1 with
                            | Some n => insertIndexed n m acc
                            | None => acc
                            end) acc l ≠ []) as Hfold.
  { induction l as [|x l IH]; intros acc Hacc; [done|].
    cbn [foldl]. apply IH. destruct (arrayIndex x.1); [|done].
    apply insertIndexed_nonempty. }
  pose proof (Hfold members (insertIndexed n m [])
                (insertIndexed_nonempty n m [])) as Hne.
  destruct (foldl _ _ members); done.
Qed.

(** The JSON text of an object whose first property is defined has at
    least four bytes. *)
Lemma length_object_text (key : string) (v : jsval)
    (rest : list (string * jsval)) (text : string) :
  v ≠ JUndefined →
  JSON_stringify (JObj ((key, v) :: rest)) = Some text →
  (4 ≤ length (Buffer_from text))%nat.
Proof.
  intros Hv. cbn [JSON_stringify].
  destruct (JSON_stringify v) as [s|] eqn:Hs;
    [|by apply JSON_stringify_undefined in Hs].
  intros [= <-].
  rewrite !length_Buffer_from_app.
  change (length (Buffer_from "{")) with 1%nat.
  change (length (Buffer_from "}")) with 1%nat.
  match goal with
  | |- context [ownPropertyOrder ((key, s) :: ?m)] =>
      pose proof (ownPropertyOrder_nonempty (key, s) m) as Hne;
      destruct (ownPropertyOrder ((key, s) :: m)) as [|[k x] members];
      [done|clear Hne]
  end.
  cbn [map fst snd].
  pose proof (length_joinComma (quote k +:+ ":" +:+ x)
                (map (λ m, quote m.1 +:+ ":" +:+ m.2) members)) as Hjoin.
  assert (2 ≤ length (Buffer_from (quote k +:+ ":" +:+ x)))%nat as Hfirst.
  { unfold quote.
    change (String (ascii_of_nat 34) ?x)
      with (String (ascii_of_nat 34) "" +:+ x).
    rewrite !length_Buffer_from_app.
    change (length (Buffer_from (String (ascii_of_nat 34) ""))) with 1%nat.
    lia. }
  lia.
Qed.

Lemma refreshed_fields (w : Session) :
  pendingRequests (refreshed w) = pendingRequests w
  ∧ promises (refreshed w) = promises w
  ∧ pubkey (refreshed w) = pubkey w
  ∧ (nextTimer w < nextTimer (refreshed w))%nat
  ∧ (∀ h, (h < nextTimer w)%nat → timers w !! h = None →
          timers (refreshed w) !! h = None).
Proof.
  unfold refreshed, resetHeartbeatTimeout.
  destruct w as [? ? ? ? ? ? ? ? ? ? ? ? ? ? hbt ? tm nt ? ? ? ? ? ? ?].
  destruct hbt; session_lazy; repeat (split; [reflexivity|]);
    (split; [lia|]); intros h Hh Hnone.
  - rewrite lookup_insert_ne by lia.
    apply lookup_delete_None. by right.
  - by rewrite lookup_insert_ne by lia.
Qed.

Section Exchange.
Context `{Crypto} `{Json}.

(** A frame of [createFrame] with a payload of at least four bytes is
    genuine for the receiver: it parses back, verifies, and names its
    signer. *)
Lemma createFrame_genuine (type flags now : Z) (payload : jsval)
    (keyPair : KeyPair) (frame : Frame) :
  length (publicKey keyPair) = 32%nat →
  (∀ message, length (crypto_sign message (secretKey keyPair)) = 64%nat) →
  (∀ message, crypto_verify message
                (crypto_sign message (secretKey keyPair))
                (publicKey keyPair) = true) →
  0 ≤ type < 256 → 0 ≤ flags < 65536 → 0 ≤ now < 2 ^ 53 →
  createFrame type payload keyPair flags now = inr frame →
  4 ≤ blen (frame_payload frame) < 2 ^ 32 - 112 →
  deserializeFrame (serializeFrame frame) = inr frame
  ∧ verifyFrame frame = true
  ∧ frame_senderPubkey frame = publicKey keyPair
  ∧ frame_type frame = type.
Proof.
  intros Hpk Hlen Hagree Htype Hflags Hnow Hmade Hsize.
  destruct (createFrame_fields _ _ _ _ _ _ Hmade)
    as (_ & Ht & _ & _ & Hsender & _ & Hsig).
  split; [|split; [|done]].
  - apply (createFrame_roundtrip type flags now payload keyPair); try done.
    + rewrite Hsig. apply Hlen.
    + unfold blen in Hsize. lia.
    + unfold blen in *. rewrite length_serializeFrame. lia.
  - by apply (createFrame_verifies type flags now payload keyPair).
Qed.

Lemma handleData_genuine (frame : Frame) (w : Session) :
  deserializeFrame (serializeFrame frame) = inr frame →
  verifyFrame frame = true →
  toHex (frame_senderPubkey frame) = pubkey w →
  handleData (serializeFrame frame) w
  = match handleFrame frame (refreshed w) with
    | inl err => emit (EvError err) (refreshed w)
    | inr w' => w'
    end.
Proof.
  intros Hparse Hverify Hsender. unfold handleData. cbv zeta.
  fold (refreshed w). rewrite Hparse, Hverify. cbn [negb].
  destruct (refreshed_fields w) as (_ & _ & -> & _).
  by rewrite Hsender, String.eqb_refl.
Qed.

(** X18. The capabilities exchange.  The frame that a peer's
    [sendCapabilities] writes, delivered to the session the other side
    keeps for that peer, replaces the placeholder capabilities by the
    sender's and emits [capabilities] with them.  (The scheme signs with
    64 bytes and its signatures verify; [JSON.parse] reads the text
    back.) *)
Theorem capabilities_exchange (keyPair : KeyPair) (now : Z) (w : Session)
    (frame : Frame) :
  length (publicKey keyPair) = 32%nat →
  (∀ message, length (crypto_sign message (secretKey keyPair)) = 64%nat) →
  (∀ message, crypto_verify message
                (crypto_sign message (secretKey keyPair))
                (publicKey keyPair) = true) →
  0 ≤ now < 2 ^ 53 →
  createCapabilities ourCapabilities keyPair now = inr frame →
  JSON_parse (string_of_list_byte (frame_payload frame))
  = Some capabilitiesMessage →
  pubkey w = toHex (publicKey keyPair) →
  handleData (serializeFrame frame) w
  = emit (EvCapabilities ourCapabilities)
      (set_capabilities ourCapabilities (refreshed w)).
Proof.
  intros Hpk Hlen Hagree Hnow Hmade Hparse Hpubkey.
  unfold createCapabilities in Hmade.
  assert (frame_payload frame
          = Buffer_from (default EmptyString
                           (JSON_stringify capabilitiesMessage))) as Hpayload.
  { destruct (createFrame_payload MessageType.CONTROL capabilitiesMessage
                keyPair 0 now _ eq_refl) as (frame' & Hmade' & Hp).
    unfold capabilitiesMessage in Hmade'. rewrite Hmade in Hmade'.
    by injection Hmade' as ->. }
  destruct (createFrame_genuine MessageType.CONTROL 0 now capabilitiesMessage
              keyPair frame Hpk Hlen Hagree) as (Hback & Hverify & Hsender & Htype);
    [by vm_compute|lia|done|exact Hmade|by rewrite Hpayload; vm_compute|].
  rewrite handleData_genuine; [|done|done|by rewrite Hsender].
  unfold handleFrame. rewrite Hparse, Htype. reflexivity.
Qed.
End Exchange.

Lemma capabilities_exchange_witness :
  capabilities
    (@handleData demoCrypto exchangeJson (serializeFrame demoCapabilitiesFrame)
       demoSession)
  = ourCapabilities.
Proof.
  rewrite (@capabilities_exchange demoCrypto exchangeJson demoKeyPair
             1700000000000 demoSession demoCapabilitiesFrame).
  - reflexivity.
  - reflexivity.
  - intros message. apply length_demoSign.
  - apply demoVerify_demoSign.
  - lia.
  - reflexivity.
  - by vm_compute.
  - reflexivity.
Defined.

(** ** A request and its response *)

Lemma writeFrame_keeps (frame : Frame) (w : Session) :
  pubkey (writeFrame frame w).2 = pubkey w
  ∧ pendingRequests (writeFrame frame w).2 = pendingRequests w
  ∧ ∀ q, q ≠ nextPromise w →
         promises (writeFrame frame w).2 !! q = promises w !! q.
Proof.
  destruct w as [? ? ? ? ? ? ? ? ? ? dead queue draining ? ?
                   now tm nt ? ? pr np ? ready tr].
  unfold writeFrame. destruct dead; [done|].
  destruct ready as [|[] ready]; session_lazy; [done|done|].
  destruct draining; session_lazy; [done|].
  destruct (pr !! np) eqn:Hp; session_lazy; [done|].
  split; [done|]. split; [done|]. intros q Hq. by apply lookup_insert_ne.
Qed.

Lemma resolve_fields (p : nat) (v : jsval) (w : Session) :
  pendingRequests (resolve p v w) = pendingRequests w
  ∧ timers (resolve p v w) = timers w.
Proof. unfold resolve. destruct (promises w !! p); [done|]. by destruct w. Qed.

Section Rpc.
Context `{Crypto} `{Json}.

Lemma request_state (method : string) (params : jsval) (timeout : Z)
    (w : Session) :
  let id := requestId (clock w) (requestCounter w + 1) in
  let p := nextPromise w in
  let h := nextTimer w in
  let w1 := (request method params timeout w).2 in
  (request method params timeout w).1 = p
  ∧ pendingRequests w1 !! id = Some (mkPending p h)
  ∧ pubkey w1 = pubkey w
  ∧ promises w1 !! p = promises w !! p.
Proof.
  intros id p h w1. subst w1. rewrite request_unfold. cbv zeta.
  fold id p h.
  destruct (registered_fields timeout w)
    as (_ & Hp0 & _ & _ & _ & _ & Hk0).
  cbv zeta in Hp0, Hk0. fold id p h in Hp0.
  pose proof (promises_registered timeout w) as Hpr0.
  assert (nextPromise (registered timeout w) = S p) as Hnp0
    by (by destruct w).
  destruct (createFrame_object MessageType.REQUEST
              [("id", JStr id); ("method", JStr method);
               ("params", params); ("timeout", JNum timeout)]%string
              (ourKeyPair w) 0 (clock w)) as [frame Hframe].
  unfold createRequest, requestObject. rewrite Hframe.
  set (w0 := registered timeout w) in *. clearbody w0.
  destruct (writeFrame_keeps frame w0) as (Hk & Hpend & Hprom).
  specialize (Hprom p). rewrite Hnp0 in Hprom.
  destruct (writeFrame frame w0) as [[|err|q] w'];
    lazy beta iota delta [fst snd] in *.
  all: split; [reflexivity|].
  all: rewrite ?pendingRequests_set_microtasks, ?pendingRequests_set_catchers.
  all: split; [rewrite Hpend, Hp0; apply lookup_insert_eq|].
  all: split; [rewrite <- Hk0, <- Hk; by destruct w'|].
  all: rewrite <- Hpr0, <- Hprom by lia; by destruct w'.
Qed.

(** X19. A request and its response, end to end.  A session whose
    handles are fresh sends a request; the peer answers with
    [{ id, result }] in a frame it signs; when that frame arrives, the
    promise that [request] returned, unsettled until then, is resolved
    with [result], the entry and its deadline timer are gone, and nothing
    that happens later (the deadline, a disconnect, a second response)
    changes the outcome. *)
Theorem request_answered (method : string) (params result : jsval)
    (timeout now' : Z) (peerKeys : KeyPair) (w : Session) (frame : Frame) :
  length (publicKey peerKeys) = 32%nat →
  (∀ message, length (crypto_sign message (secretKey peerKeys)) = 64%nat) →
  (∀ message, crypto_verify message
                (crypto_sign message (secretKey peerKeys))
                (publicKey peerKeys) = true) →
  pubkey w = toHex (publicKey peerKeys) →
  fresh w →
  0 ≤ now' < 2 ^ 53 →
  let id := requestId (clock w) (requestCounter w + 1) in
  createResponse (resultResponse id result) peerKeys now' = inr frame →
  blen (frame_payload frame) < 2 ^ 32 - 112 →
  JSON_parse (string_of_list_byte (frame_payload frame))
  = Some (resultResponse id result) →
  let p := (request method params timeout w).1 in
  let w1 := (request method params timeout w).2 in
  let w2 := handleData (serializeFrame frame) w1 in
  promises w1 !! p = None
  ∧ promises w2 !! p = Some (Resolved result)
  ∧ pendingRequests w2 !! id = None
  ∧ timers w2 !! nextTimer w = None
  ∧ ∀ inputs : list Input,
      promises (run w2 inputs) !! p = Some (Resolved result).
Proof.
  intros Hpk Hlen Hagree Hpubkey Hf Hnow id Hmade Hsize Hparse p w1 w2.
  destruct (request_state method params timeout w)
    as (Hp & Hpending & Hk1 & Hprom1).
  cbv zeta in Hp, Hpending, Hk1, Hprom1. fold id in Hpending.
  fold w1 in Hpending, Hk1, Hprom1.
  assert (p = nextPromise w) as Hpeq by exact Hp.
  assert (promises w !! nextPromise w = None) as Hunset.
  { destruct (promises w !! nextPromise w) as [o|] eqn:Hl; [|done].
    destruct Hf as (_ & Fp & _). specialize (Fp _ _ Hl). lia. }
  assert (promises w1 !! p = None) as Hnone
    by (rewrite Hpeq, Hprom1; exact Hunset).
  assert (nextTimer w < nextTimer w1)%nat as Hnt.
  { pose proof (grows_request method params timeout w Hf) as Hg.
    fold w1 in Hg. pose proof (grows_fresh _ _ Hg) as (_ & _ & Fpd & _).
    destruct (Fpd _ _ Hpending) as [_ Hlt]. exact Hlt. }
  clearbody w1 p. subst p.
  unfold createResponse in Hmade.
  assert (4 ≤ blen (frame_payload frame)) as Hfour.
  { destruct (JSON_stringify (resultResponse id result)) as [text|] eqn:Htext;
      [|by apply JSON_stringify_undefined in Htext].
    destruct (createFrame_payload MessageType.RESPONSE _ peerKeys 0 now'
                text Htext) as (frame' & Hmade' & Hpayload).
    rewrite Hmade in Hmade'. injection Hmade' as <-.
    rewrite Hpayload. unfold blen.
    pose proof (length_object_text "id" (JStr id) [("result", result)]%string
                  text) as Hlen4.
    apply Nat2Z.inj_le in Hlen4; [lia|done|exact Htext]. }
  destruct (createFrame_genuine MessageType.RESPONSE 0 now'
              (resultResponse id result) peerKeys frame Hpk Hlen Hagree)
    as (Hback & Hverify & Hsender & Htype);
    [by vm_compute|lia|done|exact Hmade|lia|].
  assert (handleData (serializeFrame frame) w1
          = resolve (nextPromise w) result
              (pendingDelete id (clearTimeout (nextTimer w) (refreshed w1))))
    as Hdata.
  { rewrite handleData_genuine;
      [|done|done|by rewrite Hsender, Hk1, Hpubkey].
    rewrite (handleFrame_response frame (resultResponse id result))
      by done.
    unfold handleResponse, resultResponse.
    cbn [getProp lookupProp String.eqb Ascii.eqb Bool.eqb pendingGet
         pendingDeleteKey default truthy].
    destruct (refreshed_fields w1) as (-> & _).
    rewrite Hpending. reflexivity. }
  subst w2. rewrite Hdata. clear Hdata.
  destruct (refreshed_fields w1) as (Hpend & Hprom & _ & Hnext & _).
  set (w' := refreshed w1) in *. clearbody w'.
  assert (promises (resolve (nextPromise w) result
                      (pendingDelete id (clearTimeout (nextTimer w) w')))
            !! nextPromise w = Some (Resolved result)) as Hresolved.
  { rewrite promises_resolve. apply settle_fresh.
    rewrite <- Hnone, <- Hprom. by destruct w'. }
  split; [exact Hnone|]. split; [exact Hresolved|].
  split; [|split].
  - destruct (resolve_fields (nextPromise w) result
                (pendingDelete id (clearTimeout (nextTimer w) w')))
      as [-> _].
    destruct w'. cbn. apply lookup_delete_eq.
  - destruct (resolve_fields (nextPromise w) result
                (pendingDelete id (clearTimeout (nextTimer w) w')))
      as [_ ->].
    destruct w'. cbn. apply lookup_delete_eq.
  - intros inputs. exact (keeps_run inputs _ _ _ Hresolved).
Qed.
End Rpc.

Lemma request_answered_witness :
  fresh demoSession
  ∧ promises
      (@handleData demoCrypto exchangeJson (serializeFrame demoResponseFrame)
         (@request demoCrypto "ping" JNull 30000 demoSession).2)
      !! (@request demoCrypto "ping" JNull 30000 demoSession).1
    = Some (Resolved (JNum 42)).
Proof.
  assert (fresh demoSession) as Hf by apply fresh_new.
  split; [exact Hf|].
  destruct (@request_answered demoCrypto exchangeJson "ping" JNull (JNum 42)
              30000 1700000000500 demoKeyPair demoSession demoResponseFrame)
    as (_ & Hresolved & _).
  - reflexivity.
  - intros message. apply length_demoSign.
  - apply demoVerify_demoSign.
  - reflexivity.
  - exact Hf.
  - lia.
  - reflexivity.
  - by vm_compute.
  - by vm_compute.
  - exact Hresolved.
Defined.

(** * Writes, heartbeats and the queue *)

(** What [writeFrame] does to the stream and the queue of a live session:
    one call of [stream.write]; the buffer is queued if that call returned
    [false]. *)
Lemma writeFrame_writes (frame : Frame) (w : Session) :
  destroyed w = false →
  let canContinue := default true (head (streamReady w)) in
  let w' := (writeFrame frame w).2 in
  streamWrites (trace w')
  = streamWrites (trace w) ++ [(serializeFrame frame, canContinue)]
  ∧ streamReady w' = tail (streamReady w)
  ∧ writeQueue w'
    = writeQueue w ++ (if canContinue then [] else [serializeFrame frame])
  ∧ writeDraining w' = writeDraining w
  ∧ destroyed w' = false
  ∧ (∀ h, h ≠ nextTimer w → timers w' !! h = timers w !! h).
Proof.
  destruct w as [? ? ? ? ? ? ? ? ? ? dead queue draining ? ?
                   now tm nt ? ? pr np ? ready tr].
  intros Hd. cbn in Hd. subst dead. unfold writeFrame.
  destruct ready as [|[] ready]; session_lazy; cbn [head default tail].
  - rewrite streamWrites_app, app_nil_r. done.
  - rewrite streamWrites_app, app_nil_r. done.
  - destruct draining; session_lazy.
    + rewrite !streamWrites_app. cbn [streamWrites omap].
      rewrite !app_nil_r. repeat (split; [done|]).
      intros h Hh. by apply lookup_insert_ne.
    + destruct (pr !! np); session_lazy; rewrite !streamWrites_app;
        cbn [streamWrites omap]; rewrite !app_nil_r;
        repeat (split; [done|]); intros h Hh;
        rewrite lookup_delete_ne by done; by apply lookup_insert_ne.
Qed.

(** X20. A parked frame goes to the stream twice.  When [stream.write]
    returns [false], [writeFrame] queues the buffer it has just handed to
    the stream; at the next drain [processWriteQueue] hands the same
    buffer to the stream again. *)
Theorem parked_frame_written_again (frame : Frame) (w : Session)
    (answers : list bool) :
  destroyed w = false →
  writeQueue w = [] →
  streamReady w = false :: answers →
  head answers ≠ Some false →
  streamWrites (trace (processWriteQueue (writeFrame frame w).2))
  = streamWrites (trace w)
    ++ [(serializeFrame frame, false); (serializeFrame frame, true)]
  ∧ writeQueue (processWriteQueue (writeFrame frame w).2) = [].
Proof.
  intros Hd Hq Hready Hnext.
  destruct (writeFrame_writes frame w Hd) as (Htr & Hsr & Hwq & _).
  cbv zeta in Htr, Hsr, Hwq. rewrite Hready in Htr, Hsr, Hwq.
  change (default true (head (false :: answers))) with false in Htr, Hwq.
  cbn [tail] in Hsr. rewrite Hq in Hwq. cbn [app] in Hwq.
  set (w' := (writeFrame frame w).2) in *. clearbody w'.
  unfold processWriteQueue. cbv zeta.
  rewrite (processWriteLoop_accepted [serializeFrame frame]).
  - unfold flushed. cbn [map fst snd].
    split; [|by destruct w'].
    transitivity (streamWrites (trace w' ++ [FxStreamWrite (serializeFrame frame) true]));
      [by destruct w'|].
    rewrite streamWrites_app, Htr, <- app_assoc. reflexivity.
  - rewrite <- Hwq. by destruct w'.
  - by destruct w'.
  - rewrite <- Hwq. destruct w'. cbn. lia.
  - intros i Hi. cbn in Hi. assert (i = 0%nat) as -> by lia.
    assert (streamReady (set_writeDraining false w') !! 0%nat = head answers)
      as ->; [|done].
    rewrite <- Hsr.
    destruct w' as [? ? ? ? ? ? ? ? ? ? ? ? ? ? ? ? ? ? ? ? ? ? ? ready ?].
    cbn. by destruct ready.
Qed.

Lemma parked_frame_written_again_witness :
  streamWrites
    (trace (processWriteQueue (writeFrame demoFrame demoSession).2))
  = streamWrites (trace demoSession)
    ++ [(serializeFrame demoFrame, false); (serializeFrame demoFrame, true)].
Proof.
  destruct (parked_frame_written_again demoFrame demoSession [])
    as [Hwrites _].
  - reflexivity.
  - reflexivity.
  - reflexivity.
  - discriminate.
  - exact Hwrites.
Defined.

Lemma processWriteQueue_flushes_witness :
  writeQueue (processWriteQueue (writeFrame demoFrame demoSession).2) = []
  ∧ writeDraining (processWriteQueue (writeFrame demoFrame demoSession).2)
    = false.
Proof.
  rewrite (processWriteQueue_flushes (writeFrame demoFrame demoSession).2).
  - split; reflexivity.
  - intros i Hi. by vm_compute.
Defined.

Lemma processWriteQueue_stops_witness :
  writeQueue (processWriteQueue queuedSession) = [[x03]]
  ∧ writeDraining (processWriteQueue queuedSession) = true
  ∧ streamReady (processWriteQueue queuedSession) = [true].
Proof.
  rewrite (processWriteQueue_stops queuedSession [[x01]] [[x03]] [x02] [true]).
  - by vm_compute.
  - reflexivity.
  - reflexivity.
Defined.

Section Heartbeat.
Context `{Crypto} `{Json}.

Lemma createHeartbeat_made (keyPair : KeyPair) (now : Z) :
  ∃ frame, createHeartbeat keyPair now = inr frame
           ∧ frame_type frame = MessageType.CONTROL.
Proof.
  unfold createHeartbeat.
  destruct (createFrame_object MessageType.CONTROL
              [("type", JStr "heartbeat"); ("timestamp", JNum now)]%string
              keyPair 0 now) as [frame Hmade].
  exists frame. split; [done|].
  by destruct (createFrame_fields _ _ _ _ _ _ Hmade) as (_ & -> & _).
Qed.

(** X21. The heartbeat.  When the interval timer of a live, online
    session is due, its firing writes one signed CONTROL frame to the
    stream, the heartbeat with the current time, and the timer is armed
    again one period after the firing; on a session that is offline or
    destroyed the tick does nothing but rearm. *)
Theorem heartbeat_fires (w : Session) (h : nat) (t : Timer) (period : Z) :
  fresh w →
  timers w !! h = Some t →
  callback t = HeartbeatTick → every t = Some period → fireAt t ≤ clock w →
  let w' := step w (TimerFires h) in
  timers w' !! h = Some (mkTimer (clock w + period) HeartbeatTick (Some period))
  ∧ (destroyed w = true ∨ online w = false →
     streamWrites (trace w') = streamWrites (trace w))
  ∧ (destroyed w = false → online w = true →
     ∃ frame,
       createHeartbeat (ourKeyPair w) (clock w) = inr frame
       ∧ frame_type frame = MessageType.CONTROL
       ∧ streamWrites (trace w')
         = streamWrites (trace w)
           ++ [(serializeFrame frame, default true (head (streamReady w)))]).
Proof.
  intros Hf Hl Hcb Hevery Hdue w'. subst w'. cbn [step].
  unfold fireTimer. rewrite Hl.
  destruct (clock w <? fireAt t) eqn:Hcmp; [apply Z.ltb_lt in Hcmp; lia|].
  rewrite Hevery, Hcb. cbv zeta. cbn [runCallback].
  set (armed := mkTimer (clock w + period) HeartbeatTick (Some period)).
  set (w1 := set_timers (<[h := armed]> (timers w)) w).
  assert (timers w1 !! h = Some armed ∧ trace w1 = trace w
          ∧ destroyed w1 = destroyed w ∧ online w1 = online w
          ∧ ourKeyPair w1 = ourKeyPair w ∧ clock w1 = clock w
          ∧ streamReady w1 = streamReady w ∧ nextTimer w1 = nextTimer w)
    as (Ht1 & Htr1 & Hd1 & Ho1 & Hk1 & Hc1 & Hs1 & Hn1).
  { subst w1. destruct w. cbn. split; [apply lookup_insert_eq|done]. }
  assert (h ≠ nextTimer w) as Hne.
  { destruct Hf as (Ft & _). destruct (Ft h t Hl). lia. }
  clearbody w1. unfold heartbeatTick. rewrite Hd1, Ho1, Hk1, Hc1.
  destruct (createHeartbeat_made (ourKeyPair w) (clock w))
    as (frame & Hmade & Htype).
  rewrite Hmade.
  destruct (destroyed w) eqn:Hd; cbn [orb].
  { split; [done|]. split; [by rewrite Htr1|done]. }
  destruct (online w) eqn:Ho; cbn [negb].
  2:{ split; [done|]. split; [by rewrite Htr1|done]. }
  destruct (writeFrame_writes frame w1) as (Htr & _ & _ & _ & _ & Htimers);
    [by rewrite Hd1|].
  cbv zeta in Htr, Htimers. rewrite Hs1, Htr1 in Htr.
  specialize (Htimers h). rewrite Hn1, Ht1 in Htimers.
  destruct (writeFrame frame w1) as [[|err|q] w2];
    lazy beta iota delta [fst snd] in Htr, Htimers |- *.
  all: split; [rewrite <- Htimers by done; by destruct w2|].
  all: split; [by intros [|]|intros _ _; exists frame].
  all: split; [done|]; split; [done|].
  all: rewrite <- Htr; by destruct w2.
Qed.
End Heartbeat.

(** X21 at an instance: [demoSession], thirty seconds after its
    construction. *)
Lemma heartbeat_fires_witness :
  timers
    (@step demoCrypto demoJson
       (@run demoCrypto demoJson demoSession [Elapse 30000]) (TimerFires 0))
    !! 0%nat
  = Some (mkTimer (1700000030000 + 30000) HeartbeatTick (Some 30000)).
Proof.
  destruct (@heartbeat_fires demoCrypto demoJson
              (@run demoCrypto demoJson demoSession [Elapse 30000]) 0%nat
              (mkTimer 1700000030000 HeartbeatTick (Some 30000)) 30000)
    as [Hrearmed _].
  - apply fresh_run, fresh_new.
  - by vm_compute.
  - reflexivity.
  - reflexivity.
  - by vm_compute.
  - exact Hrearmed.
Defined.
